(** * QuillMusic Manual Creator: placement and note-grid editing

    A shallow embedding of the Manual Creator page of the QuillMusic
    frontend (the [ManualCreator] React component and the part of
    [apiClient.manual] it calls), together with a model of the Timeline
    Store the page talks to over HTTP.

    Conventions.
    - JavaScript numbers that the page handles (bar and step indices, MIDI
      pitches, velocities, pattern lengths) are integers well inside the
      exactly representable range; they are modelled as [Z], and [===],
      [>=], [<] and [+] on them as [Z.eqb], [Z.leb], [Z.ltb] and [Z.add].
    - [Map<string, Note>] keeps insertion order, which [Array.from
      (map.values())] exposes; it is modelled as an association list with
      the update discipline of the JavaScript [Map].
    - An event handler is a computation over the component state, the
      backend and the list of requests sent so far; a thrown exception or
      a rejected promise is an explicit outcome. *)

From Stdlib Require Import ZArith List String Ascii Bool Lia Permutation.
From Stdlib Require Import DecimalString DecimalZ.
From Stdlib Require QArith_base.
Import ListNotations.

Local Open Scope string_scope.
Local Open Scope Z_scope.

(** ** JavaScript primitives *)

Module Js.

(** [`${n}`] for an integer [n]: decimal digits, a leading [-] for a
    negative number, ["0"] for zero. *)
Definition num_to_string (n : Z) : string :=
  NilZero.string_of_int (Z.to_int n).

Definition is_digit (c : ascii) : bool :=
  ((48 <=? nat_of_ascii c) && (nat_of_ascii c <=? 57))%nat.

(** *** [Map<string, V>] in insertion order *)

Definition Map (V : Type) : Type := list (string * V).

Definition empty {V} : Map V := [].

Definition has {V} (m : Map V) (k : string) : bool :=
  existsb (fun e => String.eqb (fst e) k) m.

Fixpoint get {V} (m : Map V) (k : string) : option V :=
  match m with
  | [] => None
  | (k', v) :: rest => if String.eqb k' k then Some v else get rest k
  end.

(** [m.set(k, v)]: an existing key keeps its position and takes the new
    value, a new key goes to the end. *)
Fixpoint set {V} (m : Map V) (k : string) (v : V) : Map V :=
  match m with
  | [] => [(k, v)]
  | (k', v') :: rest =>
      if String.eqb k' k then (k, v) :: rest else (k', v') :: set rest k v
  end.

Definition delete {V} (m : Map V) (k : string) : Map V :=
  filter (fun e => negb (String.eqb (fst e) k)) m.

Definition keys {V} (m : Map V) : list string := map fst m.

Definition values {V} (m : Map V) : list V := map snd m.

(** What every [Map] built from [new Map()] by [set] and [delete]
    satisfies: a key occurs once. *)
Definition wf {V} (m : Map V) : Prop := NoDup (keys m).

(** *** Completion of a handler *)

Inductive Error : Type :=
| TypeError (msg : string)
| ApiError (msg : string).

Inductive Outcome (A : Type) : Type :=
| Returned (a : A)
| Threw (e : Error).

Arguments Returned {A} a.
Arguments Threw {A} e.

End Js.

(** ** Types of [types/index.ts] used by the page *)

Inductive InstrumentType : Type :=
| drums | bass | chords | lead | fx | vocal.

Module ManualProject.
Record t : Type := mk {
  id : string;
  name : string;
  tempo_bpm : Z;
  time_signature : string;
  key : option string;
  description : option string;
  created_at : string;
  updated_at : string
}.
End ManualProject.

(** [volume] and [pan] are carried, never computed with; the modelled
    values are whole numbers. *)
Module Track.
Record t : Type := mk {
  id : string;
  project_id : string;
  name : string;
  instrument_type : InstrumentType;
  channel_index : Z;
  volume : Z;
  pan : Z;
  muted : bool;
  solo : bool
}.
End Track.

Module PatternCreate.
Record t : Type := mk {
  name : string;
  length_bars : Z;
  start_bar : Z
}.
End PatternCreate.

Module Pattern.
Record t : Type := mk {
  id : string;
  track_id : string;
  name : string;
  length_bars : Z;
  start_bar : Z
}.
End Pattern.

Module NoteCreate.
Record t : Type := mk {
  pattern_id : string;
  step_index : Z;
  pitch : Z;
  velocity : Z
}.
End NoteCreate.

Module Note.
Record t : Type := mk {
  id : string;
  pattern_id : string;
  step_index : Z;
  pitch : Z;
  velocity : Z
}.
End Note.

Module ManualProjectDetail.
Record t : Type := mk {
  project : ManualProject.t;
  tracks : list Track.t;
  patterns : list Pattern.t;
  notes : list Note.t
}.
End ManualProjectDetail.

(** ** Constants of the page *)

(** [const NUM_STEPS = 16 // Steps per pattern] *)
Definition NUM_STEPS : Z := 16.

(** [PITCH_NOTES]: the seven rows of the note editor. *)
Definition PITCH_NOTES : list (string * Z) :=
  [("C", 60); ("D", 62); ("E", 64); ("F", 65); ("G", 67); ("A", 69); ("B", 71)].

(** The composite key [`${step}-${pitch}`] of a cell of the note grid. *)
Definition note_key (stepIndex pitch : Z) : string :=
  Js.num_to_string stepIndex ++ "-" ++ Js.num_to_string pitch.

(** The (step, pitch, velocity) triple a note stands for. *)
Definition triple_of_note (n : Note.t) : Z * Z * Z :=
  (Note.step_index n, Note.pitch n, Note.velocity n).

Definition triple_of_create (n : NoteCreate.t) : Z * Z * Z :=
  (NoteCreate.step_index n, NoteCreate.pitch n, NoteCreate.velocity n).

(** ** The backend as the page sees it

    [apiClient.manual] wraps [fetch]: a call resolves with the decoded
    JSON body, or rejects with an [Error] when the response is not OK.
    The four calls the modelled handlers make are the interface of a
    backend state [B]. *)

Class ManualApi (B : Type) : Type := {
  (** [getProjectDetail: manualApi.getProject], GET /manual/projects/{id} *)
  getProjectDetail : string -> B -> (string + ManualProjectDetail.t) * B;
  (** [createPattern], POST /manual/tracks/{id}/patterns *)
  createPattern : string -> PatternCreate.t -> B -> (string + Pattern.t) * B;
  (** [getPatternNotes: manualApi.getNotes], GET /manual/patterns/{id}/notes *)
  getPatternNotes : string -> B -> (string + list Note.t) * B;
  (** [replacePatternNotes: manualApi.createNotesBulk],
      POST /manual/patterns/{id}/notes/bulk *)
  replacePatternNotes :
    string -> list NoteCreate.t -> B -> (string + list Note.t) * B
}.

(** A request as it leaves the page. *)
Inductive Request : Type :=
| ReqGetProjectDetail (projectId : string)
| ReqCreatePattern (trackId : string) (pattern : PatternCreate.t)
| ReqGetPatternNotes (patternId : string)
| ReqReplacePatternNotes (patternId : string) (notes : list NoteCreate.t).

(** ** Component state of [ManualCreator] *)

Record State : Type := mkState {
  selectedProjectId : option string;
  projectDetail : option ManualProjectDetail.t;
  selectedPattern : option Pattern.t;
  noteGrid : Js.Map Note.t;
  isLoading : bool
}.

Definition initialState : State :=
  {| selectedProjectId := None;
     projectDetail := None;
     selectedPattern := None;
     noteGrid := Js.empty;
     isLoading := false |}.

(** The page together with its surroundings. *)
Record World (B : Type) : Type := mkWorld {
  ui : State;
  backend : B;
  requests : list Request;
  console : list string
}.

Arguments mkWorld {B} ui backend requests console.
Arguments ui {B} w.
Arguments backend {B} w.
Arguments requests {B} w.
Arguments console {B} w.

(** ** Handlers as computations over the world *)

Definition Handler (B A : Type) : Type := World B -> Js.Outcome A * World B.

Section Handlers.

Context {B : Type} `{Api : ManualApi B}.

Definition ret {A} (a : A) : Handler B A := fun w => (Js.Returned a, w).

Definition bind {A C} (t : Handler B A) (k : A -> Handler B C) : Handler B C :=
  fun w =>
    match t w with
    | (Js.Returned a, w') => k a w'
    | (Js.Threw e, w') => (Js.Threw e, w')
    end.

Definition throw {A} (e : Js.Error) : Handler B A := fun w => (Js.Threw e, w).

(** [try { body } catch (error) { handler(error) }] *)
Definition try_catch {A} (body : Handler B A) (handler : Js.Error -> Handler B A)
  : Handler B A :=
  fun w =>
    match body w with
    | (Js.Returned a, w') => (Js.Returned a, w')
    | (Js.Threw e, w') => handler e w'
    end.

Definition get_ui : Handler B State := fun w => (Js.Returned (ui w), w).

Definition modify_ui (f : State -> State) : Handler B unit :=
  fun w =>
    (Js.Returned tt, mkWorld (f (ui w)) (backend w) (requests w) (console w)).

(** [console.error(msg, error)]; only the message is kept. *)
Definition console_error (msg : string) : Handler B unit :=
  fun w =>
    (Js.Returned tt,
     mkWorld (ui w) (backend w) (requests w) (console w ++ [msg])).

(** One awaited call of [apiClient.manual]: the request is recorded, the
    backend answers, a non-OK answer is thrown. *)
Definition call {A} (req : Request) (f : B -> (string + A) * B) : Handler B A :=
  fun w =>
    let '(r, b') := f (backend w) in
    let w' := mkWorld (ui w) b' (requests w ++ [req]) (console w) in
    match r with
    | inr a => (Js.Returned a, w')
    | inl msg => (Js.Threw (Js.ApiError msg), w')
    end.

Notation "x <- t ;; k" := (bind t (fun x => k))
  (at level 61, t at next level, right associativity).
Notation "t ;;; k" := (bind t (fun _ => k))
  (at level 61, right associativity).

(** *** State setters *)

Definition setProjectDetail (d : option ManualProjectDetail.t) : Handler B unit :=
  modify_ui (fun st =>
    mkState (selectedProjectId st) d (selectedPattern st) (noteGrid st)
            (isLoading st)).

Definition setSelectedPattern (p : option Pattern.t) : Handler B unit :=
  modify_ui (fun st =>
    mkState (selectedProjectId st) (projectDetail st) p (noteGrid st)
            (isLoading st)).

Definition setNoteGrid (g : Js.Map Note.t) : Handler B unit :=
  modify_ui (fun st =>
    mkState (selectedProjectId st) (projectDetail st) (selectedPattern st) g
            (isLoading st)).

Definition setIsLoading (b : bool) : Handler B unit :=
  modify_ui (fun st =>
    mkState (selectedProjectId st) (projectDetail st) (selectedPattern st)
            (noteGrid st) b).

Definition setSelectedProjectId (p : option string) : Handler B unit :=
  modify_ui (fun st =>
    mkState p (projectDetail st) (selectedPattern st) (noteGrid st)
            (isLoading st)).

(** *** [loadProjectDetail] *)

Definition loadProjectDetail (projectId : string) : Handler B unit :=
  setIsLoading true ;;;
  try_catch
    (data <- call (ReqGetProjectDetail projectId) (getProjectDetail projectId) ;;
     setProjectDetail (Some data))
    (fun _ => console_error "Failed to load project detail:") ;;;
  setIsLoading false.

(** *** [loadPatternNotes] *)

(** The body of [notes.forEach(...)] on a fresh [Map]. *)
Definition notesToGrid (notes : list Note.t) : Js.Map Note.t :=
  fold_left
    (fun noteMap note =>
       Js.set noteMap (note_key (Note.step_index note) (Note.pitch note)) note)
    notes Js.empty.

Definition loadPatternNotes (patternId : string) : Handler B unit :=
  try_catch
    (notes <- call (ReqGetPatternNotes patternId) (getPatternNotes patternId) ;;
     setNoteGrid (notesToGrid notes))
    (fun _ => console_error "Failed to load notes:").

(** *** [handleCellClick] *)

(** The lookup of [handleCellClick]:
    [p => p.track_id === track.id && p.start_bar === bar]. *)
Definition startsAtCell (trackId : string) (bar : Z) (p : Pattern.t) : bool :=
  String.eqb (Pattern.track_id p) trackId && (Pattern.start_bar p =? bar).

(** [`Pattern ${bar + 1}`], [length_bars: 2], [start_bar: bar]. *)
Definition newPatternRequest (bar : Z) : PatternCreate.t :=
  {| PatternCreate.name := "Pattern " ++ Js.num_to_string (bar + 1);
     PatternCreate.length_bars := 2;
     PatternCreate.start_bar := bar |}.

(** [selectedProjectId!] spliced into the request path: [null] prints as
    ["null"]. *)
Definition projectIdArgument (st : State) : string :=
  match selectedProjectId st with
  | Some i => i
  | None => "null"
  end.

(** [loadProjectDetail(selectedProjectId!)] is started without [await];
    its continuation only writes [projectDetail] and [isLoading] and
    catches its own failure, so it is run to completion in place. *)
Definition handleCellClick (track : Track.t) (bar : Z) : Handler B unit :=
  st <- get_ui ;;
  match projectDetail st with
  | None => ret tt
  | Some detail =>
      match find (startsAtCell (Track.id track) bar)
                 (ManualProjectDetail.patterns detail) with
      | Some existingPattern => setSelectedPattern (Some existingPattern)
      | None =>
          try_catch
            (newPattern <- call (ReqCreatePattern (Track.id track)
                                   (newPatternRequest bar))
                                (createPattern (Track.id track)
                                   (newPatternRequest bar)) ;;
             loadProjectDetail (projectIdArgument st) ;;;
             setSelectedPattern (Some newPattern))
            (fun _ => console_error "Failed to create pattern:")
      end
  end.

(** *** [toggleNote] *)

(** The temporary note [toggleNote] puts into the grid. *)
Definition tempNote (patternId : string) (stepIndex pitch : Z) : Note.t :=
  {| Note.id := "temp";
     Note.pattern_id := patternId;
     Note.step_index := stepIndex;
     Note.pitch := pitch;
     Note.velocity := 100 |}.

(** [selectedPattern!.id] throws a [TypeError] when no pattern is
    selected; this happens before [setNoteGrid], so the state is left as
    it was. *)
Definition toggleNote (stepIndex pitch : Z) : Handler B unit :=
  st <- get_ui ;;
  let key := note_key stepIndex pitch in
  let newGrid := noteGrid st in
  if Js.has newGrid key then
    setNoteGrid (Js.delete newGrid key)
  else
    match selectedPattern st with
    | None => throw (Js.TypeError "Cannot read properties of null (reading 'id')")
    | Some pattern =>
        setNoteGrid
          (Js.set newGrid key (tempNote (Pattern.id pattern) stepIndex pitch))
    end.

(** *** [handleSaveNotes] *)

Definition noteCreateOf (patternId : string) (note : Note.t) : NoteCreate.t :=
  {| NoteCreate.pattern_id := patternId;
     NoteCreate.step_index := Note.step_index note;
     NoteCreate.pitch := Note.pitch note;
     NoteCreate.velocity := Note.velocity note |}.

Definition handleSaveNotes : Handler B unit :=
  st <- get_ui ;;
  match selectedPattern st with
  | None => ret tt
  | Some pattern =>
      try_catch
        (let notes :=
           map (noteCreateOf (Pattern.id pattern)) (Js.values (noteGrid st)) in
         _ <- call (ReqReplacePatternNotes (Pattern.id pattern) notes)
                   (replacePatternNotes (Pattern.id pattern) notes) ;;
         loadPatternNotes (Pattern.id pattern))
        (fun _ => console_error "Failed to save notes:")
  end.

(** *** [getPatternAtCell] *)

(** [p => p.track_id === trackId && bar >= p.start_bar &&
          bar < p.start_bar + p.length_bars] *)
Definition coversCell (trackId : string) (bar : Z) (p : Pattern.t) : bool :=
  String.eqb (Pattern.track_id p) trackId
  && (Pattern.start_bar p <=? bar)
  && (bar <? Pattern.start_bar p + Pattern.length_bars p).

Definition getPatternAtCell (st : State) (trackId : string) (bar : Z)
  : option Pattern.t :=
  match projectDetail st with
  | None => None
  | Some detail => find (coversCell trackId bar) (ManualProjectDetail.patterns detail)
  end.

(** *** Effects *)

(** [useEffect(() => { if (selectedPattern) loadPatternNotes(selectedPattern.id) },
    [selectedPattern])] *)
Definition effectSelectedPattern : Handler B unit :=
  st <- get_ui ;;
  match selectedPattern st with
  | Some p => loadPatternNotes (Pattern.id p)
  | None => ret tt
  end.

(** [useEffect(() => { if (selectedProjectId) loadProjectDetail(selectedProjectId) },
    [selectedProjectId])] *)
Definition effectSelectedProjectId : Handler B unit :=
  st <- get_ui ;;
  match selectedProjectId st with
  | Some i => loadProjectDetail i
  | None => ret tt
  end.

End Handlers.

(** ** The Timeline Store

    The page reaches the store only through HTTP; the server code is not
    part of the sources at hand.  The store below follows the operation
    list of the specification (section 4.1), with its data model (section
    3) and error kinds (section 7). *)

Module TimelineStore.

(** Modelled from the spec: the three error kinds of section 7; an
    [OverlapError] carries the identity of the conflicting pattern. *)
Inductive Error : Type :=
| ValidationError
| NotFoundError
| OverlapError (conflicting : string).

(** Modelled from the spec: an operation returns its result or one of the
    error kinds. *)
Definition Result (A : Type) : Type := (Error + A)%type.

(** Modelled from the spec: the state owned by the Timeline Store, the
    hierarchy Project, Track, Pattern, Note as four tables in creation
    order, a counter for generated identities and a logical clock for
    the timestamps. *)
Record t : Type := mk {
  projects : list ManualProject.t;
  tracks : list Track.t;
  patterns : list Pattern.t;
  notes : list Note.t;
  next_id : nat;
  clock : nat
}.

(** Modelled from the spec: the store before any project is created. *)
Definition empty : t := mk [] [] [] [] 0 0.

(** Modelled from the spec: [STEPS_PER_PATTERN], the fixed
    steps-per-pattern resolution (16). *)
Definition STEPS_PER_PATTERN : Z := 16.

(** Modelled from the spec: a generated identity, fresh because the
    counter only grows. *)
Definition fresh_id (n : nat) : string :=
  "id-" ++ NilZero.string_of_uint (Nat.to_uint n).

(** Modelled from the spec: a creation or update timestamp, the reading of
    the logical clock. *)
Definition timestamp (n : nat) : string :=
  NilZero.string_of_uint (Nat.to_uint n).

(** Modelled from the spec: the "N" and the "M" of a time signature are
    runs of digits. *)
Fixpoint all_digits (s : string) : bool :=
  match s with
  | EmptyString => true
  | String c rest => Js.is_digit c && all_digits rest
  end.

(** Modelled from the spec: the part of a time signature before the first
    [/] and the part after it. *)
Fixpoint split_slash (s : string) : option (string * string) :=
  match s with
  | EmptyString => None
  | String c rest =>
      if Ascii.eqb c "/" then Some (EmptyString, rest)
      else match split_slash rest with
           | Some (n, m) => Some (String c n, m)
           | None => None
           end
  end.

(** Modelled from the spec: a time signature of the recognised shape
    "N/M", two non-empty runs of digits around one slash. *)
Definition time_signature_ok (s : string) : bool :=
  match split_slash s with
  | Some (n, m) =>
      negb (String.eqb n "") && all_digits n
      && negb (String.eqb m "") && all_digits m
  | None => false
  end.

(** Modelled from the spec: the lookups by identity behind
    [NotFoundError], and the owner of a track or pattern. *)
Definition has_project (s : t) (projectId : string) : bool :=
  existsb (fun p => String.eqb (ManualProject.id p) projectId) (projects s).

(** Modelled from the spec: the track with the given identity. *)
Definition find_track (s : t) (trackId : string) : option Track.t :=
  find (fun tr => String.eqb (Track.id tr) trackId) (tracks s).

(** Modelled from the spec: the pattern with the given identity. *)
Definition find_pattern (s : t) (patternId : string) : option Pattern.t :=
  find (fun p => String.eqb (Pattern.id p) patternId) (patterns s).

(** Modelled from the spec: the project that owns the track. *)
Definition project_of_track (s : t) (trackId : string) : option string :=
  option_map Track.project_id (find_track s trackId).

(** Modelled from the spec: the project that owns the pattern's track. *)
Definition project_of_pattern (s : t) (patternId : string) : option string :=
  match find_pattern s patternId with
  | Some p => project_of_track s (Pattern.track_id p)
  | None => None
  end.

(** Modelled from the spec: the project [projectId] with its update
    timestamp set to [now]. *)
Definition touch (now : nat) (projectId : string) (p : ManualProject.t)
  : ManualProject.t :=
  if String.eqb (ManualProject.id p) projectId then
    ManualProject.mk (ManualProject.id p) (ManualProject.name p)
      (ManualProject.tempo_bpm p) (ManualProject.time_signature p)
      (ManualProject.key p) (ManualProject.description p)
      (ManualProject.created_at p) (timestamp now)
  else p.

(** Modelled from the spec: "all mutating operations update the owning
    Project's update-timestamp". *)
Definition touched (s : t) (owner : option string) : list ManualProject.t :=
  match owner with
  | Some projectId => map (touch (clock s) projectId) (projects s)
  | None => projects s
  end.

(** *** Projects *)

(** Modelled from the spec: [createProject]; fails with
    [ValidationError] if the tempo is not positive or the time signature
    is not of the shape "N/M".  The newest project is listed first. *)
Definition createProject (name : string) (tempoBpm : Z) (timeSignature : string)
    (key description : option string) (s : t) : Result ManualProject.t * t :=
  if (tempoBpm <=? 0) || negb (time_signature_ok timeSignature) then
    (inl ValidationError, s)
  else
    let p := ManualProject.mk (fresh_id (next_id s)) name tempoBpm
               timeSignature key description
               (timestamp (clock s)) (timestamp (clock s)) in
    (inr p,
     mk (p :: projects s) (tracks s) (patterns s) (notes s)
        (S (next_id s)) (S (clock s))).

(** Modelled from the spec: [listProjects], most recently created
    first. *)
Definition listProjects (s : t) : list ManualProject.t := projects s.

(** Modelled from the spec: the tracks a project owns. *)
Definition tracks_of (s : t) (projectId : string) : list Track.t :=
  filter (fun tr => String.eqb (Track.project_id tr) projectId) (tracks s).

(** Modelled from the spec: the pattern is owned by one of the tracks. *)
Definition on_tracks (trs : list Track.t) (p : Pattern.t) : bool :=
  existsb (fun tr => String.eqb (Track.id tr) (Pattern.track_id p)) trs.

(** Modelled from the spec: the note is owned by one of the patterns. *)
Definition in_patterns (ps : list Pattern.t) (n : Note.t) : bool :=
  existsb (fun p => String.eqb (Pattern.id p) (Note.pattern_id n)) ps.

(** Modelled from the spec: [getProjectDetail], the project with all its
    tracks, their patterns and their notes; [NotFoundError] for an
    unknown project. *)
Definition getProjectDetail (projectId : string) (s : t)
  : Result ManualProjectDetail.t :=
  match find (fun p => String.eqb (ManualProject.id p) projectId) (projects s) with
  | None => inl NotFoundError
  | Some p =>
      let trs := tracks_of s projectId in
      let ps := filter (on_tracks trs) (patterns s) in
      let ns := filter (in_patterns ps) (notes s) in
      inr (ManualProjectDetail.mk p trs ps ns)
  end.

(** Modelled from the spec: [deleteProject] removes the project and
    cascades to its tracks, patterns and notes; [NotFoundError] if the
    project is absent. *)
Definition deleteProject (projectId : string) (s : t) : Result unit * t :=
  if has_project s projectId then
    let trs := tracks_of s projectId in
    let ps := filter (on_tracks trs) (patterns s) in
    (inr tt,
     mk (filter (fun p => negb (String.eqb (ManualProject.id p) projectId))
                (projects s))
        (filter (fun tr => negb (String.eqb (Track.project_id tr) projectId))
                (tracks s))
        (filter (fun p => negb (on_tracks trs p)) (patterns s))
        (filter (fun n => negb (in_patterns ps n)) (notes s))
        (next_id s) (S (clock s)))
  else (inl NotFoundError, s).

(** *** Tracks *)

(** Modelled from the spec: the partial fields of [updateTrack]; [None] is
    a field that is not supplied. *)
Record TrackUpdate : Type := mkTrackUpdate {
  upd_name : option string;
  upd_volume : option Z;
  upd_pan : option Z;
  upd_muted : option bool;
  upd_solo : option bool;
  upd_channel_index : option Z
}.

(** Modelled from the spec: "only supplied fields change; unsupplied
    fields retain prior value". *)
Definition or_else {A} (o : option A) (d : A) : A :=
  match o with Some a => a | None => d end.

(** Modelled from the spec: [addTrack]; the mixer starts at unity
    volume, centre pan, neither muted nor solo. *)
Definition addTrack (projectId name : string) (instrumentType : InstrumentType)
    (channelIndex : Z) (s : t) : Result Track.t * t :=
  if has_project s projectId then
    let tr := Track.mk (fresh_id (next_id s)) projectId name instrumentType
                channelIndex 1 0 false false in
    (inr tr,
     mk (touched s (Some projectId)) (tracks s ++ [tr]) (patterns s) (notes s)
        (S (next_id s)) (S (clock s)))
  else (inl NotFoundError, s).

(** Modelled from the spec: the track after the patch; identity, owner and
    instrument are not among the fields of an update. *)
Definition patch_track (u : TrackUpdate) (tr : Track.t) : Track.t :=
  Track.mk (Track.id tr) (Track.project_id tr)
    (or_else (upd_name u) (Track.name tr))
    (Track.instrument_type tr)
    (or_else (upd_channel_index u) (Track.channel_index tr))
    (or_else (upd_volume u) (Track.volume tr))
    (or_else (upd_pan u) (Track.pan tr))
    (or_else (upd_muted u) (Track.muted tr))
    (or_else (upd_solo u) (Track.solo tr)).

(** Modelled from the spec: [updateTrack], a patch: supplied fields
    change, the others keep their value. *)
Definition updateTrack (trackId : string) (u : TrackUpdate) (s : t)
  : Result Track.t * t :=
  match find_track s trackId with
  | None => (inl NotFoundError, s)
  | Some tr =>
      (inr (patch_track u tr),
       mk (touched s (Some (Track.project_id tr)))
          (map (fun x => if String.eqb (Track.id x) trackId
                         then patch_track u x else x) (tracks s))
          (patterns s) (notes s) (next_id s) (S (clock s)))
  end.

(** Modelled from the spec: [deleteTrack] cascades to the track's
    patterns and their notes. *)
Definition deleteTrack (trackId : string) (s : t) : Result unit * t :=
  match find_track s trackId with
  | None => (inl NotFoundError, s)
  | Some tr =>
      let gone := filter (fun p => String.eqb (Pattern.track_id p) trackId)
                         (patterns s) in
      (inr tt,
       mk (touched s (Some (Track.project_id tr)))
          (filter (fun x => negb (String.eqb (Track.id x) trackId)) (tracks s))
          (filter (fun p => negb (String.eqb (Pattern.track_id p) trackId))
                  (patterns s))
          (filter (fun n => negb (in_patterns gone n)) (notes s))
          (next_id s) (S (clock s)))
  end.

(** *** Patterns *)

(** Modelled from the spec: two half-open bar ranges [[s1, s1 + l1)] and
    [[s2, s2 + l2)] intersect when some bar lies in both. *)
Definition ranges_intersect (s1 l1 s2 l2 : Z) : bool :=
  Z.max s1 s2 <? Z.min (s1 + l1) (s2 + l2).

(** Modelled from the spec: [q] is a pattern of the track whose range
    intersects [[startBar, startBar + lengthBars)]. *)
Definition collides (trackId : string) (startBar lengthBars : Z) (q : Pattern.t)
  : bool :=
  String.eqb (Pattern.track_id q) trackId
  && ranges_intersect startBar lengthBars
       (Pattern.start_bar q) (Pattern.length_bars q).

(** Modelled from the spec: [addPattern] "must check for overlap against
    existing Patterns on the same track; fails with [OverlapError] if
    [[startBar, startBar+lengthBars)] intersects any existing pattern's
    range on that track"; the error names the conflicting pattern. *)
Definition addPattern (trackId name : string) (lengthBars startBar : Z) (s : t)
  : Result Pattern.t * t :=
  match find_track s trackId with
  | None => (inl NotFoundError, s)
  | Some tr =>
      match find (collides trackId startBar lengthBars) (patterns s) with
      | Some q => (inl (OverlapError (Pattern.id q)), s)
      | None =>
          let p := Pattern.mk (fresh_id (next_id s)) trackId name
                     lengthBars startBar in
          (inr p,
           mk (touched s (Some (Track.project_id tr))) (tracks s)
              (patterns s ++ [p]) (notes s) (S (next_id s)) (S (clock s)))
      end
  end.

(** Modelled from the spec: the partial fields of [updatePattern]. *)
Record PatternUpdate : Type := mkPatternUpdate {
  upd_pattern_name : option string;
  upd_length_bars : option Z;
  upd_start_bar : option Z
}.

(** Modelled from the spec: the pattern after the patch; it stays on its
    track. *)
Definition patch_pattern (u : PatternUpdate) (p : Pattern.t) : Pattern.t :=
  Pattern.mk (Pattern.id p) (Pattern.track_id p)
    (or_else (upd_pattern_name u) (Pattern.name p))
    (or_else (upd_length_bars u) (Pattern.length_bars p))
    (or_else (upd_start_bar u) (Pattern.start_bar p)).

(** Modelled from the spec: the pattern [updatePattern] addresses, with
    the patterns stored before it and after it. *)
Fixpoint locate (patternId : string) (ps : list Pattern.t)
  : option (list Pattern.t * Pattern.t * list Pattern.t) :=
  match ps with
  | [] => None
  | p :: rest =>
      if String.eqb (Pattern.id p) patternId then Some ([], p, rest)
      else match locate patternId rest with
           | Some (pre, q, post) => Some (p :: pre, q, post)
           | None => None
           end
  end.

(** Modelled from the spec: "if startBar or lengthBars change". *)
Definition range_changed (p p' : Pattern.t) : bool :=
  negb ((Pattern.start_bar p =? Pattern.start_bar p')
        && (Pattern.length_bars p =? Pattern.length_bars p')).

(** Modelled from the spec: [updatePattern] is a patch that
    "re-validates overlap if startBar or lengthBars change", against the
    other patterns of the track. *)
Definition updatePattern (patternId : string) (u : PatternUpdate) (s : t)
  : Result Pattern.t * t :=
  match locate patternId (patterns s) with
  | None => (inl NotFoundError, s)
  | Some (pre, p, post) =>
      let p' := patch_pattern u p in
      let clash :=
        if range_changed p p' then
          find (collides (Pattern.track_id p') (Pattern.start_bar p')
                  (Pattern.length_bars p')) (pre ++ post)
        else None in
      match clash with
      | Some q => (inl (OverlapError (Pattern.id q)), s)
      | None =>
          (inr p',
           mk (touched s (project_of_track s (Pattern.track_id p)))
              (tracks s) (pre ++ p' :: post) (notes s)
              (next_id s) (S (clock s)))
      end
  end.

(** Modelled from the spec: [deletePattern] cascades to the pattern's
    notes. *)
Definition deletePattern (patternId : string) (s : t) : Result unit * t :=
  match find_pattern s patternId with
  | None => (inl NotFoundError, s)
  | Some p =>
      (inr tt,
       mk (touched s (project_of_track s (Pattern.track_id p))) (tracks s)
          (filter (fun q => negb (String.eqb (Pattern.id q) patternId))
                  (patterns s))
          (filter (fun n => negb (String.eqb (Note.pattern_id n) patternId))
                  (notes s))
          (next_id s) (S (clock s)))
  end.

(** *** Notes *)

(** Modelled from the spec: the notes a pattern owns. *)
Definition notes_of (s : t) (patternId : string) : list Note.t :=
  filter (fun n => String.eqb (Note.pattern_id n) patternId) (notes s).

(** Modelled from the spec: [getNotes], the notes owned by the pattern,
    in a deterministic order (here the order of insertion). *)
Definition getNotes (patternId : string) (s : t) : Result (list Note.t) :=
  match find_pattern s patternId with
  | None => inl NotFoundError
  | Some _ => inr (notes_of s patternId)
  end.

(** Modelled from the spec: an entry is well-formed when its step index
    lies in [[0, STEPS_PER_PATTERN)] and its velocity in [[0, 127]]. *)
Definition entry_ok (e : NoteCreate.t) : bool :=
  (0 <=? NoteCreate.step_index e)
  && (NoteCreate.step_index e <? STEPS_PER_PATTERN)
  && (0 <=? NoteCreate.velocity e)
  && (NoteCreate.velocity e <=? 127).

(** Modelled from the spec: "each entry supplies step_index, pitch,
    velocity; generated identities assigned fresh"; the owner is
    [patternId]. *)
Fixpoint insert_notes (patternId : string) (n : nat) (es : list NoteCreate.t)
  : list Note.t :=
  match es with
  | [] => []
  | e :: rest =>
      Note.mk (fresh_id n) patternId (NoteCreate.step_index e)
        (NoteCreate.pitch e) (NoteCreate.velocity e)
      :: insert_notes patternId (S n) rest
  end.

(** Modelled from the spec: [replaceNotes], "transactional replace-all:
    deletes every existing Note owned by patternId, then inserts the
    given noteList"; it "fails with [ValidationError] if any entry has
    step_index outside [[0, STEPS_PER_PATTERN)] or velocity outside
    [[0,127]]", and a [ValidationError] is "always caught before any
    mutation; store remains unchanged". *)
Definition replaceNotes (patternId : string) (noteList : list NoteCreate.t)
    (s : t) : Result (list Note.t) * t :=
  if negb (forallb entry_ok noteList) then (inl ValidationError, s)
  else
    match find_pattern s patternId with
    | None => (inl NotFoundError, s)
    | Some _ =>
        let created := insert_notes patternId (next_id s) noteList in
        (inr created,
         mk (touched s (project_of_pattern s patternId)) (tracks s) (patterns s)
            (filter (fun n => negb (String.eqb (Note.pattern_id n) patternId))
                    (notes s) ++ created)
            (next_id s + List.length noteList) (S (clock s)))
    end.

(** *** The store behind [apiClient.manual] *)

(** Modelled from the spec: the [detail] of a failed response, which
    [apiFetch] throws as the message of an [Error]. *)
Definition describe (e : Error) : string :=
  match e with
  | ValidationError => "ValidationError"
  | NotFoundError => "NotFoundError"
  | OverlapError q => "OverlapError: " ++ q
  end.

(** Modelled from the spec: the response to a request, the entity or the
    error surfaced to the caller. *)
Definition respond {A} (r : Result A) : (string + A)%type :=
  match r with
  | inl e => inl (describe e)
  | inr a => inr a
  end.

(** Modelled from the spec: the four endpoints the page calls, served by
    [getProjectDetail], [addPattern], [getNotes] and [replaceNotes]. *)
#[global] Instance api : ManualApi t := {
  getProjectDetail projectId s := (respond (getProjectDetail projectId s), s);
  createPattern trackId pc s :=
    let '(r, s') := addPattern trackId (PatternCreate.name pc)
                      (PatternCreate.length_bars pc)
                      (PatternCreate.start_bar pc) s in
    (respond r, s');
  getPatternNotes patternId s := (respond (getNotes patternId s), s);
  replacePatternNotes patternId notes s :=
    let '(r, s') := replaceNotes patternId notes s in (respond r, s')
}.

End TimelineStore.

(** ** The page on top of the Timeline Store *)

Module Session.

(** Modelled from the spec: every mutating operation of the store
    (section 4.1), as another client or a later version of the page may
    call it directly. *)
Inductive StoreOp : Type :=
| OpCreateProject (name : string) (tempoBpm : Z) (timeSignature : string)
    (key description : option string)
| OpDeleteProject (projectId : string)
| OpAddTrack (projectId name : string) (instrumentType : InstrumentType)
    (channelIndex : Z)
| OpUpdateTrack (trackId : string) (u : TimelineStore.TrackUpdate)
| OpDeleteTrack (trackId : string)
| OpAddPattern (trackId name : string) (lengthBars startBar : Z)
| OpUpdatePattern (patternId : string) (u : TimelineStore.PatternUpdate)
| OpDeletePattern (patternId : string)
| OpReplaceNotes (patternId : string) (noteList : list NoteCreate.t).

(** Modelled from the spec: the store after the operation, whether it
    succeeded or failed. *)
Definition apply_op (o : StoreOp) (s : TimelineStore.t) : TimelineStore.t :=
  match o with
  | OpCreateProject n tb ts k d => snd (TimelineStore.createProject n tb ts k d s)
  | OpDeleteProject i => snd (TimelineStore.deleteProject i s)
  | OpAddTrack i n it c => snd (TimelineStore.addTrack i n it c s)
  | OpUpdateTrack i u => snd (TimelineStore.updateTrack i u s)
  | OpDeleteTrack i => snd (TimelineStore.deleteTrack i s)
  | OpAddPattern i n l b => snd (TimelineStore.addPattern i n l b s)
  | OpUpdatePattern i u => snd (TimelineStore.updatePattern i u s)
  | OpDeletePattern i => snd (TimelineStore.deletePattern i s)
  | OpReplaceNotes i ns => snd (TimelineStore.replaceNotes i ns s)
  end.

(** What can happen to the page and its store.  React runs an effect
    after a render in which its dependency changed; object identity is
    not part of this model, so the two effects are events of their own
    and may run at any time. *)
Inductive Event : Type :=
| Direct (o : StoreOp)
| SelectProject (projectId : string)
| EffectSelectedProjectId
| EffectSelectedPattern
| CellClick (track : Track.t) (bar : Z)
| ToggleNote (stepIndex pitch : Z)
| SaveNotes.

Definition W : Type := World TimelineStore.t.

(** The world a handler leaves, whether it returned or threw. *)
Definition after {A} (t : Handler TimelineStore.t A) (w : W) : W := snd (t w).

Definition step (w : W) (e : Event) : W :=
  match e with
  | Direct o => mkWorld (ui w) (apply_op o (backend w)) (requests w) (console w)
  | SelectProject i => after (setSelectedProjectId (Some i)) w
  | EffectSelectedProjectId => after effectSelectedProjectId w
  | EffectSelectedPattern => after effectSelectedPattern w
  | CellClick track bar => after (handleCellClick track bar) w
  | ToggleNote stepIndex pitch => after (toggleNote stepIndex pitch) w
  | SaveNotes => after handleSaveNotes w
  end.

Definition initial : W := mkWorld initialState TimelineStore.empty [] [].

Definition run (events : list Event) : W := fold_left step events initial.

End Session.

(** * Predicates and examples used in the statements *)

(** ** Cells of the note grid and their keys *)

(** The note sits in cell (step, pitch). *)
Definition sameCell (stepIndex pitch : Z) (n : Note.t) : bool :=
  (Note.step_index n =? stepIndex) && (Note.pitch n =? pitch).

(** The key [loadPatternNotes] and [toggleNote] file a note under. *)
Definition key_of_note (n : Note.t) : string :=
  note_key (Note.step_index n) (Note.pitch n).

(** Every entry of the grid is filed under the key of its own cell. *)
Definition keyed (g : Js.Map Note.t) : Prop :=
  forall k n, In (k, n) g -> k = key_of_note n.

(** One round of the [forEach] of [loadPatternNotes]. *)
Definition addNote (noteMap : Js.Map Note.t) (note : Note.t) : Js.Map Note.t :=
  Js.set noteMap (key_of_note note) note.

(** The entry of a note in a keyed grid. *)
Definition entry_of_note (n : Note.t) : string * Note.t := (key_of_note n, n).

(** A grid entry the store accepts: the step is one of the [NUM_STEPS]
    steps and the velocity a MIDI velocity. *)
Definition note_in_range (n : Note.t) : Prop :=
  0 <= Note.step_index n < NUM_STEPS /\ 0 <= Note.velocity n <= 127.

(** An entry the store refuses. *)
Definition entry_out_of_range (e : NoteCreate.t) : Prop :=
  NoteCreate.step_index e < 0
  \/ TimelineStore.STEPS_PER_PATTERN <= NoteCreate.step_index e
  \/ NoteCreate.velocity e < 0
  \/ 127 < NoteCreate.velocity e.

(** Reading a key back: the longest prefix of digits, and what follows
    it. *)
Fixpoint span_digits (s : string) : string * string :=
  match s with
  | EmptyString => (EmptyString, EmptyString)
  | String c rest =>
      if Js.is_digit c then
        let '(d, r) := span_digits rest in (String c d, r)
      else (EmptyString, s)
  end.

(** An optional sign with the digits after it, and what follows. *)
Definition span_int (s : string) : string * string :=
  match s with
  | String c rest =>
      if Ascii.eqb c "-" then
        let '(d, r) := span_digits rest in (String c d, r)
      else span_digits s
  | EmptyString => (EmptyString, EmptyString)
  end.

(** ** Bars and the patterns that cover them *)

(** Bar [b] lies in the half-open range of [p]. *)
Definition in_range (p : Pattern.t) (b : Z) : Prop :=
  Pattern.start_bar p <= b < Pattern.start_bar p + Pattern.length_bars p.

(** No bar of any track is covered by two patterns of the list. *)
Definition non_overlapping (ps : list Pattern.t) : Prop :=
  forall trackId bar, (List.length (filter (coversCell trackId bar) ps) <= 1)%nat.

(** The patterns of the store do not overlap. *)
Definition store_ok (s : TimelineStore.t) : Prop :=
  non_overlapping (TimelineStore.patterns s).

(** ** Handlers *)

(** The handler keeps [P] true of the backend, however it completes. *)
Definition preserves {B : Type} (P : B -> Prop) {A} (t : Handler B A) : Prop :=
  forall w, P (backend w) -> P (backend (snd (t w))).

(** The request asks for a new pattern. *)
Definition isCreatePattern (r : Request) : bool :=
  match r with
  | ReqCreatePattern _ _ => true
  | _ => false
  end.

(** The world after [setNoteGrid(g)]. *)
Definition withNoteGrid {B : Type} (w : World B) (g : Js.Map Note.t) : World B :=
  mkWorld
    (mkState (selectedProjectId (ui w)) (projectDetail (ui w))
       (selectedPattern (ui w)) g (isLoading (ui w)))
    (backend w) (requests w) (console w).

(** ** Sessions *)

(** The note editor offers the steps [0 .. NUM_STEPS - 1]; a toggle of the
    page is a toggle of one of them. *)
Definition on_grid (e : Session.Event) : Prop :=
  match e with
  | Session.ToggleNote stepIndex _ => 0 <= stepIndex < NUM_STEPS
  | _ => True
  end.

(** The grid has one entry per key, filed under the key of its cell, with
    step and velocity in range; so have the notes of the store. *)
Definition working (w : Session.W) : Prop :=
  Js.wf (noteGrid (ui w))
  /\ keyed (noteGrid (ui w))
  /\ Forall note_in_range (Js.values (noteGrid (ui w)))
  /\ Forall note_in_range (TimelineStore.notes (backend w)).

(** ** A session used in the examples: one project, one drum track *)

Module Example.

(** The track as the store creates it. *)
Definition track : Track.t :=
  Track.mk "id-1" "id-0" "drums 1" drums 0 1 0 false false.

(** A project is created, the track added, the project selected on the
    page and loaded. *)
Definition setup : list Session.Event :=
  [ Session.Direct (Session.OpCreateProject "Demo" 120 "4/4" (Some "C") None);
    Session.Direct (Session.OpAddTrack "id-0" "drums 1" drums 0);
    Session.SelectProject "id-0";
    Session.EffectSelectedProjectId ].

(** The pattern the click on bar 2 creates, and the one on bar 6. *)
Definition pattern3 : Pattern.t := Pattern.mk "id-2" "id-1" "Pattern 3" 2 2.
Definition pattern7 : Pattern.t := Pattern.mk "id-3" "id-1" "Pattern 7" 2 6.

End Example.

(** ** The example session, step by step *)

Module Scenario.

(** The project is loaded and the track is there; nothing is placed. *)
Definition loaded : Session.W := Session.run Example.setup.

(** Bar 2 has been clicked: "Pattern 3" exists and is selected, its (empty)
    notes are loaded. *)
Definition selected : Session.W :=
  fold_left Session.step
    [Session.CellClick Example.track 2; Session.EffectSelectedPattern] loaded.

(** Two cells have been toggled on. *)
Definition edited : Session.W :=
  fold_left Session.step
    [Session.ToggleNote 0 60; Session.ToggleNote 4 64] selected.

(** An entry of a bulk replace for "Pattern 3". *)
Definition entry (stepIndex pitch velocity : Z) : NoteCreate.t :=
  {| NoteCreate.pattern_id := "id-2";
     NoteCreate.step_index := stepIndex;
     NoteCreate.pitch := pitch;
     NoteCreate.velocity := velocity |}.

(** Another client has stored two notes for the same cell. *)
Definition doubled : Session.W :=
  Session.step selected
    (Session.Direct
       (Session.OpReplaceNotes "id-2" [entry 0 60 100; entry 4 64 80; entry 0 60 90])).

End Scenario.

(** * More of the pages *)

(** ** What the timeline grid and the note editor render *)

(** [INSTRUMENT_COLORS] *)
Definition INSTRUMENT_COLORS (i : InstrumentType) : string :=
  match i with
  | drums => "bg-blue-600"
  | bass => "bg-green-600"
  | chords => "bg-purple-600"
  | lead => "bg-pink-600"
  | fx => "bg-yellow-600"
  | vocal => "bg-red-600"
  end.

(** The parts of a bar cell that depend on the state: the colour classes,
    the ring classes, the [title] attribute and the name shown inside. *)
Module BarCell.
Record t : Type := mk {
  background : string;
  ring : string;
  title : string;
  label : option string
}.
End BarCell.

(** [selectedPattern?.id === pattern?.id]: two absent identities are
    [undefined === undefined]. *)
Definition sameOptionalId (a b : option Pattern.t) : bool :=
  match option_map Pattern.id a, option_map Pattern.id b with
  | Some x, Some y => String.eqb x y
  | None, None => true
  | _, _ => false
  end.

(** The body of [Array.from({ length: 16 }).map((_, barIndex) => ...)] for
    one track. *)
Definition renderBarCell (st : State) (track : Track.t) (barIndex : Z) : BarCell.t :=
  let pattern := getPatternAtCell st (Track.id track) barIndex in
  let isStart :=
    match pattern with
    | Some p => Pattern.start_bar p =? barIndex
    | None => false
    end in
  {| BarCell.background :=
       match pattern with
       | Some _ =>
           INSTRUMENT_COLORS (Track.instrument_type track)
             ++ " border-gray-700 hover:opacity-80"
       | None => "bg-gray-800 border-gray-700 hover:bg-gray-750"
       end;
     BarCell.ring :=
       if sameOptionalId (selectedPattern st) pattern then "ring-2 ring-white" else "";
     BarCell.title :=
       match pattern with
       | Some p => Pattern.name p
       | None => "Bar " ++ Js.num_to_string (barIndex + 1)
       end;
     BarCell.label :=
       match pattern with
       | Some p => if isStart then Some (Pattern.name p) else None
       | None => None
       end |}.

(** The sixteen bar indices of a row. *)
Definition barIndices : list Z := map Z.of_nat (seq 0 16).

Definition renderRow (st : State) (track : Track.t) : list BarCell.t :=
  map (renderBarCell st track) barIndices.

(** [const hasNote = noteGrid.has(key)] of a cell of the note editor. *)
Definition hasNote (st : State) (stepIndex pitch : Z) : bool :=
  Js.has (noteGrid st) (note_key stepIndex pitch).

(** ** The page on any backend *)

Module Page.

(** What the user and React can make the page do. *)
Inductive Event : Type :=
| SelectProject (projectId : string)
| EffectSelectedProjectId
| EffectSelectedPattern
| CellClick (track : Track.t) (bar : Z)
| ToggleNote (stepIndex pitch : Z)
| SaveNotes.

Definition step {B : Type} `{Api : ManualApi B} (w : World B) (e : Event) : World B :=
  match e with
  | SelectProject i => snd (setSelectedProjectId (Some i) w)
  | EffectSelectedProjectId => snd (effectSelectedProjectId w)
  | EffectSelectedPattern => snd (effectSelectedPattern w)
  | CellClick track bar => snd (handleCellClick track bar w)
  | ToggleNote stepIndex pitch => snd (toggleNote stepIndex pitch w)
  | SaveNotes => snd (handleSaveNotes w)
  end.

Definition run {B : Type} `{Api : ManualApi B} (events : list Event) (w : World B)
  : World B :=
  fold_left step events w.

Definition isCellClick (e : Event) : bool :=
  match e with CellClick _ _ => true | _ => false end.

Definition isSaveNotes (e : Event) : bool :=
  match e with SaveNotes => true | _ => false end.

End Page.

Definition isReplaceNotes (r : Request) : bool :=
  match r with
  | ReqReplacePatternNotes _ _ => true
  | _ => false
  end.

(** How many requests of a kind the log holds. *)
Definition countRequests (kind : Request -> bool) (rs : list Request) : nat :=
  List.length (filter kind rs).

(** ** The Render Queue page *)

Module RenderQueue.

(** A property that may be missing, [null] or present ([audio_url?: string
    | null]). *)
Inductive Optional (A : Type) : Type :=
| Absent
| Null
| Present (a : A).

Arguments Absent {A}.
Arguments Null {A}.
Arguments Present {A} a.

Inductive RenderType : Type := instrumental | vocals | full_mix.

Inductive RenderStatus : Type := queued | processing | failed | ready.

Record RenderJobStatus : Type := mkJob {
  job_id : string;
  song_id : string;
  render_type : RenderType;
  status : RenderStatus;
  audio_url : Optional string;
  error : Optional string
}.

(** [prev.findIndex(f)]: the index of the first match, [-1] without one. *)
Fixpoint findIndexFrom {A} (f : A -> bool) (l : list A) (i : Z) : Z :=
  match l with
  | [] => -1
  | a :: rest => if f a then i else findIndexFrom f rest (i + 1)
  end.

Definition findIndex {A} (f : A -> bool) (l : list A) : Z := findIndexFrom f l 0.

(** [updated[i] = v] on a copy, for an index inside the array (the only
    indices [findIndex] gives). *)
Fixpoint assign {A} (l : list A) (i : nat) (v : A) : list A :=
  match l, i with
  | [], _ => []
  | _ :: rest, O => v :: rest
  | a :: rest, S j => a :: assign rest j v
  end.

(** The updater [handleCheckStatus] passes to [setJobs]. *)
Definition updateJobs (prev : list RenderJobStatus) (result : RenderJobStatus)
  : list RenderJobStatus :=
  let existing := findIndex (fun j => String.eqb (job_id j) (job_id result)) prev in
  if existing >=? 0 then assign prev (Z.to_nat existing) result
  else result :: prev.

Record State : Type := mkState {
  jobId : string;
  jobs : list RenderJobStatus;
  isChecking : bool
}.

Inductive Toast : Type :=
| ToastError (msg : string)
| ToastSuccess (msg : string).

(** The page, the backend, the job identities asked for and the toasts
    shown. *)
Record World (B : Type) : Type := mkWorld {
  ui : State;
  backend : B;
  asked : list string;
  toasts : list Toast
}.

Arguments mkWorld {B} ui backend asked toasts.
Arguments ui {B} w.
Arguments backend {B} w.
Arguments asked {B} w.
Arguments toasts {B} w.

Definition initial {B : Type} (b : B) : World B :=
  mkWorld (mkState "" [] false) b [] [].

(** [handleCheckStatus].  [trim] is [String.prototype.trim]; [getRenderJob]
    is [apiClient.getRenderJob], which resolves with the job or rejects
    with the message of an [Error]. *)
Definition handleCheckStatus {B : Type} (trim : string -> string)
    (getRenderJob : string -> B -> (string + RenderJobStatus) * B)
    (w : World B) : World B :=
  let st := ui w in
  if String.eqb (trim (jobId st)) "" then
    mkWorld st (backend w) (asked w)
      (toasts w ++ [ToastError "Please enter a job ID"])
  else
    match getRenderJob (trim (jobId st)) (backend w) with
    | (inr result, b') =>
        mkWorld (mkState (jobId st) (updateJobs (jobs st) result) false) b'
          (asked w ++ [trim (jobId st)])
          (toasts w ++ [ToastSuccess "Job status retrieved"])
    | (inl msg, b') =>
        mkWorld (mkState (jobId st) (jobs st) false) b'
          (asked w ++ [trim (jobId st)])
          (toasts w ++ [ToastError msg])
    end.

(** Typing into the input, and the button or the Enter key. *)
Inductive Event : Type :=
| TypeJobId (text : string)
| CheckStatus.

Definition step {B : Type} (trim : string -> string)
    (getRenderJob : string -> B -> (string + RenderJobStatus) * B)
    (w : World B) (e : Event) : World B :=
  match e with
  | TypeJobId text =>
      mkWorld (mkState text (jobs (ui w)) (isChecking (ui w)))
        (backend w) (asked w) (toasts w)
  | CheckStatus => handleCheckStatus trim getRenderJob w
  end.

(** The job the list shows for an identity. *)
Definition jobOf (l : list RenderJobStatus) (id : string) : option RenderJobStatus :=
  find (fun j => String.eqb (job_id j) id) l.

End RenderQueue.

(** ** The influences of the HitMaker page *)

Module HitMaker.

Section Influences.

(** A weight is a number the page stores and never computes with here;
    [half] is the literal [0.5]. *)
Variable Weight : Type.
Variable half : Weight.

Record InfluenceDescriptor : Type := mkInfluence {
  name : string;
  weight : Weight
}.

(** [useState<InfluenceDescriptor[]>([{ name: '', weight: 0.5 }])] *)
Definition initialInfluences : list InfluenceDescriptor := [mkInfluence "" half].

Definition addInfluence (influences : list InfluenceDescriptor)
  : list InfluenceDescriptor :=
  if (List.length influences <? 3)%nat then
    (influences ++ [mkInfluence "" half])%list
  else influences.

(** [influences.filter((_, i) => i !== index)] *)
Fixpoint removeAt (l : list InfluenceDescriptor) (i index : nat)
  : list InfluenceDescriptor :=
  match l with
  | [] => []
  | a :: rest =>
      if Nat.eqb i index then removeAt rest (S i) index
      else a :: removeAt rest (S i) index
  end.

Definition removeInfluence (index : nat) (influences : list InfluenceDescriptor)
  : list InfluenceDescriptor :=
  removeAt influences 0 index.

(** The two uses of [updateInfluence(index, field, value)]. *)
Inductive FieldValue : Type :=
| NameValue (value : string)
| WeightValue (value : Weight).

Definition withField (d : InfluenceDescriptor) (v : FieldValue) : InfluenceDescriptor :=
  match v with
  | NameValue s => mkInfluence s (weight d)
  | WeightValue x => mkInfluence (name d) x
  end.

(** [updated[index] = { ...updated[index], [field]: value }] for an index
    of the list; outside of it JavaScript would leave an array with a hole,
    which is no list of descriptors: [None]. *)
Fixpoint updateInfluence (index : nat) (v : FieldValue)
    (influences : list InfluenceDescriptor) : option (list InfluenceDescriptor) :=
  match influences, index with
  | [], _ => None
  | d :: rest, O => Some (withField d v :: rest)
  | d :: rest, S j =>
      match updateInfluence j v rest with
      | Some rest' => Some (d :: rest')
      | None => None
      end
  end.

(** What the influence blender lets the user do. *)
Inductive Event : Type :=
| AddClicked
| RemoveClicked (idx : nat)
| Edited (idx : nat) (v : FieldValue).

(** The control is on the screen: the fields of every listed influence,
    "Remove" only while [influences.length > 1], "+ Add Influence" only
    while [influences.length < 3]. *)
Definition offered (influences : list InfluenceDescriptor) (e : Event) : bool :=
  match e with
  | AddClicked => (List.length influences <? 3)%nat
  | RemoveClicked idx =>
      (1 <? List.length influences)%nat && (idx <? List.length influences)%nat
  | Edited idx _ => (idx <? List.length influences)%nat
  end.

Definition step (influences : list InfluenceDescriptor) (e : Event)
  : list InfluenceDescriptor :=
  match e with
  | AddClicked => addInfluence influences
  | RemoveClicked idx => removeInfluence idx influences
  | Edited idx v =>
      match updateInfluence idx v influences with
      | Some l => l
      | None => influences
      end
  end.

(** Every event of the trace was on the screen when it happened. *)
Fixpoint possible (influences : list InfluenceDescriptor) (events : list Event) : bool :=
  match events with
  | [] => true
  | e :: rest => offered influences e && possible (step influences e) rest
  end.

End Influences.

End HitMaker.

(** ** The HitMaker page: sources, analysis and the influence request *)

Module HitMakerStudio.

(** [useState<'blueprint' | 'manual'>('blueprint')] *)
Inductive SourceType : Type := blueprint | manual.

Section Studio.

(** Weights as for the influences.  A blueprint, an analysis and an
    influence response are payloads the page stores and shows; of a
    blueprint the handlers read [song_id].  [trim] is
    [String.prototype.trim]. *)
Variable Weight : Type.
Variable half : Weight.
Variables Blueprint Analysis InfluenceResponse : Type.
Variable song_id : Blueprint -> string.
Variable trim : string -> string.

(** [SongBlueprintResponse | ManualProjectDetail] *)
Inductive Source : Type :=
| BlueprintSource (b : Blueprint)
| ProjectSource (d : ManualProjectDetail.t).

(** [HitMakerInfluenceRequest]; [None] is a property set to [undefined]. *)
Record InfluenceRequest : Type := mkInfluenceRequest {
  source_blueprint_id : option string;
  source_manual_project_id : option string;
  influences_sent : list (HitMaker.InfluenceDescriptor Weight);
  target_mood : option string;
  target_genre : option string
}.

Record State : Type := mkState {
  sourceType : SourceType;
  blueprints : list Blueprint;
  manualProjects : list ManualProject.t;
  selectedSourceId : string;
  selectedSource : option Source;
  analysis : option Analysis;
  isAnalyzing : bool;
  influences : list (HitMaker.InfluenceDescriptor Weight);
  targetMood : string;
  targetGenre : string;
  influenceResponse : option InfluenceResponse;
  isApplyingInfluence : bool;
  error : option string
}.

Definition initialState : State :=
  mkState blueprint [] [] "" None None false (HitMaker.initialInfluences Weight half)
    "" "" None false None.

(** The calls of [apiClient] the page makes. *)
Record Api (B : Type) : Type := mkApi {
  listSongBlueprints : Z -> B -> (string + list Blueprint) * B;
  listProjects : B -> (string + list ManualProject.t) * B;
  getSongBlueprint : string -> B -> (string + Blueprint) * B;
  getProjectDetail : string -> B -> (string + ManualProjectDetail.t) * B;
  analyzeBlueprint : string -> B -> (string + Analysis) * B;
  analyzeManual : string -> B -> (string + Analysis) * B;
  influenceBlueprint : InfluenceRequest -> B -> (string + InfluenceResponse) * B;
  influenceManual : InfluenceRequest -> B -> (string + InfluenceResponse) * B
}.

Arguments listSongBlueprints {B} a limit b.
Arguments listProjects {B} a b.
Arguments getSongBlueprint {B} a songId b.
Arguments getProjectDetail {B} a projectId b.
Arguments analyzeBlueprint {B} a blueprintId b.
Arguments analyzeManual {B} a projectId b.
Arguments influenceBlueprint {B} a request b.
Arguments influenceManual {B} a request b.

Inductive Request : Type :=
| ReqListSongBlueprints (limit : Z)
| ReqListProjects
| ReqGetSongBlueprint (songId : string)
| ReqGetProjectDetail (projectId : string)
| ReqAnalyzeBlueprint (blueprintId : string)
| ReqAnalyzeManual (projectId : string)
| ReqInfluenceBlueprint (request : InfluenceRequest)
| ReqInfluenceManual (request : InfluenceRequest).

Record World (B : Type) : Type := mkWorld {
  ui : State;
  backend : B;
  requests : list Request;
  console : list string
}.

Arguments mkWorld {B} ui backend requests console.
Arguments ui {B} w.
Arguments backend {B} w.
Arguments requests {B} w.
Arguments console {B} w.

Section Handlers.

Variable B : Type.
Variable api : Api B.

Definition setBlueprints (v : list Blueprint) (st : State) : State :=
  mkState (sourceType st) v (manualProjects st) (selectedSourceId st)
    (selectedSource st) (analysis st) (isAnalyzing st) (influences st)
    (targetMood st) (targetGenre st) (influenceResponse st)
    (isApplyingInfluence st) (error st).

Definition setManualProjects (v : list ManualProject.t) (st : State) : State :=
  mkState (sourceType st) (blueprints st) v (selectedSourceId st)
    (selectedSource st) (analysis st) (isAnalyzing st) (influences st)
    (targetMood st) (targetGenre st) (influenceResponse st)
    (isApplyingInfluence st) (error st).

Definition setSourceType (v : SourceType) (st : State) : State :=
  mkState v (blueprints st) (manualProjects st) (selectedSourceId st)
    (selectedSource st) (analysis st) (isAnalyzing st) (influences st)
    (targetMood st) (targetGenre st) (influenceResponse st)
    (isApplyingInfluence st) (error st).

Definition setSelectedSourceId (v : string) (st : State) : State :=
  mkState (sourceType st) (blueprints st) (manualProjects st) v
    (selectedSource st) (analysis st) (isAnalyzing st) (influences st)
    (targetMood st) (targetGenre st) (influenceResponse st)
    (isApplyingInfluence st) (error st).

Definition setSelectedSource (v : option Source) (st : State) : State :=
  mkState (sourceType st) (blueprints st) (manualProjects st) (selectedSourceId st)
    v (analysis st) (isAnalyzing st) (influences st)
    (targetMood st) (targetGenre st) (influenceResponse st)
    (isApplyingInfluence st) (error st).

Definition setAnalysis (v : option Analysis) (st : State) : State :=
  mkState (sourceType st) (blueprints st) (manualProjects st) (selectedSourceId st)
    (selectedSource st) v (isAnalyzing st) (influences st)
    (targetMood st) (targetGenre st) (influenceResponse st)
    (isApplyingInfluence st) (error st).

Definition setIsAnalyzing (v : bool) (st : State) : State :=
  mkState (sourceType st) (blueprints st) (manualProjects st) (selectedSourceId st)
    (selectedSource st) (analysis st) v (influences st)
    (targetMood st) (targetGenre st) (influenceResponse st)
    (isApplyingInfluence st) (error st).

Definition setInfluences (v : list (HitMaker.InfluenceDescriptor Weight)) (st : State)
  : State :=
  mkState (sourceType st) (blueprints st) (manualProjects st) (selectedSourceId st)
    (selectedSource st) (analysis st) (isAnalyzing st) v
    (targetMood st) (targetGenre st) (influenceResponse st)
    (isApplyingInfluence st) (error st).

Definition setTargetMood (v : string) (st : State) : State :=
  mkState (sourceType st) (blueprints st) (manualProjects st) (selectedSourceId st)
    (selectedSource st) (analysis st) (isAnalyzing st) (influences st)
    v (targetGenre st) (influenceResponse st)
    (isApplyingInfluence st) (error st).

Definition setTargetGenre (v : string) (st : State) : State :=
  mkState (sourceType st) (blueprints st) (manualProjects st) (selectedSourceId st)
    (selectedSource st) (analysis st) (isAnalyzing st) (influences st)
    (targetMood st) v (influenceResponse st)
    (isApplyingInfluence st) (error st).

Definition setInfluenceResponse (v : option InfluenceResponse) (st : State) : State :=
  mkState (sourceType st) (blueprints st) (manualProjects st) (selectedSourceId st)
    (selectedSource st) (analysis st) (isAnalyzing st) (influences st)
    (targetMood st) (targetGenre st) v
    (isApplyingInfluence st) (error st).

Definition setIsApplyingInfluence (v : bool) (st : State) : State :=
  mkState (sourceType st) (blueprints st) (manualProjects st) (selectedSourceId st)
    (selectedSource st) (analysis st) (isAnalyzing st) (influences st)
    (targetMood st) (targetGenre st) (influenceResponse st)
    v (error st).

Definition setError (v : option string) (st : State) : State :=
  mkState (sourceType st) (blueprints st) (manualProjects st) (selectedSourceId st)
    (selectedSource st) (analysis st) (isAnalyzing st) (influences st)
    (targetMood st) (targetGenre st) (influenceResponse st)
    (isApplyingInfluence st) v.

(** [x || fallback] for a string [x]. *)
Definition orDefault (x fallback : string) : string :=
  if String.eqb x "" then fallback else x.

(** [x || undefined] for a string [x]. *)
Definition orUndefined (x : string) : option string :=
  if String.eqb x "" then None else Some x.

(** [loadBlueprints]; [selectedSourceId] is the one of the render the
    handler was made in. *)
Definition loadBlueprints (w : World B) : World B :=
  match listSongBlueprints api 20 (backend w) with
  | (inr data, b') =>
      let st := setBlueprints data (ui w) in
      let st' :=
        match data with
        | first :: _ =>
            if String.eqb (selectedSourceId (ui w)) ""
            then setSelectedSourceId (song_id first) st
            else st
        | [] => st
        end in
      mkWorld st' b' (requests w ++ [ReqListSongBlueprints 20]) (console w)
  | (inl _, b') =>
      mkWorld (ui w) b' (requests w ++ [ReqListSongBlueprints 20])
        (console w ++ ["Failed to load blueprints:"])
  end.

(** [loadManualProjects] *)
Definition loadManualProjects (w : World B) : World B :=
  match listProjects api (backend w) with
  | (inr data, b') =>
      let st := setManualProjects data (ui w) in
      let st' :=
        match data with
        | first :: _ =>
            if String.eqb (selectedSourceId (ui w)) ""
            then setSelectedSourceId (ManualProject.id first) st
            else st
        | [] => st
        end in
      mkWorld st' b' (requests w ++ [ReqListProjects]) (console w)
  | (inl _, b') =>
      mkWorld (ui w) b' (requests w ++ [ReqListProjects])
        (console w ++ ["Failed to load manual projects:"])
  end.

(** [loadSourceDetails] *)
Definition loadSourceDetails (w : World B) : World B :=
  match sourceType (ui w) with
  | blueprint =>
      match getSongBlueprint api (selectedSourceId (ui w)) (backend w) with
      | (inr b, b') =>
          mkWorld (setSelectedSource (Some (BlueprintSource b)) (ui w)) b'
            (requests w ++ [ReqGetSongBlueprint (selectedSourceId (ui w))]) (console w)
      | (inl _, b') =>
          mkWorld (ui w) b'
            (requests w ++ [ReqGetSongBlueprint (selectedSourceId (ui w))])
            (console w ++ ["Failed to load source details:"])
      end
  | manual =>
      match getProjectDetail api (selectedSourceId (ui w)) (backend w) with
      | (inr d, b') =>
          mkWorld (setSelectedSource (Some (ProjectSource d)) (ui w)) b'
            (requests w ++ [ReqGetProjectDetail (selectedSourceId (ui w))]) (console w)
      | (inl _, b') =>
          mkWorld (ui w) b'
            (requests w ++ [ReqGetProjectDetail (selectedSourceId (ui w))])
            (console w ++ ["Failed to load source details:"])
      end
  end.

(** [handleAnalyze] *)
Definition handleAnalyze (w : World B) : World B :=
  if String.eqb (selectedSourceId (ui w)) "" then
    mkWorld (setError (Some "Please select a source") (ui w))
      (backend w) (requests w) (console w)
  else
    let st := setError None (setIsAnalyzing true (ui w)) in
    let id := selectedSourceId (ui w) in
    let '(r, b', req) :=
      match sourceType (ui w) with
      | blueprint =>
          let '(r, b') := analyzeBlueprint api id (backend w) in
          (r, b', ReqAnalyzeBlueprint id)
      | manual =>
          let '(r, b') := analyzeManual api id (backend w) in
          (r, b', ReqAnalyzeManual id)
      end in
    let st' :=
      match r with
      | inr result => setAnalysis (Some result) st
      | inl msg => setError (Some (orDefault msg "Failed to analyze song")) st
      end in
    mkWorld (setIsAnalyzing false st') b' (requests w ++ [req]) (console w).

(** [influences.filter((inf) => inf.name.trim() !== '')] *)
Definition validInfluences (l : list (HitMaker.InfluenceDescriptor Weight))
  : list (HitMaker.InfluenceDescriptor Weight) :=
  filter (fun inf => negb (String.eqb (trim (HitMaker.name Weight inf)) "")) l.

(** The request [handleApplyInfluences] builds. *)
Definition influenceRequest (st : State) : InfluenceRequest :=
  {| source_blueprint_id :=
       match sourceType st with
       | blueprint => Some (selectedSourceId st)
       | manual => None
       end;
     source_manual_project_id :=
       match sourceType st with
       | manual => Some (selectedSourceId st)
       | blueprint => None
       end;
     influences_sent := validInfluences (influences st);
     target_mood := orUndefined (targetMood st);
     target_genre := orUndefined (targetGenre st) |}.

(** [handleApplyInfluences] *)
Definition handleApplyInfluences (w : World B) : World B :=
  if String.eqb (selectedSourceId (ui w)) "" then
    mkWorld (setError (Some "Please select a source") (ui w))
      (backend w) (requests w) (console w)
  else
    match validInfluences (influences (ui w)) with
    | [] =>
        mkWorld (setError (Some "Please add at least one artist influence") (ui w))
          (backend w) (requests w) (console w)
    | _ :: _ =>
        let st := setError None (setIsApplyingInfluence true (ui w)) in
        let request := influenceRequest (ui w) in
        let '(r, b', req) :=
          match sourceType (ui w) with
          | blueprint =>
              let '(r, b') := influenceBlueprint api request (backend w) in
              (r, b', ReqInfluenceBlueprint request)
          | manual =>
              let '(r, b') := influenceManual api request (backend w) in
              (r, b', ReqInfluenceManual request)
          end in
        let st' :=
          match r with
          | inr result => setInfluenceResponse (Some result) st
          | inl msg => setError (Some (orDefault msg "Failed to apply influences")) st
          end in
        mkWorld (setIsApplyingInfluence false st') b' (requests w ++ [req]) (console w)
    end.

(** The effect on [[sourceType]]. *)
Definition effectSourceType (w : World B) : World B :=
  match sourceType (ui w) with
  | blueprint => loadBlueprints w
  | manual => loadManualProjects w
  end.

(** The effect on [[selectedSourceId, sourceType]]. *)
Definition effectSelectedSource (w : World B) : World B :=
  if String.eqb (selectedSourceId (ui w)) "" then w else loadSourceDetails w.

(** What the user and React can make the page do; as for the Manual
    Creator, the effects are events of their own. *)
Inductive Event : Type :=
| ChooseSourceType (t : SourceType)
| ChooseSource (id : string)
| EffectSourceType
| EffectSelectedSource
| Analyze
| ApplyInfluences
| Influence (e : HitMaker.Event Weight)
| TypeTargetMood (text : string)
| TypeTargetGenre (text : string).

Definition onUi (f : State -> State) (w : World B) : World B :=
  mkWorld (f (ui w)) (backend w) (requests w) (console w).

Definition step (w : World B) (e : Event) : World B :=
  match e with
  | ChooseSourceType t => onUi (setSourceType t) w
  | ChooseSource id => onUi (setSelectedSourceId id) w
  | EffectSourceType => effectSourceType w
  | EffectSelectedSource => effectSelectedSource w
  | Analyze => handleAnalyze w
  | ApplyInfluences => handleApplyInfluences w
  | Influence e =>
      onUi (fun st => setInfluences (HitMaker.step Weight half (influences st) e) st) w
  | TypeTargetMood text => onUi (setTargetMood text) w
  | TypeTargetGenre text => onUi (setTargetGenre text) w
  end.

(** The influence controls used are on the screen when they are used. *)
Definition offered (w : World B) (e : Event) : bool :=
  match e with
  | Influence ie => HitMaker.offered Weight (influences (ui w)) ie
  | _ => true
  end.

Fixpoint possible (w : World B) (events : list Event) : bool :=
  match events with
  | [] => true
  | e :: rest => offered w e && possible (step w e) rest
  end.

Definition run (w : World B) (events : list Event) : World B :=
  fold_left step events w.

(** The page as mounted. *)
Definition initial (b : B) : World B := mkWorld initialState b [] [].

(** The identifier a request names its source by. *)
Definition sourceIdOf (r : Request) : option string :=
  match r with
  | ReqListSongBlueprints _ => None
  | ReqListProjects => None
  | ReqGetSongBlueprint id => Some id
  | ReqGetProjectDetail id => Some id
  | ReqAnalyzeBlueprint id => Some id
  | ReqAnalyzeManual id => Some id
  | ReqInfluenceBlueprint q => source_blueprint_id q
  | ReqInfluenceManual q => source_manual_project_id q
  end.

Definition influencesOf (r : Request) : option (list (HitMaker.InfluenceDescriptor Weight)) :=
  match r with
  | ReqInfluenceBlueprint q => Some (influences_sent q)
  | ReqInfluenceManual q => Some (influences_sent q)
  | _ => None
  end.

(** The requests of a source type, for the source [id]. *)
Definition listRequest (t : SourceType) : Request :=
  match t with
  | blueprint => ReqListSongBlueprints 20
  | manual => ReqListProjects
  end.

Definition detailRequest (t : SourceType) (id : string) : Request :=
  match t with
  | blueprint => ReqGetSongBlueprint id
  | manual => ReqGetProjectDetail id
  end.

Definition analyzeRequest (t : SourceType) (id : string) : Request :=
  match t with
  | blueprint => ReqAnalyzeBlueprint id
  | manual => ReqAnalyzeManual id
  end.

End Handlers.

End Studio.

Arguments source_blueprint_id {Weight}.
Arguments source_manual_project_id {Weight}.
Arguments influences_sent {Weight}.
Arguments target_mood {Weight}.
Arguments target_genre {Weight}.
Arguments mkInfluenceRequest {Weight}.
Arguments ReqListSongBlueprints {Weight}.
Arguments ReqListProjects {Weight}.
Arguments ReqGetSongBlueprint {Weight}.
Arguments ReqGetProjectDetail {Weight}.
Arguments ReqAnalyzeBlueprint {Weight}.
Arguments ReqAnalyzeManual {Weight}.
Arguments ReqInfluenceBlueprint {Weight}.
Arguments ReqInfluenceManual {Weight}.
Arguments ChooseSourceType {Weight}.
Arguments ChooseSource {Weight}.
Arguments EffectSourceType {Weight}.
Arguments EffectSelectedSource {Weight}.
Arguments Analyze {Weight}.
Arguments ApplyInfluences {Weight}.
Arguments Influence {Weight}.
Arguments TypeTargetMood {Weight}.
Arguments TypeTargetGenre {Weight}.
Arguments sourceIdOf {Weight}.
Arguments influencesOf {Weight}.
Arguments listRequest {Weight}.
Arguments detailRequest {Weight}.
Arguments analyzeRequest {Weight}.
Arguments mkState {Weight Blueprint Analysis InfluenceResponse}.
Arguments sourceType {Weight Blueprint Analysis InfluenceResponse}.
Arguments blueprints {Weight Blueprint Analysis InfluenceResponse}.
Arguments manualProjects {Weight Blueprint Analysis InfluenceResponse}.
Arguments selectedSourceId {Weight Blueprint Analysis InfluenceResponse}.
Arguments selectedSource {Weight Blueprint Analysis InfluenceResponse}.
Arguments analysis {Weight Blueprint Analysis InfluenceResponse}.
Arguments isAnalyzing {Weight Blueprint Analysis InfluenceResponse}.
Arguments influences {Weight Blueprint Analysis InfluenceResponse}.
Arguments targetMood {Weight Blueprint Analysis InfluenceResponse}.
Arguments targetGenre {Weight Blueprint Analysis InfluenceResponse}.
Arguments influenceResponse {Weight Blueprint Analysis InfluenceResponse}.
Arguments isApplyingInfluence {Weight Blueprint Analysis InfluenceResponse}.
Arguments error {Weight Blueprint Analysis InfluenceResponse}.
Arguments setBlueprints {Weight Blueprint Analysis InfluenceResponse}.
Arguments setManualProjects {Weight Blueprint Analysis InfluenceResponse}.
Arguments setSourceType {Weight Blueprint Analysis InfluenceResponse}.
Arguments setSelectedSourceId {Weight Blueprint Analysis InfluenceResponse}.
Arguments setSelectedSource {Weight Blueprint Analysis InfluenceResponse}.
Arguments setAnalysis {Weight Blueprint Analysis InfluenceResponse}.
Arguments setIsAnalyzing {Weight Blueprint Analysis InfluenceResponse}.
Arguments setInfluences {Weight Blueprint Analysis InfluenceResponse}.
Arguments setTargetMood {Weight Blueprint Analysis InfluenceResponse}.
Arguments setTargetGenre {Weight Blueprint Analysis InfluenceResponse}.
Arguments setInfluenceResponse {Weight Blueprint Analysis InfluenceResponse}.
Arguments setIsApplyingInfluence {Weight Blueprint Analysis InfluenceResponse}.
Arguments setError {Weight Blueprint Analysis InfluenceResponse}.
Arguments mkApi {Weight Blueprint Analysis InfluenceResponse B}.
Arguments listSongBlueprints {Weight Blueprint Analysis InfluenceResponse B}.
Arguments listProjects {Weight Blueprint Analysis InfluenceResponse B}.
Arguments getSongBlueprint {Weight Blueprint Analysis InfluenceResponse B}.
Arguments getProjectDetail {Weight Blueprint Analysis InfluenceResponse B}.
Arguments analyzeBlueprint {Weight Blueprint Analysis InfluenceResponse B}.
Arguments analyzeManual {Weight Blueprint Analysis InfluenceResponse B}.
Arguments influenceBlueprint {Weight Blueprint Analysis InfluenceResponse B}.
Arguments influenceManual {Weight Blueprint Analysis InfluenceResponse B}.
Arguments mkWorld {Weight Blueprint Analysis InfluenceResponse B}.
Arguments ui {Weight Blueprint Analysis InfluenceResponse B}.
Arguments backend {Weight Blueprint Analysis InfluenceResponse B}.
Arguments requests {Weight Blueprint Analysis InfluenceResponse B}.
Arguments console {Weight Blueprint Analysis InfluenceResponse B}.
Arguments loadManualProjects {Weight Blueprint Analysis InfluenceResponse B}.
Arguments loadSourceDetails {Weight Blueprint Analysis InfluenceResponse B}.
Arguments handleAnalyze {Weight Blueprint Analysis InfluenceResponse B}.
Arguments effectSelectedSource {Weight Blueprint Analysis InfluenceResponse B}.
Arguments onUi {Weight Blueprint Analysis InfluenceResponse B}.
Arguments offered {Weight Blueprint Analysis InfluenceResponse B}.
Arguments BlueprintSource {Blueprint} b.
Arguments ProjectSource {Blueprint} d.
Arguments initialState {Weight} half {Blueprint Analysis InfluenceResponse}.
Arguments initial {Weight} half {Blueprint Analysis InfluenceResponse B} b.
Arguments validInfluences {Weight} trim l.
Arguments influenceRequest {Weight Blueprint Analysis InfluenceResponse} trim st.
Arguments loadBlueprints {Weight Blueprint Analysis InfluenceResponse} song_id {B} api w.
Arguments effectSourceType {Weight Blueprint Analysis InfluenceResponse} song_id {B} api w.
Arguments handleApplyInfluences {Weight Blueprint Analysis InfluenceResponse} trim {B} api w.
Arguments step {Weight} half {Blueprint Analysis InfluenceResponse} song_id trim {B} api.
Arguments possible {Weight} half {Blueprint Analysis InfluenceResponse} song_id trim {B} api.
Arguments run {Weight} half {Blueprint Analysis InfluenceResponse} song_id trim {B} api.

End HitMakerStudio.

(** ** Example states for the further properties *)

Module Cases.

(** "Pattern 3" is selected and the grid holds what the store has for it:
    the note of cell (0, 60) with velocity 90 and the note of (4, 64). *)
Definition loadedNotes : Session.W :=
  snd (loadPatternNotes "id-2" Scenario.doubled).

(** A cell outside the sixteen steps has been toggled on. *)
Definition outOfRange : Session.W :=
  Session.step Scenario.selected (Session.ToggleNote 16 60).

(** A project that does not exist has been selected while the example
    project was on the page. *)
Definition stale : Session.W :=
  Page.run [Page.SelectProject "nope"; Page.EffectSelectedProjectId] Scenario.loaded.

(** The loaded detail of the example project before any click. *)
Definition emptyDetail : ManualProjectDetail.t :=
  ManualProjectDetail.mk
    (ManualProject.mk "id-0" "Demo" 120 "4/4" (Some "C") None "0" "1")
    [Example.track] [] [].

(** The loaded detail once "Pattern 3" exists. *)
Definition detailWithPattern3 : ManualProjectDetail.t :=
  ManualProjectDetail.mk
    (ManualProject.mk "id-0" "Demo" 120 "4/4" (Some "C") None "0" "2")
    [Example.track] [Example.pattern3] [].

(** The weight 0.5 as a rational number. *)
Definition half : QArith_base.Q := QArith_base.Qmake 1 2.

(** Space, tab, line feed and carriage return. *)
Definition isSpace (c : ascii) : bool :=
  match c with
  | " "%char | "009"%char | "010"%char | "013"%char => true
  | _ => false
  end.

Fixpoint trimStart (s : string) : string :=
  match s with
  | EmptyString => EmptyString
  | String c rest => if isSpace c then trimStart rest else s
  end.

Fixpoint reverseOnto (s acc : string) : string :=
  match s with
  | EmptyString => acc
  | String c rest => reverseOnto rest (String c acc)
  end.

(** [trim] on the strings of the examples. *)
Definition trim (s : string) : string :=
  reverseOnto (trimStart (reverseOnto (trimStart s) EmptyString)) EmptyString.

(** A backend for the HitMaker page with one blueprint, "song-1", and one
    manual project, "id-0".  A blueprint is its [song_id]; an analysis and
    an influence response are the identifier they were made for. *)
Definition studioApi
  : HitMakerStudio.Api QArith_base.Q string string string unit :=
  HitMakerStudio.mkApi
    (fun _ b => (inr ["song-1"], b))
    (fun b => (inr [ManualProject.mk "id-0" "Demo" 120 "4/4" (Some "C") None "0" "1"], b))
    (fun songId b =>
       if String.eqb songId "song-1" then (inr songId, b)
       else (inl "Blueprint not found", b))
    (fun projectId b =>
       if String.eqb projectId "id-0" then (inr emptyDetail, b)
       else (inl "Project not found", b))
    (fun blueprintId b =>
       if String.eqb blueprintId "song-1" then (inr blueprintId, b)
       else (inl "Blueprint not found", b))
    (fun projectId b =>
       if String.eqb projectId "id-0" then (inr projectId, b)
       else (inl "Project not found", b))
    (fun request b =>
       match HitMakerStudio.source_blueprint_id request with
       | Some "song-1" => (inr "song-1", b)
       | _ => (inl "Blueprint not found", b)
       end)
    (fun request b =>
       match HitMakerStudio.source_manual_project_id request with
       | Some "id-0" => (inr "id-0", b)
       | _ => (inl "Project not found", b)
       end).

Definition studioRun (events : list (HitMakerStudio.Event QArith_base.Q))
  : HitMakerStudio.World QArith_base.Q string string string unit :=
  HitMakerStudio.run half (fun songId : string => songId) trim studioApi
    (HitMakerStudio.initial half tt) events.

(** The page after mounting: the blueprints are listed and "song-1", the
    first of them, is selected and loaded. *)
Definition studioMounted : HitMakerStudio.World QArith_base.Q string string string unit :=
  studioRun [HitMakerStudio.EffectSourceType; HitMakerStudio.EffectSelectedSource].

(** Two influences are listed, the first named " Prince ", the second
    left blank; then "Apply Influences". *)
Definition studioInfluenceEvents : list (HitMakerStudio.Event QArith_base.Q) :=
  [HitMakerStudio.EffectSourceType;
   HitMakerStudio.EffectSelectedSource;
   HitMakerStudio.Influence
     (HitMaker.Edited QArith_base.Q 0 (HitMaker.NameValue QArith_base.Q " Prince "));
   HitMakerStudio.Influence (HitMaker.AddClicked QArith_base.Q);
   HitMakerStudio.Influence
     (HitMaker.Edited QArith_base.Q 1 (HitMaker.NameValue QArith_base.Q "  "));
   HitMakerStudio.ApplyInfluences].

End Cases.

(** * Properties *)

(** ** Facts about [Map] *)

Section MapFacts.

Variable V : Type.
Implicit Types (m : Js.Map V) (k : string) (v : V).

Lemma has_false_not_in m k : Js.has m k = false <-> ~ In k (Js.keys m).
Proof.
  unfold Js.has, Js.keys. induction m as [|[k' v'] m IH]; simpl.
  - tauto.
  - rewrite orb_false_iff, IH, String.eqb_neq. tauto.
Qed.

Lemma has_get m k : Js.has m k = true <-> Js.get m k <> None.
Proof.
  unfold Js.has. induction m as [|[k' v'] m IH]; simpl.
  - split; [discriminate | congruence].
  - destruct (String.eqb k' k); simpl; [split; [discriminate | reflexivity] | exact IH].
Qed.

Lemma get_none_has m k : Js.get m k = None <-> Js.has m k = false.
Proof.
  destruct (Js.has m k) eqn:E.
  - apply has_get in E. split; [contradiction | discriminate].
  - split; [reflexivity | intros _].
    destruct (Js.get m k) eqn:G; [|reflexivity].
    assert (Js.has m k = true) by (apply has_get; congruence). congruence.
Qed.

Lemma get_set_same m k v : Js.get (Js.set m k v) k = Some v.
Proof.
  induction m as [|[k' v'] m IH]; simpl.
  - now rewrite String.eqb_refl.
  - destruct (String.eqb k' k) eqn:E; simpl.
    + now rewrite String.eqb_refl.
    + now rewrite E.
Qed.

Lemma get_set_other m k k' v : k' <> k -> Js.get (Js.set m k v) k' = Js.get m k'.
Proof.
  intros Hne. induction m as [|[k0 v0] m IH]; simpl.
  - apply String.eqb_neq in Hne. rewrite String.eqb_sym in Hne. now rewrite Hne.
  - destruct (String.eqb k0 k) eqn:E; simpl.
    + apply String.eqb_eq in E; subst k0.
      assert (String.eqb k k' = false) as -> by (apply String.eqb_neq; congruence).
      reflexivity.
    + now rewrite IH.
Qed.

Lemma get_delete_same m k : Js.get (Js.delete m k) k = None.
Proof.
  unfold Js.delete. induction m as [|[k' v'] m IH]; simpl; [reflexivity|].
  destruct (String.eqb k' k) eqn:E; simpl; [exact IH | now rewrite E].
Qed.

Lemma get_delete_other m k k' : k' <> k -> Js.get (Js.delete m k) k' = Js.get m k'.
Proof.
  intros Hne. unfold Js.delete. induction m as [|[k0 v0] m IH]; simpl; [reflexivity|].
  destruct (String.eqb k0 k) eqn:E; simpl.
  - apply String.eqb_eq in E; subst k0.
    assert (String.eqb k k' = false) as -> by (apply String.eqb_neq; congruence).
    exact IH.
  - now rewrite IH.
Qed.

(** Setting a key the map does not have appends the entry. *)
Lemma set_absent m k v : Js.has m k = false -> Js.set m k v = (m ++ [(k, v)])%list.
Proof.
  unfold Js.has. induction m as [|[k' v'] m IH]; simpl; [reflexivity|].
  intros H. apply orb_false_iff in H as [E H]. rewrite E. now rewrite IH.
Qed.

Lemma delete_absent m k : Js.has m k = false -> Js.delete m k = m.
Proof.
  unfold Js.has, Js.delete. induction m as [|[k' v'] m IH]; simpl; [reflexivity|].
  intros H. apply orb_false_iff in H as [E H]. rewrite E. simpl. now rewrite IH.
Qed.

Lemma delete_set_absent m k v :
  Js.has m k = false -> Js.delete (Js.set m k v) k = m.
Proof.
  intros H. rewrite set_absent by exact H. unfold Js.delete.
  rewrite filter_app. simpl. rewrite String.eqb_refl. simpl.
  rewrite app_nil_r. now apply delete_absent.
Qed.

Lemma keys_set_in m k v k' :
  In k' (Js.keys (Js.set m k v)) <-> k' = k \/ In k' (Js.keys m).
Proof.
  unfold Js.keys. induction m as [|[k0 v0] m IH]; simpl.
  - intuition.
  - destruct (String.eqb k0 k) eqn:E; simpl.
    + apply String.eqb_eq in E; subst. intuition.
    + rewrite IH. intuition.
Qed.

Lemma wf_empty : Js.wf (@Js.empty V).
Proof. constructor. Qed.

Lemma wf_set m k v : Js.wf m -> Js.wf (Js.set m k v).
Proof.
  unfold Js.wf. induction m as [|[k0 v0] m IH]; simpl; intros H.
  - repeat constructor. intros [].
  - inversion H as [|? ? Hn Hm]; subst.
    destruct (String.eqb k0 k) eqn:E; simpl.
    + apply String.eqb_eq in E; subst. now constructor.
    + constructor; [|now apply IH].
      intros Hin. apply keys_set_in in Hin as [->|Hin]; [|contradiction].
      now rewrite String.eqb_refl in E.
Qed.

Lemma wf_delete m k : Js.wf m -> Js.wf (Js.delete m k).
Proof.
  unfold Js.wf, Js.delete, Js.keys. induction m as [|[k0 v0] m IH]; simpl; intros H.
  - constructor.
  - inversion H as [|? ? Hn Hm]; subst.
    destruct (String.eqb k0 k); simpl; [now apply IH|].
    constructor; [|now apply IH].
    intros Hin. apply Hn. apply in_map_iff in Hin as [e [He Hin]].
    apply filter_In in Hin as [Hin _]. apply in_map_iff. now exists e.
Qed.

(** In a well-formed map an entry is found under its key. *)
Lemma wf_in_get m k v : Js.wf m -> In (k, v) m -> Js.get m k = Some v.
Proof.
  unfold Js.wf, Js.keys. induction m as [|[k0 v0] m IH]; simpl; intros H Hin.
  - contradiction.
  - inversion H as [|? ? Hn Hm]; subst. destruct Hin as [Heq|Hin].
    + inversion Heq; subst. now rewrite String.eqb_refl.
    + destruct (String.eqb k0 k) eqn:E; [|now apply IH].
      apply String.eqb_eq in E; subst. exfalso. apply Hn.
      apply in_map_iff. now exists (k, v).
Qed.

Lemma get_in m k v : Js.get m k = Some v -> In (k, v) m.
Proof.
  induction m as [|[k0 v0] m IH]; simpl; [discriminate|].
  destruct (String.eqb k0 k) eqn:E.
  - apply String.eqb_eq in E; subst. intros [= ->]. now left.
  - intros H. right. now apply IH.
Qed.

End MapFacts.

(** ** The cell key determines the cell *)

Section KeyFacts.

Lemma span_digits_uint (d : Decimal.uint) (r : string) :
  span_digits (NilEmpty.string_of_uint d ++ String "-" r)
  = (NilEmpty.string_of_uint d, String "-" r).
Proof.
  induction d; simpl; try rewrite IHd; reflexivity.
Qed.

Lemma span_digits_nilzero (d : Decimal.uint) (r : string) :
  span_digits (NilZero.string_of_uint d ++ String "-" r)
  = (NilZero.string_of_uint d, String "-" r).
Proof.
  destruct d; try apply (span_digits_uint _ r). reflexivity.
Qed.

Lemma nilzero_starts_with_digit (d : Decimal.uint) :
  exists c rest, NilZero.string_of_uint d = String c rest /\ Js.is_digit c = true.
Proof.
  destruct d; simpl; eexists; eexists; split; reflexivity.
Qed.

Lemma span_int_num (n : Z) (r : string) :
  span_int (Js.num_to_string n ++ String "-" r)
  = (Js.num_to_string n, String "-" r).
Proof.
  unfold Js.num_to_string.
  destruct (Z.to_int n) as [d|d]; simpl NilZero.string_of_int.
  - destruct (nilzero_starts_with_digit d) as (c & rest & E & Hc).
    pose proof (span_digits_nilzero d r) as Hs. rewrite E in *.
    simpl. simpl in Hs.
    destruct (Ascii.eqb c "-") eqn:Ec; [|exact Hs].
    apply Ascii.eqb_eq in Ec. subst c. discriminate Hc.
  - simpl. now rewrite span_digits_nilzero.
Qed.

Lemma to_int_not_nil (n : Z) :
  Z.to_int n <> Decimal.Pos Decimal.Nil /\ Z.to_int n <> Decimal.Neg Decimal.Nil.
Proof.
  destruct n as [|p|p]; simpl; split; try discriminate;
    intros [= H]; now apply (DecimalPos.Unsigned.to_uint_nonnil p).
Qed.

Lemma num_to_string_inj (a b : Z) :
  Js.num_to_string a = Js.num_to_string b -> a = b.
Proof.
  unfold Js.num_to_string. intros H.
  apply DecimalZ.to_int_inj.
  destruct (to_int_not_nil a) as [Ha1 Ha2].
  destruct (to_int_not_nil b) as [Hb1 Hb2].
  pose proof (NilZero.isi _ Ha1 Ha2) as Ia.
  pose proof (NilZero.isi _ Hb1 Hb2) as Ib.
  rewrite H in Ia. congruence.
Qed.

(** Two cells with the same key are the same cell. *)
Lemma note_key_inj (s1 p1 s2 p2 : Z) :
  note_key s1 p1 = note_key s2 p2 -> s1 = s2 /\ p1 = p2.
Proof.
  unfold note_key. intros H.
  assert (E : span_int (Js.num_to_string s1 ++ String "-" (Js.num_to_string p1))
              = span_int (Js.num_to_string s2 ++ String "-" (Js.num_to_string p2)))
    by (f_equal; exact H).
  rewrite !span_int_num in E. inversion E as [[E1 E2]].
  split; now apply num_to_string_inj.
Qed.

Lemma note_key_neq (s1 p1 s2 p2 : Z) :
  (s1, p1) <> (s2, p2) -> note_key s1 p1 <> note_key s2 p2.
Proof.
  intros Hne H. apply note_key_inj in H as [-> ->]. now apply Hne.
Qed.

End KeyFacts.

(** ** Placement: bars and the patterns that cover them *)

Section Placement.

Lemma coversCell_spec trackId bar p :
  coversCell trackId bar p = true <-> Pattern.track_id p = trackId /\ in_range p bar.
Proof.
  unfold coversCell, in_range.
  rewrite !andb_true_iff, String.eqb_eq, Z.leb_le, Z.ltb_lt. tauto.
Qed.

Lemma coversCell_false trackId bar p :
  coversCell trackId bar p = false <-> ~ (Pattern.track_id p = trackId /\ in_range p bar).
Proof.
  rewrite <- coversCell_spec. destruct (coversCell trackId bar p); split; intros; congruence.
Qed.

Lemma startsAtCell_spec trackId bar p :
  startsAtCell trackId bar p = true
  <-> Pattern.track_id p = trackId /\ Pattern.start_bar p = bar.
Proof.
  unfold startsAtCell. rewrite andb_true_iff, String.eqb_eq, Z.eqb_eq. tauto.
Qed.

Lemma collides_spec trackId s l q :
  TimelineStore.collides trackId s l q = true
  <-> Pattern.track_id q = trackId /\ exists b, s <= b < s + l /\ in_range q b.
Proof.
  unfold TimelineStore.collides, TimelineStore.ranges_intersect, in_range.
  rewrite andb_true_iff, String.eqb_eq, Z.ltb_lt. split.
  - intros [Ht Hlt]. split; [exact Ht|].
    exists (Z.max s (Pattern.start_bar q)). lia.
  - intros [Ht [b Hb]]. split; [exact Ht | lia].
Qed.

Lemma non_overlapping_nil : non_overlapping [].
Proof. intros t b. simpl. lia. Qed.

Lemma filter_filter_length {A} (f g : A -> bool) (l : list A) :
  (List.length (filter f (filter g l)) <= List.length (filter f l))%nat.
Proof.
  induction l as [|a l IH]; simpl; [lia|].
  destruct (g a); simpl; destruct (f a); simpl; lia.
Qed.

Lemma non_overlapping_filter (g : Pattern.t -> bool) ps :
  non_overlapping ps -> non_overlapping (filter g ps).
Proof.
  intros H t b. specialize (H t b).
  pose proof (filter_filter_length (coversCell t b) g ps). lia.
Qed.

Lemma filter_nil_of_find_none {A} (f : A -> bool) (l : list A) :
  (forall x, In x l -> f x = false) -> filter f l = [].
Proof.
  induction l as [|a l IH]; simpl; intros H; [reflexivity|].
  rewrite (H a (or_introl eq_refl)). apply IH. intros x Hx. apply H. now right.
Qed.

(** A pattern that collides with none of [ps] covers no bar they cover. *)
Lemma no_collision_no_cover trackId s l ps bar :
  find (TimelineStore.collides trackId s l) ps = None ->
  s <= bar < s + l ->
  filter (coversCell trackId bar) ps = [].
Proof.
  intros Hf Hb. apply filter_nil_of_find_none. intros q Hq.
  apply coversCell_false. intros [Ht Hr].
  pose proof (find_none _ _ Hf q Hq) as Hc.
  assert (TimelineStore.collides trackId s l q = true)
    by (apply collides_spec; split; [exact Ht | now exists bar]).
  congruence.
Qed.

Lemma non_overlapping_insert pre post p :
  non_overlapping (pre ++ post) ->
  find (TimelineStore.collides (Pattern.track_id p) (Pattern.start_bar p)
          (Pattern.length_bars p)) (pre ++ post) = None ->
  non_overlapping (pre ++ p :: post).
Proof.
  intros H Hf t b. specialize (H t b).
  rewrite filter_app in *. simpl. rewrite length_app in *.
  destruct (coversCell t b p) eqn:Hc; [|exact H].
  apply coversCell_spec in Hc as [Ht Hr]. subst t.
  pose proof (no_collision_no_cover _ _ _ _ b Hf Hr) as Hnil.
  rewrite filter_app in Hnil. apply app_eq_nil in Hnil as [-> ->].
  simpl. lia.
Qed.

Lemma non_overlapping_add ps p :
  non_overlapping ps ->
  find (TimelineStore.collides (Pattern.track_id p) (Pattern.start_bar p)
          (Pattern.length_bars p)) ps = None ->
  non_overlapping (ps ++ [p]).
Proof.
  intros H Hf. apply non_overlapping_insert; rewrite app_nil_r; assumption.
Qed.

Lemma non_overlapping_remove pre post p :
  non_overlapping (pre ++ p :: post) -> non_overlapping (pre ++ post).
Proof.
  intros H t b. specialize (H t b).
  rewrite filter_app in *. simpl in H. rewrite length_app in *.
  destruct (coversCell t b p); simpl in H; lia.
Qed.

(** Replacing a pattern by one with the same track and range keeps the
    list non-overlapping. *)
Lemma non_overlapping_same_range pre post p p' :
  Pattern.track_id p' = Pattern.track_id p ->
  Pattern.start_bar p' = Pattern.start_bar p ->
  Pattern.length_bars p' = Pattern.length_bars p ->
  non_overlapping (pre ++ p :: post) -> non_overlapping (pre ++ p' :: post).
Proof.
  intros Ht Hs Hl H t b. specialize (H t b).
  rewrite filter_app in *. simpl in *.
  assert (E : coversCell t b p' = coversCell t b p)
    by (unfold coversCell; now rewrite Ht, Hs, Hl).
  rewrite E, length_app in *.
  destruct (coversCell t b p); simpl in *; lia.
Qed.

Lemma locate_split patternId ps pre p post :
  TimelineStore.locate patternId ps = Some (pre, p, post) ->
  ps = (pre ++ p :: post)%list.
Proof.
  revert pre. induction ps as [|q ps IH]; simpl; intros pre H; [discriminate|].
  destruct (String.eqb (Pattern.id q) patternId).
  - now inversion H.
  - destruct (TimelineStore.locate patternId ps) as [[[pre' q'] post']|];
      [|discriminate].
    inversion H; subst. simpl. f_equal. now apply IH.
Qed.

Lemma pattern_eq_dec (p q : Pattern.t) : {p = q} + {p <> q}.
Proof. decide equality; (apply Z.eq_dec || apply string_dec). Qed.

Lemma two_distinct_members {A} (l : list A) (x y : A) :
  In x l -> In y l -> x <> y -> (2 <= List.length l)%nat.
Proof.
  destruct l as [|a [|b l]]; simpl; intros Hx Hy Hne; try contradiction; [|lia].
  destruct Hx as [<-|[]], Hy as [<-|[]]. now contradiction Hne.
Qed.

(** The pairwise reading of [non_overlapping]. *)
Lemma non_overlapping_pairwise ps p1 p2 :
  non_overlapping ps -> In p1 ps -> In p2 ps -> p1 <> p2 ->
  Pattern.track_id p1 = Pattern.track_id p2 ->
  forall b, ~ (in_range p1 b /\ in_range p2 b).
Proof.
  intros H H1 H2 Hne Ht b [R1 R2].
  specialize (H (Pattern.track_id p1) b).
  assert (In p1 (filter (coversCell (Pattern.track_id p1) b) ps))
    by (apply filter_In; split; [exact H1 | now apply coversCell_spec]).
  assert (In p2 (filter (coversCell (Pattern.track_id p1) b) ps))
    by (apply filter_In; split; [exact H2 | apply coversCell_spec; now split]).
  pose proof (two_distinct_members _ _ _ H0 H3 Hne). lia.
Qed.

End Placement.

(** ** What the store keeps true of its patterns *)

Section StoreInvariant.

Import TimelineStore.

Lemma createProject_patterns n tb ts k d s :
  patterns (snd (createProject n tb ts k d s)) = patterns s.
Proof. unfold createProject. now destruct (_ || _). Qed.

Lemma addTrack_patterns i n it c s :
  patterns (snd (addTrack i n it c s)) = patterns s.
Proof. unfold addTrack. now destruct (has_project s i). Qed.

Lemma updateTrack_patterns i u s :
  patterns (snd (updateTrack i u s)) = patterns s.
Proof. unfold updateTrack. now destruct (find_track s i). Qed.

Lemma replaceNotes_patterns i ns s :
  patterns (snd (replaceNotes i ns s)) = patterns s.
Proof.
  unfold replaceNotes. destruct (negb _); [reflexivity|].
  now destruct (find_pattern s i).
Qed.

Lemma addPattern_non_overlapping i n l b s :
  non_overlapping (patterns s) ->
  non_overlapping (patterns (snd (addPattern i n l b s))).
Proof.
  intros H. unfold addPattern.
  destruct (find_track s i); [|exact H].
  destruct (find _ (patterns s)) eqn:Hf; [exact H|]. simpl.
  now apply non_overlapping_add.
Qed.

Lemma updatePattern_non_overlapping i u s :
  non_overlapping (patterns s) ->
  non_overlapping (patterns (snd (updatePattern i u s))).
Proof.
  intros H. unfold updatePattern.
  destruct (locate i (patterns s)) as [[[pre p] post]|] eqn:Hl; [|exact H].
  apply locate_split in Hl. rewrite Hl in H.
  destruct (range_changed p (patch_pattern u p)) eqn:Hc.
  - destruct (find _ (pre ++ post)) eqn:Hf; simpl.
    + now rewrite Hl.
    + apply non_overlapping_insert; [|exact Hf].
      now apply non_overlapping_remove with p.
  - simpl. unfold range_changed in Hc.
    apply negb_false_iff, andb_true_iff in Hc as [Hs Hlen].
    apply Z.eqb_eq in Hs, Hlen.
    apply non_overlapping_same_range with p; auto.
Qed.

Lemma apply_op_non_overlapping o s :
  non_overlapping (patterns s) ->
  non_overlapping (patterns (Session.apply_op o s)).
Proof.
  intros H. destruct o; simpl.
  - now rewrite createProject_patterns.
  - unfold deleteProject. destruct (has_project s projectId); [|exact H].
    simpl. now apply non_overlapping_filter.
  - now rewrite addTrack_patterns.
  - now rewrite updateTrack_patterns.
  - unfold deleteTrack. destruct (find_track s trackId); [|exact H].
    simpl. now apply non_overlapping_filter.
  - now apply addPattern_non_overlapping.
  - now apply updatePattern_non_overlapping.
  - unfold deletePattern. destruct (find_pattern s patternId); [|exact H].
    simpl. now apply non_overlapping_filter.
  - now rewrite replaceNotes_patterns.
Qed.

End StoreInvariant.

(** ** Handlers and properties of the backend *)

Section Preservation.

Context {B : Type} `{Api : ManualApi B}.
Variable P : B -> Prop.

Lemma preserves_ret {A} (a : A) : preserves P (ret a).
Proof. intros w H. exact H. Qed.

Lemma preserves_throw {A} e : preserves P (@throw B A e).
Proof. intros w H. exact H. Qed.

Lemma preserves_get_ui : preserves P get_ui.
Proof. intros w H. exact H. Qed.

Lemma preserves_modify_ui f : preserves P (modify_ui f).
Proof. intros w H. exact H. Qed.

Lemma preserves_console_error msg : preserves P (console_error msg).
Proof. intros w H. exact H. Qed.

Lemma preserves_bind {A C} (t : Handler B A) (k : A -> Handler B C) :
  preserves P t -> (forall a, preserves P (k a)) -> preserves P (bind t k).
Proof.
  intros Ht Hk w H. unfold bind. specialize (Ht w H).
  destruct (t w) as [[a|e] w']; simpl in *; [now apply Hk | exact Ht].
Qed.

Lemma preserves_try_catch {A} (body : Handler B A) handler :
  preserves P body -> (forall e, preserves P (handler e)) ->
  preserves P (try_catch body handler).
Proof.
  intros Hb Hh w H. unfold try_catch. specialize (Hb w H).
  destruct (body w) as [[a|e] w']; simpl in *; [exact Hb | now apply Hh].
Qed.

Lemma preserves_call {A} req (f : B -> (string + A) * B) :
  (forall b, P b -> P (snd (f b))) -> preserves P (call req f).
Proof.
  intros Hf w H. unfold call. specialize (Hf _ H).
  destruct (f (backend w)) as [[msg|a] b']; simpl in *; exact Hf.
Qed.

(** The four calls of the page keep [P]. *)
Hypothesis getProjectDetail_keeps :
  forall i b, P b -> P (snd (getProjectDetail i b)).
Hypothesis createPattern_keeps :
  forall i pc b, P b -> P (snd (createPattern i pc b)).
Hypothesis getPatternNotes_keeps :
  forall i b, P b -> P (snd (getPatternNotes i b)).
Hypothesis replacePatternNotes_keeps :
  forall i ns b, P b -> P (snd (replacePatternNotes i ns b)).

Ltac keep :=
  repeat first
    [ apply preserves_ret | apply preserves_throw | apply preserves_get_ui
    | apply preserves_modify_ui | apply preserves_console_error
    | apply preserves_bind; [|intros ?]
    | apply preserves_try_catch; [|intros ?]
    | apply preserves_call; intros ? ?
    | progress auto ].

Lemma preserves_loadProjectDetail i : preserves P (loadProjectDetail i).
Proof. unfold loadProjectDetail, setIsLoading, setProjectDetail. keep. Qed.

Lemma preserves_loadPatternNotes i : preserves P (loadPatternNotes i).
Proof. unfold loadPatternNotes, setNoteGrid. keep. Qed.

Lemma preserves_toggleNote s p : preserves P (toggleNote s p).
Proof.
  unfold toggleNote, setNoteGrid. apply preserves_bind; [keep|]. intros st.
  destruct (Js.has _ _); [keep|]. destruct (selectedPattern st); keep.
Qed.

Lemma preserves_handleCellClick track bar : preserves P (handleCellClick track bar).
Proof.
  unfold handleCellClick, setSelectedPattern.
  apply preserves_bind; [keep|]. intros st.
  destruct (projectDetail st); [|keep].
  destruct (find _ _); [keep|].
  apply preserves_try_catch; [|keep].
  apply preserves_bind; [keep|]. intros newPattern.
  apply preserves_bind; [apply preserves_loadProjectDetail | keep].
Qed.

Lemma preserves_handleSaveNotes : preserves P handleSaveNotes.
Proof.
  unfold handleSaveNotes. apply preserves_bind; [keep|]. intros st.
  destruct (selectedPattern st); [|keep].
  apply preserves_try_catch; [|keep].
  apply preserves_bind; [keep|]. intros _. apply preserves_loadPatternNotes.
Qed.

Lemma preserves_effectSelectedPattern : preserves P effectSelectedPattern.
Proof.
  unfold effectSelectedPattern. apply preserves_bind; [keep|]. intros st.
  destruct (selectedPattern st); [apply preserves_loadPatternNotes | keep].
Qed.

Lemma preserves_effectSelectedProjectId : preserves P effectSelectedProjectId.
Proof.
  unfold effectSelectedProjectId. apply preserves_bind; [keep|]. intros st.
  destruct (selectedProjectId st); [apply preserves_loadProjectDetail | keep].
Qed.

End Preservation.

(** ** The placement resolver of the page *)

Section Resolver.

Context {B : Type} `{Api : ManualApi B}.

Lemma find_first_match {A} (f : A -> bool) (l : list A) (x : A) :
  find f l = Some x ->
  exists pre post, l = (pre ++ x :: post)%list /\ f x = true
                   /\ forall y, In y pre -> f y = false.
Proof.
  induction l as [|a l IH]; simpl; [discriminate|].
  destruct (f a) eqn:Fa.
  - intros [= <-]. exists [], l. repeat split; [exact Fa | intros y []].
  - intros H. destruct (IH H) as (pre & post & -> & Fx & Hpre).
    exists (a :: pre), post. repeat split; [exact Fx|].
    intros y [<-|Hy]; [exact Fa | now apply Hpre].
Qed.

(** C3.  [getPatternAtCell] answers with at most one pattern.  When it
    answers with [p], then [p] is a pattern of the loaded project, lies on
    the asked track, its range [[start_bar, start_bar + length_bars)]
    contains the asked bar, and it is the first such pattern of the list.
    When it answers with nothing, no pattern of the loaded project on
    that track has the bar in its range (or no project is loaded). *)
Theorem getPatternAtCell_exact (st : State) (trackId : string) (bar : Z) :
  match getPatternAtCell st trackId bar with
  | Some p =>
      exists detail pre post,
        projectDetail st = Some detail
        /\ ManualProjectDetail.patterns detail = (pre ++ p :: post)%list
        /\ Pattern.track_id p = trackId
        /\ Pattern.start_bar p <= bar < Pattern.start_bar p + Pattern.length_bars p
        /\ forall q, In q pre ->
             ~ (Pattern.track_id q = trackId
                /\ Pattern.start_bar q <= bar
                     < Pattern.start_bar q + Pattern.length_bars q)
  | None =>
      forall detail q,
        projectDetail st = Some detail ->
        In q (ManualProjectDetail.patterns detail) ->
        ~ (Pattern.track_id q = trackId
           /\ Pattern.start_bar q <= bar
                < Pattern.start_bar q + Pattern.length_bars q)
  end.
Proof.
  unfold getPatternAtCell.
  destruct (projectDetail st) as [detail|]; [|intros ? ? [=]].
  destruct (find _ _) as [p|] eqn:Hf.
  - apply find_first_match in Hf as (pre & post & Hl & Hp & Hpre).
    apply coversCell_spec in Hp as [Ht Hr].
    exists detail, pre, post. repeat split; try assumption; try apply Hr.
    intros q Hq. apply coversCell_false. now apply Hpre.
  - intros d q [= <-] Hq. apply coversCell_false.
    exact (find_none _ _ Hf q Hq).
Qed.

(** Where the loaded patterns do not overlap, the answer of
    [getPatternAtCell] is the only pattern covering the cell. *)
Lemma getPatternAtCell_unique (st : State) detail trackId bar p q :
  projectDetail st = Some detail ->
  non_overlapping (ManualProjectDetail.patterns detail) ->
  getPatternAtCell st trackId bar = Some p ->
  In q (ManualProjectDetail.patterns detail) ->
  Pattern.track_id q = trackId -> in_range q bar ->
  q = p.
Proof.
  intros Hd Hno Hg Hq Ht Hr. unfold getPatternAtCell in Hg. rewrite Hd in Hg.
  apply find_some in Hg as [Hp Hc]. apply coversCell_spec in Hc as [Htp Hrp].
  destruct (pattern_eq_dec q p) as [E|E]; [exact E|].
  exfalso. apply (non_overlapping_pairwise _ q p Hno Hq Hp E) with bar; [congruence|].
  now split.
Qed.

End Resolver.

(** ** The grid click *)

Section GridClick.

Context {B : Type} `{Api : ManualApi B}.

Lemma bind_get_ui {C} (k : State -> Handler B C) (w : World B) :
  bind get_ui k w = k (ui w) w.
Proof. reflexivity. Qed.

Lemma bind_call {A C} req (f : B -> (string + A) * B) (k : A -> Handler B C) (w : World B) :
  bind (call req f) k w =
  match f (backend w) with
  | (inr a, b') => k a (mkWorld (ui w) b' (requests w ++ [req]) (console w))
  | (inl msg, b') =>
      (Js.Threw (Js.ApiError msg),
       mkWorld (ui w) b' (requests w ++ [req]) (console w))
  end.
Proof.
  unfold bind, call. destruct (f (backend w)) as [[msg|a] b']; reflexivity.
Qed.

(** What [loadProjectDetail] leaves: one request, the pattern selection
    and the note grid untouched. *)
Lemma loadProjectDetail_effect (projectId : string) (w : World B) :
  let w' := snd (loadProjectDetail projectId w) in
  fst (loadProjectDetail projectId w) = Js.Returned tt
  /\ requests w' = (requests w ++ [ReqGetProjectDetail projectId])%list
  /\ backend w' = snd (getProjectDetail projectId (backend w))
  /\ selectedPattern (ui w') = selectedPattern (ui w)
  /\ noteGrid (ui w') = noteGrid (ui w)
  /\ selectedProjectId (ui w') = selectedProjectId (ui w)
  /\ console w' = match fst (getProjectDetail projectId (backend w)) with
                  | inr _ => console w
                  | inl _ => (console w ++ ["Failed to load project detail:"])%list
                  end.
Proof.
  unfold loadProjectDetail, bind, try_catch, call, setIsLoading, setProjectDetail,
    modify_ui, console_error. simpl.
  destruct (getProjectDetail projectId (backend w)) as [[msg|data] b']; simpl;
    repeat split; reflexivity.
Qed.

Lemma bind_loadProjectDetail {C} projectId (k : unit -> Handler B C) (w : World B) :
  bind (loadProjectDetail projectId) k w = k tt (snd (loadProjectDetail projectId w)).
Proof.
  destruct (loadProjectDetail_effect projectId w) as (Hr & _).
  unfold bind at 1. destruct (loadProjectDetail projectId w) as [o w1].
  simpl in Hr. now subst o.
Qed.

(** The else-branch of [handleCellClick]: the lookup found nothing. *)
Lemma handleCellClick_create_branch (w : World B) (track : Track.t) (bar : Z) detail :
  projectDetail (ui w) = Some detail ->
  find (startsAtCell (Track.id track) bar) (ManualProjectDetail.patterns detail) = None ->
  let w' := snd (handleCellClick track bar w) in
  match createPattern (Track.id track) (newPatternRequest bar) (backend w) with
  | (inr newPattern, b') =>
      requests w' =
        (requests w ++ [ReqCreatePattern (Track.id track) (newPatternRequest bar);
                        ReqGetProjectDetail (projectIdArgument (ui w))])%list
      /\ selectedPattern (ui w') = Some newPattern
      /\ backend w' = snd (getProjectDetail (projectIdArgument (ui w)) b')
      /\ noteGrid (ui w') = noteGrid (ui w)
  | (inl msg, b') =>
      requests w' =
        (requests w ++ [ReqCreatePattern (Track.id track) (newPatternRequest bar)])%list
      /\ ui w' = ui w
      /\ backend w' = b'
      /\ console w' = (console w ++ ["Failed to create pattern:"])%list
  end.
Proof.
  intros Hd Hf w'. subst w'. unfold handleCellClick.
  rewrite bind_get_ui, Hd, Hf. unfold try_catch. rewrite bind_call.
  destruct (createPattern _ _ (backend w)) as [[msg|newPattern] b']; simpl.
  - repeat split; reflexivity.
  - rewrite bind_loadProjectDetail. simpl.
    match goal with
    | |- context [loadProjectDetail ?i ?w0] =>
        destruct (loadProjectDetail_effect i w0) as (_ & Hq & Hb & _ & Hg & _)
    end.
    simpl in *. rewrite Hq, Hb, Hg, <- app_assoc. simpl.
    repeat split; reflexivity.
Qed.

(** The then-branch: a pattern of the track starts at the clicked bar. *)
Lemma handleCellClick_select_branch (w : World B) (track : Track.t) (bar : Z)
    detail existingPattern :
  projectDetail (ui w) = Some detail ->
  find (startsAtCell (Track.id track) bar) (ManualProjectDetail.patterns detail)
    = Some existingPattern ->
  let w' := snd (handleCellClick track bar w) in
  selectedPattern (ui w') = Some existingPattern
  /\ requests w' = requests w /\ backend w' = backend w.
Proof.
  intros Hd Hf w'. subst w'. unfold handleCellClick.
  rewrite bind_get_ui, Hd, Hf. repeat split; reflexivity.
Qed.

(** C4.  When the lookup of the click handler finds no pattern at the
    clicked (track, bar), the handler asks for one new pattern and no
    more: on the clicked track, with [start_bar] the clicked bar,
    [length_bars] the fixed default 2 and the name "Pattern {bar+1}".  The
    pattern the backend answers with becomes the selected pattern; if the
    backend refuses, the page state stays as it was. *)
Theorem handleCellClick_creates_default_pattern
    (w : World B) (track : Track.t) (bar : Z) detail :
  projectDetail (ui w) = Some detail ->
  find (startsAtCell (Track.id track) bar) (ManualProjectDetail.patterns detail) = None ->
  let asked :=
    {| PatternCreate.name := "Pattern " ++ Js.num_to_string (bar + 1);
       PatternCreate.length_bars := 2;
       PatternCreate.start_bar := bar |} in
  let w' := snd (handleCellClick track bar w) in
  (exists rest,
      requests w' = (requests w ++ ReqCreatePattern (Track.id track) asked :: rest)%list
      /\ forallb (fun r => negb (isCreatePattern r)) rest = true)
  /\ match createPattern (Track.id track) asked (backend w) with
     | (inr newPattern, _) => selectedPattern (ui w') = Some newPattern
     | (inl _, _) => ui w' = ui w
     end.
Proof.
  intros Hd Hf asked w'.
  pose proof (handleCellClick_create_branch w track bar detail Hd Hf) as H.
  change (newPatternRequest bar) with asked in H. fold w' in H.
  destruct (createPattern (Track.id track) asked (backend w)) as [[msg|p] b'].
  - destruct H as (Hr & Hu & _). split; [|exact Hu].
    exists []. now rewrite Hr.
  - destruct H as (Hr & Hs & _). split; [|exact Hs].
    exists [ReqGetProjectDetail (projectIdArgument (ui w))]. now rewrite Hr.
Qed.

(** Where every loaded pattern has a positive length, a cell no pattern
    covers is a cell at which no pattern starts. *)
Lemma uncovered_cell_has_no_start (st : State) detail trackId bar :
  projectDetail st = Some detail ->
  Forall (fun p => 0 < Pattern.length_bars p) (ManualProjectDetail.patterns detail) ->
  getPatternAtCell st trackId bar = None ->
  find (startsAtCell trackId bar) (ManualProjectDetail.patterns detail) = None.
Proof.
  intros Hd Hpos Hg. unfold getPatternAtCell in Hg. rewrite Hd in Hg.
  destruct (find (startsAtCell trackId bar) _) as [p|] eqn:Hf; [|reflexivity].
  apply find_some in Hf as [Hin Hs]. apply startsAtCell_spec in Hs as [Ht Hb].
  pose proof (find_none _ _ Hg p Hin) as Hc.
  rewrite Forall_forall in Hpos. specialize (Hpos p Hin).
  assert (coversCell trackId bar p = true)
    by (apply coversCell_spec; unfold in_range; split; [exact Ht | lia]).
  congruence.
Qed.

(** A click inside a pattern but not on its first bar does not select
    that pattern: the handler asks the backend for a new one. *)
Lemma handleCellClick_inside_pattern (w : World B) (track : Track.t) (bar : Z)
    detail p :
  projectDetail (ui w) = Some detail ->
  getPatternAtCell (ui w) (Track.id track) bar = Some p ->
  find (startsAtCell (Track.id track) bar) (ManualProjectDetail.patterns detail) = None ->
  let w' := snd (handleCellClick track bar w) in
  exists rest,
    requests w' =
      (requests w ++ ReqCreatePattern (Track.id track) (newPatternRequest bar) :: rest)%list.
Proof.
  intros Hd _ Hf w'.
  pose proof (handleCellClick_create_branch w track bar detail Hd Hf) as H.
  fold w' in H.
  destruct (createPattern _ _ (backend w)) as [[msg|q] b'];
    destruct H as (Hr & _); rewrite Hr; eexists; reflexivity.
Qed.

End GridClick.

(** ** Sessions on the Timeline Store *)

Section Sessions.

Lemma api_createPattern_store i pc s :
  snd (createPattern i pc s)
  = snd (TimelineStore.addPattern i (PatternCreate.name pc)
           (PatternCreate.length_bars pc) (PatternCreate.start_bar pc) s).
Proof.
  simpl. now destruct (TimelineStore.addPattern _ _ _ _ s).
Qed.

Lemma api_replacePatternNotes_store i ns s :
  snd (replacePatternNotes i ns s) = snd (TimelineStore.replaceNotes i ns s).
Proof.
  simpl. now destruct (TimelineStore.replaceNotes i ns s).
Qed.

Lemma api_createPattern_ok i pc s : store_ok s -> store_ok (snd (createPattern i pc s)).
Proof.
  intros H. rewrite api_createPattern_store. now apply addPattern_non_overlapping.
Qed.

Lemma api_replacePatternNotes_ok i ns s :
  store_ok s -> store_ok (snd (replacePatternNotes i ns s)).
Proof.
  intros H. rewrite api_replacePatternNotes_store.
  unfold store_ok. now rewrite replaceNotes_patterns.
Qed.

Lemma step_store_ok (w : Session.W) (e : Session.Event) :
  store_ok (backend w) -> store_ok (backend (Session.step w e)).
Proof.
  intros H.
  assert (G : forall i (b : TimelineStore.t), store_ok b -> store_ok (snd (getProjectDetail i b)))
    by (intros; assumption).
  assert (N : forall i (b : TimelineStore.t), store_ok b -> store_ok (snd (getPatternNotes i b)))
    by (intros; assumption).
  destruct e; simpl; unfold Session.after.
  - now apply apply_op_non_overlapping.
  - exact H.
  - apply (preserves_effectSelectedProjectId store_ok G); exact H.
  - apply (preserves_effectSelectedPattern store_ok N); exact H.
  - apply (preserves_handleCellClick store_ok G api_createPattern_ok); exact H.
  - apply (preserves_toggleNote store_ok); exact H.
  - apply (preserves_handleSaveNotes store_ok N api_replacePatternNotes_ok); exact H.
Qed.

Lemma run_from_store_ok (events : list Session.Event) (w : Session.W) :
  store_ok (backend w) -> store_ok (backend (fold_left Session.step events w)).
Proof.
  revert w. induction events as [|e events IH]; simpl; intros w H; [exact H|].
  apply IH. now apply step_store_ok.
Qed.

(** C2.  After any sequence of events, whether direct calls of the
    store's mutating operations (successful or refused), clicks on grid
    cells, note toggles, saves or reloads, two different patterns of the
    store on the same track have no bar in common, and every bar of every
    track is covered by at most one pattern. *)
Theorem patterns_never_overlap (events : list Session.Event) :
  let ps := TimelineStore.patterns (backend (Session.run events)) in
  (forall p1 p2,
      In p1 ps -> In p2 ps -> p1 <> p2 ->
      Pattern.track_id p1 = Pattern.track_id p2 ->
      forall b,
        ~ (Pattern.start_bar p1 <= b < Pattern.start_bar p1 + Pattern.length_bars p1
           /\ Pattern.start_bar p2 <= b < Pattern.start_bar p2 + Pattern.length_bars p2))
  /\ (forall trackId bar,
        (List.length (filter (coversCell trackId bar) ps) <= 1)%nat).
Proof.
  intros ps.
  assert (H : non_overlapping ps)
    by (apply run_from_store_ok; exact non_overlapping_nil).
  split; [|exact H].
  intros p1 p2 H1 H2 Hne Ht b. exact (non_overlapping_pairwise ps p1 p2 H H1 H2 Hne Ht b).
Qed.

(** C1, at the input where the page departs from it.  Patterns
    "Pattern 3" on bars [[2,4)] and "Pattern 7" on bars [[6,8)] exist on the
    track and "Pattern 7" is selected.  Bar 3 is covered by "Pattern 3",
    as [getPatternAtCell] says, yet the click on bar 3 asks the store for
    a new pattern starting at bar 3; the store refuses it, an error is
    logged, and "Pattern 7" stays selected. *)
Theorem click_inside_pattern_asks_for_new_pattern :
  let before :=
    Session.run (Example.setup ++ [Session.CellClick Example.track 2;
                                   Session.CellClick Example.track 6]) in
  let after := Session.step before (Session.CellClick Example.track 3) in
  getPatternAtCell (ui before) (Track.id Example.track) 3 = Some Example.pattern3
  /\ selectedPattern (ui before) = Some Example.pattern7
  /\ requests after =
       (requests before
          ++ [ReqCreatePattern (Track.id Example.track)
                {| PatternCreate.name := "Pattern 4";
                   PatternCreate.length_bars := 2;
                   PatternCreate.start_bar := 3 |}])%list
  /\ selectedPattern (ui after) = Some Example.pattern7
  /\ console after = ["Failed to create pattern:"]
  /\ TimelineStore.patterns (backend after) = [Example.pattern3; Example.pattern7].
Proof.
  vm_compute. repeat split; reflexivity.
Qed.

End Sessions.

(** ** Toggling a cell of the note grid *)

Section Toggle.

Context {B : Type} `{Api : ManualApi B}.

Lemma withNoteGrid_same (w : World B) : withNoteGrid w (noteGrid (ui w)) = w.
Proof. now destruct w as [[] ? ? ?]. Qed.

Lemma toggleNote_present (w : World B) s p :
  Js.has (noteGrid (ui w)) (note_key s p) = true ->
  toggleNote s p w
  = (Js.Returned tt, withNoteGrid w (Js.delete (noteGrid (ui w)) (note_key s p))).
Proof.
  intros H. unfold toggleNote. rewrite bind_get_ui. simpl. now rewrite H.
Qed.

Lemma toggleNote_absent (w : World B) s p pattern :
  Js.has (noteGrid (ui w)) (note_key s p) = false ->
  selectedPattern (ui w) = Some pattern ->
  toggleNote s p w
  = (Js.Returned tt,
     withNoteGrid w (Js.set (noteGrid (ui w)) (note_key s p)
                       (tempNote (Pattern.id pattern) s p))).
Proof.
  intros H Hs. unfold toggleNote. rewrite bind_get_ui. simpl. now rewrite H, Hs.
Qed.

Lemma toggleNote_unselected (w : World B) s p :
  Js.has (noteGrid (ui w)) (note_key s p) = false ->
  selectedPattern (ui w) = None ->
  snd (toggleNote s p w) = w.
Proof.
  intros H Hs. unfold toggleNote. rewrite bind_get_ui. simpl. now rewrite H, Hs.
Qed.

Lemma has_set_same {V} (m : Js.Map V) k v : Js.has (Js.set m k v) k = true.
Proof. apply has_get. rewrite get_set_same. discriminate. Qed.

(** C5.  On a grid that has no entry under the key of (step, pitch), two
    toggles of that cell give back the grid, entry for entry and in the
    same order; nothing else of the page state changes either. *)
Theorem toggleNote_twice_restores (w : World B) (stepIndex pitch : Z) :
  Js.has (noteGrid (ui w)) (note_key stepIndex pitch) = false ->
  noteGrid (ui (snd (toggleNote stepIndex pitch (snd (toggleNote stepIndex pitch w)))))
  = noteGrid (ui w)
  /\ snd (toggleNote stepIndex pitch (snd (toggleNote stepIndex pitch w))) = w.
Proof.
  intros H.
  assert (E : snd (toggleNote stepIndex pitch (snd (toggleNote stepIndex pitch w))) = w).
  { destruct (selectedPattern (ui w)) as [pattern|] eqn:Hs.
    - rewrite (toggleNote_absent w _ _ pattern H Hs). simpl.
      rewrite toggleNote_present by (simpl; apply has_set_same).
      simpl. unfold withNoteGrid. simpl.
      rewrite delete_set_absent by exact H.
      now destruct w as [[] ? ? ?].
    - now rewrite !(toggleNote_unselected w _ _ H Hs). }
  split; [now rewrite E | exact E].
Qed.

(** C6.  A toggle of (step, pitch) leaves every other key of the grid
    with the note it had, in particular the key of every other cell;
    the backend is as it was and no request has been sent. *)
Theorem toggleNote_frame (w : World B) (stepIndex pitch : Z) :
  let w' := snd (toggleNote stepIndex pitch w) in
  (forall k, k <> note_key stepIndex pitch ->
             Js.get (noteGrid (ui w')) k = Js.get (noteGrid (ui w)) k)
  /\ (forall s' p', (s', p') <> (stepIndex, pitch) ->
        Js.get (noteGrid (ui w')) (note_key s' p')
        = Js.get (noteGrid (ui w)) (note_key s' p'))
  /\ backend w' = backend w
  /\ requests w' = requests w.
Proof.
  intros w'.
  assert (F : (forall k, k <> note_key stepIndex pitch ->
                 Js.get (noteGrid (ui w')) k = Js.get (noteGrid (ui w)) k)
              /\ backend w' = backend w /\ requests w' = requests w).
  { subst w'. destruct (Js.has (noteGrid (ui w)) (note_key stepIndex pitch)) eqn:H.
    - rewrite (toggleNote_present w _ _ H). simpl.
      repeat split. intros k Hk. now apply get_delete_other.
    - destruct (selectedPattern (ui w)) as [pattern|] eqn:Hs.
      + rewrite (toggleNote_absent w _ _ pattern H Hs). simpl.
        repeat split. intros k Hk. now apply get_set_other.
      + rewrite (toggleNote_unselected w _ _ H Hs). repeat split. }
  destruct F as (F1 & F2 & F3). repeat split; try assumption.
  intros s' p' Hne. apply F1. now apply note_key_neq.
Qed.

(** C9.  An entry of the grid after a toggle of (step, pitch) is an entry
    the grid had before, or it is the note the toggle put in: under the
    key of the cell, with identity "temp", velocity 100 and the toggled
    step and pitch.  And when the cell was free and a pattern is selected,
    the toggle does put that note in.  [toggleNote] takes a step and a
    pitch and nothing else. *)
Theorem toggleNote_inserts_temp_note (w : World B) (stepIndex pitch : Z) :
  let g := noteGrid (ui w) in
  let g' := noteGrid (ui (snd (toggleNote stepIndex pitch w))) in
  (forall k n,
      Js.get g' k = Some n ->
      Js.get g k = Some n
      \/ (k = note_key stepIndex pitch
          /\ Js.get g k = None
          /\ Note.id n = "temp" /\ Note.velocity n = 100
          /\ Note.step_index n = stepIndex /\ Note.pitch n = pitch))
  /\ (forall pattern,
        Js.has g (note_key stepIndex pitch) = false ->
        selectedPattern (ui w) = Some pattern ->
        Js.get g' (note_key stepIndex pitch)
        = Some {| Note.id := "temp";
                  Note.pattern_id := Pattern.id pattern;
                  Note.step_index := stepIndex;
                  Note.pitch := pitch;
                  Note.velocity := 100 |}).
Proof.
  intros g g'. subst g g'. split.
  - intros k n. destruct (Js.has (noteGrid (ui w)) (note_key stepIndex pitch)) eqn:H.
    + rewrite (toggleNote_present w _ _ H). simpl. intros G. left.
      destruct (string_dec k (note_key stepIndex pitch)) as [->|Hk].
      * now rewrite get_delete_same in G.
      * now rewrite get_delete_other in G.
    + destruct (selectedPattern (ui w)) as [pattern|] eqn:Hs.
      * rewrite (toggleNote_absent w _ _ pattern H Hs). simpl. intros G.
        destruct (string_dec k (note_key stepIndex pitch)) as [->|Hk].
        -- rewrite get_set_same in G. inversion G; subst n. right.
           repeat split. now apply get_none_has.
        -- rewrite get_set_other in G by exact Hk. now left.
      * rewrite (toggleNote_unselected w _ _ H Hs). now left.
  - intros pattern H Hs. rewrite (toggleNote_absent w _ _ pattern H Hs). simpl.
    now rewrite get_set_same.
Qed.

End Toggle.

(** ** Loading the notes of a pattern into the grid *)

Section LoadNotes.

Context {B : Type} `{Api : ManualApi B}.

Lemma notesToGrid_fold notes : notesToGrid notes = fold_left addNote notes Js.empty.
Proof. reflexivity. Qed.

Lemma sameCell_spec s p n :
  sameCell s p n = true <-> Note.step_index n = s /\ Note.pitch n = p.
Proof. unfold sameCell. now rewrite andb_true_iff, !Z.eqb_eq. Qed.

Lemma sameCell_key s p n : sameCell s p n = true <-> key_of_note n = note_key s p.
Proof.
  rewrite sameCell_spec. unfold key_of_note. split.
  - now intros [-> ->].
  - apply note_key_inj.
Qed.

Lemma in_set_inv {V} (m : Js.Map V) k0 v0 k v :
  In (k, v) (Js.set m k0 v0) -> (k = k0 /\ v = v0) \/ In (k, v) m.
Proof.
  induction m as [|[k1 v1] m IH]; simpl.
  - intros [[= <- <-]|[]]. now left.
  - destruct (String.eqb k1 k0); simpl.
    + intros [[= <- <-]|H]; [now left | right; now right].
    + intros [H|H]; [right; now left|]. destruct (IH H); [now left | right; now right].
Qed.

Lemma keyed_empty : keyed Js.empty.
Proof. intros k n []. Qed.

Lemma keyed_addNote g n : keyed g -> keyed (addNote g n).
Proof.
  intros H k n' Hin. apply in_set_inv in Hin as [[-> ->]|Hin]; [reflexivity | now apply H].
Qed.

Lemma keyed_delete g k : keyed g -> keyed (Js.delete g k).
Proof.
  intros H k' n Hin. apply filter_In in Hin as [Hin _]. now apply H.
Qed.

Lemma fold_addNote_wf notes acc : Js.wf acc -> Js.wf (fold_left addNote notes acc).
Proof.
  revert acc. induction notes as [|n notes IH]; simpl; intros acc H; [exact H|].
  apply IH. now apply wf_set.
Qed.

Lemma fold_addNote_keyed notes acc : keyed acc -> keyed (fold_left addNote notes acc).
Proof.
  revert acc. induction notes as [|n notes IH]; simpl; intros acc H; [exact H|].
  apply IH. now apply keyed_addNote.
Qed.

Lemma find_app_split {A} (f : A -> bool) (l1 l2 : list A) :
  find f (l1 ++ l2) = match find f l1 with
                      | Some x => Some x
                      | None => find f l2
                      end.
Proof.
  induction l1 as [|a l1 IH]; simpl; [reflexivity|]. now destruct (f a).
Qed.

(** Under the key of a cell the grid holds the last note of that cell in
    the list, or what was there before when the list has none. *)
Lemma fold_addNote_get notes acc s p :
  Js.get (fold_left addNote notes acc) (note_key s p)
  = match find (sameCell s p) (rev notes) with
    | Some n => Some n
    | None => Js.get acc (note_key s p)
    end.
Proof.
  revert acc. induction notes as [|n notes IH]; simpl; intros acc; [reflexivity|].
  rewrite IH, find_app_split.
  destruct (find (sameCell s p) (rev notes)); [reflexivity|]. simpl.
  unfold addNote. destruct (sameCell s p n) eqn:E.
  - apply sameCell_key in E. rewrite E. apply get_set_same.
  - apply get_set_other. intros K. symmetry in K. apply sameCell_key in K. congruence.
Qed.

Lemma fold_addNote_values notes acc n :
  In n (Js.values (fold_left addNote notes acc)) -> In n (Js.values acc) \/ In n notes.
Proof.
  revert acc. induction notes as [|n0 notes IH]; simpl; intros acc H; [now left|].
  apply IH in H as [H|H]; [|right; now right].
  unfold Js.values in H. apply in_map_iff in H as [[k v] [Hv Hin]]. simpl in Hv. subst v.
  apply in_set_inv in Hin as [[_ ->]|Hin]; [right; now left|].
  left. apply in_map_iff. now exists (k, n).
Qed.

(** In a well-formed, keyed grid a cell holds at most one note. *)
Lemma one_note_per_cell (g : Js.Map Note.t) s p :
  Js.wf g -> keyed g ->
  (List.length (filter (sameCell s p) (Js.values g)) <= 1)%nat.
Proof.
  unfold Js.wf, Js.keys, Js.values.
  induction g as [|[k n] g IH]; simpl; intros Hwf Hk; [lia|].
  inversion Hwf as [|? ? Hn Hnd]; subst.
  assert (Hk' : keyed g) by (intros k' n' Hin; apply Hk; now right).
  specialize (IH Hnd Hk').
  destruct (sameCell s p n) eqn:E; [|exact IH]. simpl.
  assert (Hnil : filter (sameCell s p) (map snd g) = []).
  { apply filter_nil_of_find_none. intros n' Hin'.
    destruct (sameCell s p n') eqn:E'; [|reflexivity]. exfalso. apply Hn.
    apply in_map_iff in Hin' as [[k' v'] [Hv Hin']]. simpl in Hv. subst v'.
    apply in_map_iff. exists (k', n'). split; [|exact Hin']. simpl.
    rewrite (Hk' k' n' Hin'), (Hk k n (or_introl eq_refl)).
    apply sameCell_key in E, E'. congruence. }
  rewrite Hnil. simpl. lia.
Qed.

Lemma loadPatternNotes_resolved (w : World B) patternId notes b' :
  getPatternNotes patternId (backend w) = (inr notes, b') ->
  loadPatternNotes patternId w
  = (Js.Returned tt,
     mkWorld
       (mkState (selectedProjectId (ui w)) (projectDetail (ui w))
          (selectedPattern (ui w)) (notesToGrid notes) (isLoading (ui w)))
       b' (requests w ++ [ReqGetPatternNotes patternId]) (console w)).
Proof.
  intros H. unfold loadPatternNotes, try_catch. rewrite bind_call, H. reflexivity.
Qed.

Lemma loadPatternNotes_rejected (w : World B) patternId msg b' :
  getPatternNotes patternId (backend w) = (inl msg, b') ->
  loadPatternNotes patternId w
  = (Js.Returned tt,
     mkWorld (ui w) b' (requests w ++ [ReqGetPatternNotes patternId])
       (console w ++ ["Failed to load notes:"])).
Proof.
  intros H. unfold loadPatternNotes, try_catch. rewrite bind_call, H. reflexivity.
Qed.

(** C10.  When the notes of the pattern have been fetched, the grid
    [loadPatternNotes] builds holds at most one note per cell: no key
    occurs twice, every note is filed under the key "{step_index}-{pitch}"
    of its own cell, a cell has at most one note, and under the key of a
    cell the grid has the last note of that cell in the fetched list; a
    note is in the grid exactly when it is the last note of its cell. *)
Theorem loadPatternNotes_last_note_per_cell
    (w : World B) (patternId : string) (notes : list Note.t) (b' : B) :
  getPatternNotes patternId (backend w) = (inr notes, b') ->
  let g := noteGrid (ui (snd (loadPatternNotes patternId w))) in
  NoDup (Js.keys g)
  /\ (forall k n, In (k, n) g ->
        k = Js.num_to_string (Note.step_index n) ++ "-" ++ Js.num_to_string (Note.pitch n))
  /\ (forall s p, (List.length (filter (sameCell s p) (Js.values g)) <= 1)%nat)
  /\ (forall s p, Js.get g (note_key s p) = find (sameCell s p) (rev notes))
  /\ (forall n, In n (Js.values g)
                <-> find (sameCell (Note.step_index n) (Note.pitch n)) (rev notes) = Some n).
Proof.
  intros H g. subst g. rewrite (loadPatternNotes_resolved w _ _ _ H). simpl.
  rewrite notesToGrid_fold.
  assert (Hwf : Js.wf (fold_left addNote notes Js.empty))
    by (apply fold_addNote_wf, wf_empty).
  assert (Hk : keyed (fold_left addNote notes Js.empty))
    by (apply fold_addNote_keyed, keyed_empty).
  assert (Hg : forall s p, Js.get (fold_left addNote notes Js.empty) (note_key s p)
                           = find (sameCell s p) (rev notes)).
  { intros s p. rewrite fold_addNote_get. simpl. now destruct (find _ _). }
  repeat split.
  - exact Hwf.
  - exact Hk.
  - intros s p. now apply one_note_per_cell.
  - exact Hg.
  - intros Hin. apply in_map_iff in Hin as [[k v] [Hv Hin]]. simpl in Hv. subst v.
    rewrite <- Hg. pose proof (Hk k n Hin) as Ek. unfold key_of_note in Ek. subst k.
    now apply wf_in_get.
  - intros Hf. rewrite <- Hg in Hf. apply get_in in Hf.
    apply in_map_iff. now exists (note_key (Note.step_index n) (Note.pitch n), n).
Qed.

End LoadNotes.

(** ** Saving the grid and loading it back *)

Section SaveNotes.

Lemma keyed_keys (g : Js.Map Note.t) :
  keyed g -> Js.keys g = map key_of_note (Js.values g).
Proof.
  unfold Js.keys, Js.values. induction g as [|[k n] g IH]; simpl; intros H; [reflexivity|].
  rewrite (H k n (or_introl eq_refl)). f_equal. apply IH.
  intros k' n' Hin. apply H. now right.
Qed.

(** Notes of pairwise different cells are appended one by one. *)
Lemma fold_addNote_distinct notes acc :
  NoDup (Js.keys acc ++ map key_of_note notes) ->
  fold_left addNote notes acc = (acc ++ map entry_of_note notes)%list.
Proof.
  revert acc. induction notes as [|n notes IH]; simpl; intros acc H.
  - now rewrite app_nil_r.
  - assert (Ha : Js.has acc (key_of_note n) = false).
    { apply has_false_not_in. intros Hin.
      apply NoDup_remove_2 in H. apply H. apply in_or_app. now left. }
    unfold addNote at 2. rewrite set_absent by exact Ha.
    rewrite IH.
    + now rewrite <- app_assoc.
    + unfold Js.keys in *. rewrite map_app, <- app_assoc. simpl. exact H.
Qed.

Lemma values_entries notes : Js.values (map entry_of_note notes) = notes.
Proof.
  unfold Js.values. rewrite map_map. simpl. apply map_id.
Qed.

Lemma insert_notes_triples pid n es :
  map triple_of_note (TimelineStore.insert_notes pid n es) = map triple_of_create es.
Proof.
  revert n. induction es as [|e es IH]; simpl; intros n; [reflexivity|].
  now rewrite IH.
Qed.

Lemma insert_notes_keys pid n es :
  map key_of_note (TimelineStore.insert_notes pid n es)
  = map (fun e => note_key (NoteCreate.step_index e) (NoteCreate.pitch e)) es.
Proof.
  revert n. induction es as [|e es IH]; simpl; intros n; [reflexivity|].
  now rewrite IH.
Qed.

Lemma insert_notes_owner pid n es :
  filter (fun x => String.eqb (Note.pattern_id x) pid) (TimelineStore.insert_notes pid n es)
  = TimelineStore.insert_notes pid n es.
Proof.
  revert n. induction es as [|e es IH]; simpl; intros n; [reflexivity|].
  now rewrite String.eqb_refl, IH.
Qed.

Lemma filter_negb_filter {A} (f : A -> bool) (l : list A) :
  filter f (filter (fun x => negb (f x)) l) = [].
Proof.
  induction l as [|a l IH]; simpl; [reflexivity|].
  destruct (f a) eqn:E; simpl; [exact IH | now rewrite E].
Qed.

(** What an accepted [replaceNotes] leaves. *)
Lemma replaceNotes_accepted pid es (s : TimelineStore.t) :
  forallb TimelineStore.entry_ok es = true ->
  TimelineStore.find_pattern s pid <> None ->
  exists s',
    TimelineStore.replaceNotes pid es s
    = (inr (TimelineStore.insert_notes pid (TimelineStore.next_id s) es), s')
    /\ TimelineStore.notes_of s' pid
       = TimelineStore.insert_notes pid (TimelineStore.next_id s) es
    /\ TimelineStore.patterns s' = TimelineStore.patterns s
    /\ TimelineStore.tracks s' = TimelineStore.tracks s.
Proof.
  intros Hok Hp. unfold TimelineStore.replaceNotes. rewrite Hok. simpl.
  destruct (TimelineStore.find_pattern s pid) as [p|]; [|congruence].
  eexists. split; [reflexivity|]. simpl. repeat split.
  unfold TimelineStore.notes_of. simpl.
  rewrite filter_app, filter_negb_filter, insert_notes_owner. reflexivity.
Qed.

Lemma getNotes_found pid (s : TimelineStore.t) :
  TimelineStore.find_pattern s pid <> None ->
  TimelineStore.getNotes pid s = inr (TimelineStore.notes_of s pid).
Proof.
  intros H. unfold TimelineStore.getNotes.
  now destruct (TimelineStore.find_pattern s pid).
Qed.

Lemma find_pattern_same_patterns pid (s s' : TimelineStore.t) :
  TimelineStore.patterns s' = TimelineStore.patterns s ->
  TimelineStore.find_pattern s' pid = TimelineStore.find_pattern s pid.
Proof. unfold TimelineStore.find_pattern. now intros ->. Qed.

Lemma entries_ok_of_grid pid (ns : list Note.t) :
  Forall note_in_range ns ->
  forallb TimelineStore.entry_ok (map (noteCreateOf pid) ns) = true.
Proof.
  induction 1 as [|n ns [Hs Hv] _ IH]; simpl; [reflexivity|].
  rewrite IH, andb_true_r. unfold TimelineStore.entry_ok, noteCreateOf. simpl.
  unfold NUM_STEPS, TimelineStore.STEPS_PER_PATTERN in *.
  rewrite !andb_true_iff, !Z.leb_le, Z.ltb_lt. lia.
Qed.

Lemma handleSaveNotes_saved (w : Session.W) (pattern : Pattern.t) :
  selectedPattern (ui w) = Some pattern ->
  TimelineStore.find_pattern (backend w) (Pattern.id pattern) <> None ->
  Js.wf (noteGrid (ui w)) ->
  keyed (noteGrid (ui w)) ->
  Forall note_in_range (Js.values (noteGrid (ui w))) ->
  let created :=
    TimelineStore.insert_notes (Pattern.id pattern)
      (TimelineStore.next_id (backend w))
      (map (noteCreateOf (Pattern.id pattern)) (Js.values (noteGrid (ui w)))) in
  let w' := Session.after handleSaveNotes w in
  noteGrid (ui w') = map entry_of_note created
  /\ TimelineStore.notes_of (backend w') (Pattern.id pattern) = created
  /\ TimelineStore.patterns (backend w') = TimelineStore.patterns (backend w)
  /\ selectedPattern (ui w') = Some pattern
  /\ console w' = console w.
Proof.
  intros Hs Hp Hwf Hk Hv created w'. subst w'.
  unfold Session.after, handleSaveNotes. rewrite bind_get_ui, Hs.
  unfold try_catch. rewrite bind_call.
  set (es := map (noteCreateOf (Pattern.id pattern)) (Js.values (noteGrid (ui w)))) in *.
  destruct (replaceNotes_accepted (Pattern.id pattern) es (backend w)
              (entries_ok_of_grid _ _ Hv) Hp) as (s' & Hr & Hn & Hps & _).
  simpl replacePatternNotes. rewrite Hr. simpl.
  assert (Hp' : TimelineStore.find_pattern s' (Pattern.id pattern) <> None)
    by (now rewrite (find_pattern_same_patterns _ _ _ Hps)).
  erewrite loadPatternNotes_resolved
    by (simpl; rewrite (getNotes_found _ _ Hp'); reflexivity).
  simpl. rewrite Hn. fold created. repeat split; try assumption.
  rewrite notesToGrid_fold, fold_addNote_distinct; [reflexivity|].
  simpl. unfold created. rewrite insert_notes_keys. unfold es. rewrite map_map. simpl.
  change (map (fun x : Note.t => note_key (Note.step_index x) (Note.pitch x)))
    with (map key_of_note).
  rewrite <- keyed_keys by exact Hk. exact Hwf.
Qed.

(** C7.  Round trip.  For a selected pattern that the store knows and a
    working grid (no key twice, every note under the key of its cell,
    steps and velocities in range), saving the grid and loading the
    pattern's notes back gives a grid with exactly the (step_index, pitch,
    velocity) triples of the saved grid, in the same order; the store
    holds exactly these triples for the pattern, and loading once more
    gives them again. *)
Theorem save_then_load_round_trip (w : Session.W) (pattern : Pattern.t) :
  selectedPattern (ui w) = Some pattern ->
  TimelineStore.find_pattern (backend w) (Pattern.id pattern) <> None ->
  Js.wf (noteGrid (ui w)) ->
  keyed (noteGrid (ui w)) ->
  Forall note_in_range (Js.values (noteGrid (ui w))) ->
  let saved := map triple_of_note (Js.values (noteGrid (ui w))) in
  let w' := Session.after handleSaveNotes w in
  let w'' := Session.after (loadPatternNotes (Pattern.id pattern)) w' in
  map triple_of_note (Js.values (noteGrid (ui w'))) = saved
  /\ TimelineStore.getNotes (Pattern.id pattern) (backend w')
     = inr (TimelineStore.notes_of (backend w') (Pattern.id pattern))
  /\ map triple_of_note (TimelineStore.notes_of (backend w') (Pattern.id pattern)) = saved
  /\ map triple_of_note (Js.values (noteGrid (ui w''))) = saved
  /\ (forall t, In t (map triple_of_note (Js.values (noteGrid (ui w'')))) <-> In t saved).
Proof.
  intros Hs Hp Hwf Hk Hv saved w' w''.
  destruct (handleSaveNotes_saved w pattern Hs Hp Hwf Hk Hv) as (Hg & Hn & Hps & _ & _).
  fold w' in Hg, Hn, Hps.
  set (created := TimelineStore.insert_notes (Pattern.id pattern)
                    (TimelineStore.next_id (backend w))
                    (map (noteCreateOf (Pattern.id pattern))
                       (Js.values (noteGrid (ui w))))) in *.
  assert (Ht : map triple_of_note created = saved).
  { unfold created, saved. rewrite insert_notes_triples, map_map. reflexivity. }
  assert (Hp' : TimelineStore.find_pattern (backend w') (Pattern.id pattern) <> None)
    by (now rewrite (find_pattern_same_patterns _ _ _ Hps)).
  assert (Hg'' : noteGrid (ui w'') = noteGrid (ui w')).
  { subst w''. unfold Session.after.
    erewrite loadPatternNotes_resolved
      by (simpl; rewrite (getNotes_found _ _ Hp'); reflexivity).
    simpl. rewrite Hn, Hg.
    rewrite notesToGrid_fold, fold_addNote_distinct; [reflexivity|].
    simpl. unfold created. rewrite insert_notes_keys, map_map. simpl.
    change (map (fun x : Note.t => note_key (Note.step_index x) (Note.pitch x)))
      with (map key_of_note).
    rewrite <- keyed_keys by exact Hk. exact Hwf. }
  assert (E : map triple_of_note (Js.values (noteGrid (ui w'))) = saved)
    by (now rewrite Hg, values_entries).
  repeat split.
  - exact E.
  - now apply getNotes_found.
  - now rewrite Hn.
  - now rewrite Hg''.
  - now rewrite Hg'', E.
  - now rewrite Hg'', E.
Qed.

End SaveNotes.

(** ** Validation of a bulk replace *)

Section Validation.

Lemma entry_ok_false (e : NoteCreate.t) :
  entry_out_of_range e <-> TimelineStore.entry_ok e = false.
Proof.
  unfold entry_out_of_range, TimelineStore.entry_ok.
  rewrite !andb_false_iff, !Z.leb_gt, Z.ltb_ge. tauto.
Qed.

Lemma forallb_false_of_member {A} (f : A -> bool) (l : list A) (x : A) :
  In x l -> f x = false -> forallb f l = false.
Proof.
  intros Hin Hx. destruct (forallb f l) eqn:E; [|reflexivity].
  rewrite forallb_forall in E. rewrite (E x Hin) in Hx. discriminate.
Qed.

(** A save whose request the backend refuses leaves the page state as it
    was and logs the failure. *)
Lemma handleSaveNotes_refused {B : Type} `{Api : ManualApi B}
    (w : World B) (pattern : Pattern.t) msg b' :
  selectedPattern (ui w) = Some pattern ->
  replacePatternNotes (Pattern.id pattern)
    (map (noteCreateOf (Pattern.id pattern)) (Js.values (noteGrid (ui w))))
    (backend w) = (inl msg, b') ->
  let w' := snd (handleSaveNotes w) in
  ui w' = ui w /\ backend w' = b'
  /\ console w' = (console w ++ ["Failed to save notes:"])%list.
Proof.
  intros Hs Hr w'. subst w'. unfold handleSaveNotes.
  rewrite bind_get_ui, Hs. unfold try_catch. rewrite bind_call, Hr.
  repeat split; reflexivity.
Qed.

(** C8.  When some supplied entry has its step index outside
    [[0, STEPS_PER_PATTERN)] or its velocity outside [[0, 127]],
    [replaceNotes] fails with [ValidationError] and the store is exactly
    as before, so the notes stored for the pattern (and for every other
    pattern) are unchanged; the request of the page,
    [replacePatternNotes], is refused with the same store left behind. *)
Theorem replaceNotes_all_or_nothing
    (patternId : string) (noteList : list NoteCreate.t) (s : TimelineStore.t)
    (e : NoteCreate.t) :
  In e noteList ->
  NoteCreate.step_index e < 0
  \/ TimelineStore.STEPS_PER_PATTERN <= NoteCreate.step_index e
  \/ NoteCreate.velocity e < 0
  \/ 127 < NoteCreate.velocity e ->
  TimelineStore.replaceNotes patternId noteList s = (inl TimelineStore.ValidationError, s)
  /\ (forall anyPattern,
        TimelineStore.getNotes anyPattern
          (snd (TimelineStore.replaceNotes patternId noteList s))
        = TimelineStore.getNotes anyPattern s)
  /\ replacePatternNotes patternId noteList s = (inl "ValidationError", s).
Proof.
  intros Hin Hbad.
  assert (Hf : forallb TimelineStore.entry_ok noteList = false)
    by (apply forallb_false_of_member with e; [exact Hin | now apply entry_ok_false]).
  assert (E : TimelineStore.replaceNotes patternId noteList s
              = (inl TimelineStore.ValidationError, s))
    by (unfold TimelineStore.replaceNotes; now rewrite Hf).
  repeat split.
  - exact E.
  - intros anyPattern. now rewrite E.
  - simpl. now rewrite E.
Qed.

End Validation.

(** ** The grid click on the Timeline Store *)

Section GridClickOnStore.

(** The store takes the request when the track exists and the two bars
    from the clicked one are free: the new pattern is the last of the
    store's patterns and the selected one. *)
Lemma handleCellClick_store_creates
    (w : Session.W) (track tr : Track.t) (bar : Z) detail :
  projectDetail (ui w) = Some detail ->
  find (startsAtCell (Track.id track) bar) (ManualProjectDetail.patterns detail) = None ->
  TimelineStore.find_track (backend w) (Track.id track) = Some tr ->
  find (TimelineStore.collides (Track.id track) bar 2)
       (TimelineStore.patterns (backend w)) = None ->
  let created :=
    Pattern.mk (TimelineStore.fresh_id (TimelineStore.next_id (backend w)))
      (Track.id track) ("Pattern " ++ Js.num_to_string (bar + 1)) 2 bar in
  let w' := Session.after (handleCellClick track bar) w in
  TimelineStore.patterns (backend w')
    = (TimelineStore.patterns (backend w) ++ [created])%list
  /\ selectedPattern (ui w') = Some created.
Proof.
  intros Hd Hf Ht Hc created w'.
  pose proof (handleCellClick_create_branch w track bar detail Hd Hf) as H.
  simpl createPattern in H. unfold TimelineStore.addPattern in H. simpl in H.
  rewrite Ht, Hc in H. simpl in H. destruct H as (_ & Hs & Hb & _).
  split; [|exact Hs]. unfold w', Session.after. now rewrite Hb.
Qed.

(** The store refuses the request when one of the two bars is taken:
    nothing is created, the selection stays and the failure is logged. *)
Lemma handleCellClick_store_refuses
    (w : Session.W) (track tr : Track.t) (bar : Z) detail q :
  projectDetail (ui w) = Some detail ->
  find (startsAtCell (Track.id track) bar) (ManualProjectDetail.patterns detail) = None ->
  TimelineStore.find_track (backend w) (Track.id track) = Some tr ->
  find (TimelineStore.collides (Track.id track) bar 2)
       (TimelineStore.patterns (backend w)) = Some q ->
  let w' := Session.after (handleCellClick track bar) w in
  backend w' = backend w /\ ui w' = ui w
  /\ console w' = (console w ++ ["Failed to create pattern:"])%list.
Proof.
  intros Hd Hf Ht Hc w'.
  pose proof (handleCellClick_create_branch w track bar detail Hd Hf) as H.
  simpl createPattern in H. unfold TimelineStore.addPattern in H. simpl in H.
  rewrite Ht, Hc in H. simpl in H. destruct H as (_ & Hu & Hb & Hl).
  repeat split; assumption.
Qed.

(** The scenario of the specification on the modelled store: clicks on
    bars 2, 2, 3 and 4 of the drum track.  The first creates "Pattern 3",
    the second selects it without a request, the third sends a request
    for "Pattern 4" that the store refuses, the fourth creates
    "Pattern 5". *)
Example clicks_on_bars_2_2_3_4 :
  let clicks bars :=
    fold_left Session.step
      (map (fun b => Session.CellClick Example.track b) bars) (Session.run Example.setup) in
  selectedPattern (ui (clicks [2])) = Some Example.pattern3
  /\ selectedPattern (ui (clicks [2; 2])) = Some Example.pattern3
  /\ requests (clicks [2; 2]) = requests (clicks [2])
  /\ requests (clicks [2; 2; 3])
     = (requests (clicks [2; 2])
          ++ [ReqCreatePattern "id-1" (PatternCreate.mk "Pattern 4" 2 3)])%list
  /\ TimelineStore.patterns (backend (clicks [2; 2; 3])) = [Example.pattern3]
  /\ console (clicks [2; 2; 3]) = ["Failed to create pattern:"]
  /\ TimelineStore.patterns (backend (clicks [2; 2; 3; 4]))
     = [Example.pattern3; Pattern.mk "id-3" "id-1" "Pattern 5" 2 4]
  /\ selectedPattern (ui (clicks [2; 2; 3; 4]))
     = Some (Pattern.mk "id-3" "id-1" "Pattern 5" 2 4).
Proof.
  vm_compute. repeat split; reflexivity.
Qed.

End GridClickOnStore.

(** ** Every grid of a session is a working grid *)

Section WorkingGrid.

Lemma Forall_filter_keep {A} (P : A -> Prop) (f : A -> bool) (l : list A) :
  Forall P l -> Forall P (filter f l).
Proof.
  rewrite !Forall_forall. intros H x Hx. apply filter_In in Hx as [Hx _]. now apply H.
Qed.

Lemma insert_notes_in_range pid n es :
  forallb TimelineStore.entry_ok es = true ->
  Forall note_in_range (TimelineStore.insert_notes pid n es).
Proof.
  revert n. induction es as [|e es IH]; simpl; intros n H; [constructor|].
  apply andb_true_iff in H as [He Hes]. constructor; [|now apply IH].
  unfold TimelineStore.entry_ok in He. unfold note_in_range. simpl.
  unfold NUM_STEPS, TimelineStore.STEPS_PER_PATTERN in *.
  rewrite !andb_true_iff, !Z.leb_le, Z.ltb_lt in He. lia.
Qed.

Lemma replaceNotes_notes_in_range pid es (s : TimelineStore.t) :
  Forall note_in_range (TimelineStore.notes s) ->
  Forall note_in_range (TimelineStore.notes (snd (TimelineStore.replaceNotes pid es s))).
Proof.
  intros H. unfold TimelineStore.replaceNotes.
  destruct (forallb TimelineStore.entry_ok es) eqn:Hok; simpl; [|exact H].
  destruct (TimelineStore.find_pattern s pid); simpl; [|exact H].
  apply Forall_app. split; [now apply Forall_filter_keep | now apply insert_notes_in_range].
Qed.

Lemma addPattern_notes i n l b (s : TimelineStore.t) :
  TimelineStore.notes (snd (TimelineStore.addPattern i n l b s)) = TimelineStore.notes s.
Proof.
  unfold TimelineStore.addPattern. destruct (TimelineStore.find_track s i); [|reflexivity].
  now destruct (find _ _).
Qed.

Lemma apply_op_notes_in_range o (s : TimelineStore.t) :
  Forall note_in_range (TimelineStore.notes s) ->
  Forall note_in_range (TimelineStore.notes (Session.apply_op o s)).
Proof.
  intros H. destruct o; simpl.
  - unfold TimelineStore.createProject. now destruct (_ || _).
  - unfold TimelineStore.deleteProject.
    destruct (TimelineStore.has_project s projectId); [|exact H].
    simpl. now apply Forall_filter_keep.
  - unfold TimelineStore.addTrack. now destruct (TimelineStore.has_project s projectId).
  - unfold TimelineStore.updateTrack. now destruct (TimelineStore.find_track s trackId).
  - unfold TimelineStore.deleteTrack.
    destruct (TimelineStore.find_track s trackId); [|exact H].
    simpl. now apply Forall_filter_keep.
  - now rewrite addPattern_notes.
  - unfold TimelineStore.updatePattern.
    destruct (TimelineStore.locate patternId _) as [[[pre p] post]|]; [|exact H].
    destruct (if TimelineStore.range_changed _ _ then _ else _); exact H.
  - unfold TimelineStore.deletePattern.
    destruct (TimelineStore.find_pattern s patternId); [|exact H].
    simpl. now apply Forall_filter_keep.
  - now apply replaceNotes_notes_in_range.
Qed.

Lemma loadPatternNotes_returns {B : Type} `{Api : ManualApi B} pid (w : World B) :
  fst (loadPatternNotes pid w) = Js.Returned tt.
Proof.
  destruct (getPatternNotes pid (backend w)) as [[msg|notes] b'] eqn:E.
  - now rewrite (loadPatternNotes_rejected w _ _ _ E).
  - now rewrite (loadPatternNotes_resolved w _ _ _ E).
Qed.

Lemma notesToGrid_working notes :
  Forall note_in_range notes ->
  Js.wf (notesToGrid notes) /\ keyed (notesToGrid notes)
  /\ Forall note_in_range (Js.values (notesToGrid notes)).
Proof.
  intros H. rewrite notesToGrid_fold. repeat split.
  - apply fold_addNote_wf, wf_empty.
  - apply fold_addNote_keyed, keyed_empty.
  - rewrite Forall_forall in *. intros n Hn.
    apply fold_addNote_values in Hn as [[]|Hn]. now apply H.
Qed.

Lemma working_loadPatternNotes pid (w : Session.W) :
  working w -> working (snd (loadPatternNotes pid w)).
Proof.
  intros (Hwf & Hk & Hv & Hs).
  destruct (getPatternNotes pid (backend w)) as [[msg|notes] b'] eqn:E.
  - rewrite (loadPatternNotes_rejected w _ _ _ E). simpl in E.
    inversion E; subst b'. repeat split; assumption.
  - rewrite (loadPatternNotes_resolved w _ _ _ E). simpl in E.
    inversion E as [[En Eb]]. subst b'. unfold working. simpl.
    assert (Hn : Forall note_in_range notes).
    { unfold TimelineStore.getNotes in En.
      destruct (TimelineStore.find_pattern (backend w) pid); [|discriminate].
      inversion En. now apply Forall_filter_keep. }
    destruct (notesToGrid_working notes Hn) as (W1 & W2 & W3).
    repeat split; assumption.
Qed.

Lemma working_loadProjectDetail i (w : Session.W) :
  working w -> working (snd (loadProjectDetail i w)).
Proof.
  intros (Hwf & Hk & Hv & Hs).
  destruct (loadProjectDetail_effect i w) as (_ & _ & Hb & _ & Hg & _).
  unfold working. rewrite Hg, Hb. simpl. repeat split; assumption.
Qed.

Lemma working_handleCellClick track bar (w : Session.W) :
  working w -> working (snd (handleCellClick track bar w)).
Proof.
  intros (Hwf & Hk & Hv & Hs).
  destruct (projectDetail (ui w)) as [detail|] eqn:Hd.
  - destruct (find (startsAtCell (Track.id track) bar)
                (ManualProjectDetail.patterns detail)) as [p|] eqn:Hf.
    + unfold handleCellClick. rewrite bind_get_ui, Hd, Hf. simpl.
      repeat split; assumption.
    + pose proof (handleCellClick_create_branch w track bar detail Hd Hf) as H.
      pose proof (api_createPattern_store (Track.id track) (newPatternRequest bar)
                    (backend w)) as Hb.
      destruct (createPattern (Track.id track) (newPatternRequest bar) (backend w))
        as [[msg|q] b']; simpl in Hb; subst b'.
      * destruct H as (_ & Hu & Hb' & _). unfold working. rewrite Hu, Hb'.
        rewrite addPattern_notes. repeat split; assumption.
      * destruct H as (_ & _ & Hb' & Hg). unfold working. rewrite Hg, Hb'. simpl.
        rewrite addPattern_notes. repeat split; assumption.
  - unfold handleCellClick. rewrite bind_get_ui, Hd. simpl. repeat split; assumption.
Qed.

Lemma working_toggleNote stepIndex pitch (w : Session.W) :
  0 <= stepIndex < NUM_STEPS ->
  working w -> working (snd (toggleNote stepIndex pitch w)).
Proof.
  intros Hstep (Hwf & Hk & Hv & Hs).
  destruct (Js.has (noteGrid (ui w)) (note_key stepIndex pitch)) eqn:H.
  - rewrite (toggleNote_present w _ _ H). unfold working. simpl.
    repeat split; try assumption.
    + now apply wf_delete.
    + now apply keyed_delete.
    + unfold Js.values, Js.delete in *. rewrite Forall_forall in *. intros n Hn.
      apply Hv. apply in_map_iff in Hn as [e [He Hn]].
      apply filter_In in Hn as [Hn _]. apply in_map_iff. now exists e.
  - destruct (selectedPattern (ui w)) as [pattern|] eqn:Hsel.
    + rewrite (toggleNote_absent w _ _ pattern H Hsel). unfold working. simpl.
      repeat split; try assumption.
      * now apply wf_set.
      * exact (keyed_addNote _ (tempNote (Pattern.id pattern) stepIndex pitch) Hk).
      * unfold Js.values in *. rewrite Forall_forall in *. intros n Hn.
        apply in_map_iff in Hn as [[k v] [He Hn]]. simpl in He. subst v.
        apply in_set_inv in Hn as [[_ ->]|Hn].
        -- unfold note_in_range. simpl. lia.
        -- apply Hv. apply in_map_iff. now exists (k, n).
    + rewrite (toggleNote_unselected w _ _ H Hsel). repeat split; assumption.
Qed.

Lemma working_handleSaveNotes (w : Session.W) :
  working w -> working (snd (handleSaveNotes w)).
Proof.
  intros Hw. unfold handleSaveNotes. rewrite bind_get_ui.
  destruct (selectedPattern (ui w)) as [pattern|]; [|exact Hw].
  unfold try_catch. rewrite bind_call.
  set (es := map (noteCreateOf (Pattern.id pattern)) (Js.values (noteGrid (ui w)))).
  pose proof (api_replacePatternNotes_store (Pattern.id pattern) es (backend w)) as Hb.
  destruct Hw as (Hwf & Hk & Hv & Hs).
  pose proof (replaceNotes_notes_in_range (Pattern.id pattern) es (backend w) Hs) as Hs'.
  destruct (replacePatternNotes (Pattern.id pattern) es (backend w)) as [[msg|created] b'];
    simpl in Hb; subst b'.
  - simpl. repeat split; assumption.
  - match goal with
    | |- context [loadPatternNotes ?i ?w0] =>
        pose proof (loadPatternNotes_returns i w0) as Hr;
        assert (Hw0 : working w0) by (repeat split; assumption);
        pose proof (working_loadPatternNotes i w0 Hw0) as Hl;
        destruct (loadPatternNotes i w0) as [o w1]
    end.
    simpl in Hr. subst o. exact Hl.
Qed.

Lemma working_step (w : Session.W) (e : Session.Event) :
  on_grid e -> working w -> working (Session.step w e).
Proof.
  intros He Hw. destruct e; simpl; unfold Session.after.
  - destruct Hw as (Hwf & Hk & Hv & Hs). repeat split; try assumption.
    now apply apply_op_notes_in_range.
  - exact Hw.
  - unfold effectSelectedProjectId. rewrite bind_get_ui.
    destruct (selectedProjectId (ui w)); [now apply working_loadProjectDetail | exact Hw].
  - unfold effectSelectedPattern. rewrite bind_get_ui.
    destruct (selectedPattern (ui w)); [now apply working_loadPatternNotes | exact Hw].
  - now apply working_handleCellClick.
  - now apply working_toggleNote.
  - now apply working_handleSaveNotes.
Qed.

(** Whatever the session, as long as its toggles are cells of the note
    editor, the grid of the page is one the round trip applies to. *)
Lemma session_grid_is_working_grid (events : list Session.Event) :
  Forall on_grid events ->
  Js.wf (noteGrid (ui (Session.run events)))
  /\ keyed (noteGrid (ui (Session.run events)))
  /\ Forall note_in_range (Js.values (noteGrid (ui (Session.run events)))).
Proof.
  intros H.
  assert (G : forall w, working w -> working (fold_left Session.step events w)).
  { induction H as [|e events He _ IH]; simpl; intros w Hw; [exact Hw|].
    apply IH. now apply working_step. }
  destruct (G Session.initial) as (W1 & W2 & W3 & _).
  - repeat split; try constructor. intros k n [].
  - repeat split; assumption.
Qed.

End WorkingGrid.

(** ** The theorems at work on the example session *)

Section ExampleRuns.

(** The first click of the example: bar 2 is free, the page asks for
    "Pattern 3" on bars [[2,4)], the store creates it and the page selects
    it. *)
Lemma handleCellClick_creates_default_pattern_at_bar_2 :
  projectDetail (ui Scenario.loaded)
    = Some (ManualProjectDetail.mk
              (ManualProject.mk "id-0" "Demo" 120 "4/4" (Some "C") None "0" "1")
              [Example.track] [] [])
  /\ (exists rest,
         requests (snd (handleCellClick Example.track 2 Scenario.loaded))
         = (requests Scenario.loaded
              ++ ReqCreatePattern "id-1"
                   {| PatternCreate.name := "Pattern 3";
                      PatternCreate.length_bars := 2;
                      PatternCreate.start_bar := 2 |} :: rest)%list
         /\ forallb (fun r => negb (isCreatePattern r)) rest = true)
  /\ selectedPattern (ui (snd (handleCellClick Example.track 2 Scenario.loaded)))
     = Some (Pattern.mk "id-2" "id-1" "Pattern 3" 2 2).
Proof.
  split; [reflexivity|].
  exact (handleCellClick_creates_default_pattern Scenario.loaded Example.track 2
           (ManualProjectDetail.mk
              (ManualProject.mk "id-0" "Demo" 120 "4/4" (Some "C") None "0" "1")
              [Example.track] [] [])
           eq_refl eq_refl).
Defined.

(** Two toggles of cell (0, 60) on the empty grid leave the empty grid. *)
Lemma toggleNote_twice_on_empty_grid :
  noteGrid (ui Scenario.selected) = Js.empty
  /\ noteGrid (ui (snd (toggleNote 0 60 (snd (toggleNote 0 60 Scenario.selected)))))
     = Js.empty.
Proof.
  split; [reflexivity|].
  exact (proj1 (toggleNote_twice_restores Scenario.selected 0 60 eq_refl)).
Defined.

Lemma edited_grid_wf : Js.wf (noteGrid (ui Scenario.edited)).
Proof.
  vm_compute. repeat constructor; simpl; intuition discriminate.
Qed.

Lemma edited_grid_keyed : keyed (noteGrid (ui Scenario.edited)).
Proof.
  intros k n H. vm_compute in H.
  destruct H as [H|[H|[]]]; inversion H; subst; reflexivity.
Qed.

Lemma edited_grid_in_range : Forall note_in_range (Js.values (noteGrid (ui Scenario.edited))).
Proof.
  vm_compute. repeat constructor; intros; discriminate.
Qed.

Lemma edited_pattern_known :
  TimelineStore.find_pattern (backend Scenario.edited) (Pattern.id Example.pattern3) <> None.
Proof. vm_compute. discriminate. Qed.

(** Saving the grid with cells (0, 60) and (4, 64) and loading it back. *)
Lemma save_then_load_two_notes :
  map triple_of_note (Js.values (noteGrid (ui Scenario.edited)))
    = [(0, 60, 100); (4, 64, 100)]
  /\ map triple_of_note
       (Js.values (noteGrid (ui (Session.after handleSaveNotes Scenario.edited))))
     = [(0, 60, 100); (4, 64, 100)]
  /\ map triple_of_note
       (TimelineStore.notes_of (backend (Session.after handleSaveNotes Scenario.edited))
          "id-2")
     = [(0, 60, 100); (4, 64, 100)].
Proof.
  split; [reflexivity|].
  pose proof (save_then_load_round_trip Scenario.edited Example.pattern3 eq_refl
                edited_pattern_known edited_grid_wf edited_grid_keyed
                edited_grid_in_range) as (H1 & _ & H3 & _).
  split; [exact H1 | exact H3].
Defined.

(** An entry at step 16 makes the whole request fail; the stored notes of
    the example stay. *)
Lemma replaceNotes_refuses_step_16 :
  TimelineStore.replaceNotes "id-2"
    [Scenario.entry 0 60 100; Scenario.entry 16 60 100] (backend Scenario.doubled)
  = (inl TimelineStore.ValidationError, backend Scenario.doubled)
  /\ map triple_of_note (TimelineStore.notes_of (backend Scenario.doubled) "id-2")
     = [(0, 60, 100); (4, 64, 80); (0, 60, 90)].
Proof.
  split; [|reflexivity].
  refine (proj1 (replaceNotes_all_or_nothing "id-2"
                   [Scenario.entry 0 60 100; Scenario.entry 16 60 100]
                   (backend Scenario.doubled) (Scenario.entry 16 60 100) _ _)).
  - simpl. right. left. reflexivity.
  - right. left. vm_compute. discriminate.
Defined.

(** The store holds two notes for cell (0, 60); the loaded grid has the
    later one, with velocity 90. *)
Lemma loadPatternNotes_keeps_last_of_two :
  fst (getPatternNotes "id-2" (backend Scenario.doubled))
    = inr [Note.mk "id-3" "id-2" 0 60 100; Note.mk "id-4" "id-2" 4 64 80;
           Note.mk "id-5" "id-2" 0 60 90]
  /\ Js.get (noteGrid (ui (snd (loadPatternNotes "id-2" Scenario.doubled)))) (note_key 0 60)
     = Some (Note.mk "id-5" "id-2" 0 60 90)
  /\ (List.length
        (filter (sameCell 0 60)
           (Js.values (noteGrid (ui (snd (loadPatternNotes "id-2" Scenario.doubled))))))
      <= 1)%nat.
Proof.
  split; [reflexivity|].
  pose proof (loadPatternNotes_last_note_per_cell Scenario.doubled "id-2"
                [Note.mk "id-3" "id-2" 0 60 100; Note.mk "id-4" "id-2" 4 64 80;
                 Note.mk "id-5" "id-2" 0 60 90]
                (backend Scenario.doubled) eq_refl) as (_ & _ & H3 & H4 & _).
  split; [exact (H4 0 60) | exact (H3 0 60)].
Defined.

End ExampleRuns.

(** * Further properties of the pages *)

(** ** The rendered timeline and the click *)

Section RenderedGrid.

Context {B : Type} `{Api : ManualApi B}.

Lemma find_at_first_match {A} (f : A -> bool) (pre post : list A) (x : A) :
  (forall y, In y pre -> f y = false) -> f x = true ->
  find f (pre ++ x :: post) = Some x.
Proof.
  intros Hpre Hx. induction pre as [|a pre IH]; simpl.
  - now rewrite Hx.
  - rewrite (Hpre a (or_introl eq_refl)). apply IH.
    intros y Hy. apply Hpre. now right.
Qed.

Lemma label_shows_start (st : State) (track : Track.t) (bar : Z) (name : string) :
  BarCell.label (renderBarCell st track bar) = Some name ->
  exists p, getPatternAtCell st (Track.id track) bar = Some p
            /\ Pattern.start_bar p = bar /\ Pattern.name p = name.
Proof.
  unfold renderBarCell. simpl.
  destruct (getPatternAtCell st (Track.id track) bar) as [p|]; [|discriminate].
  destruct (Pattern.start_bar p =? bar) eqn:E; [|discriminate].
  intros [= <-]. exists p. repeat split. now apply Z.eqb_eq.
Qed.

(** X1.  A click on a bar cell that shows a pattern's name selects the
    pattern the cell shows (the one [getPatternAtCell] gives for it), and
    sends nothing to the backend; this holds whenever the loaded patterns
    have positive lengths, overlapping or not. *)
Theorem click_on_labelled_cell_selects_shown_pattern
    (w : World B) (track : Track.t) (bar : Z) detail (name : string) :
  projectDetail (ui w) = Some detail ->
  Forall (fun p => 0 < Pattern.length_bars p) (ManualProjectDetail.patterns detail) ->
  BarCell.label (renderBarCell (ui w) track bar) = Some name ->
  exists p,
    getPatternAtCell (ui w) (Track.id track) bar = Some p
    /\ Pattern.name p = name
    /\ selectedPattern (ui (snd (handleCellClick track bar w))) = Some p
    /\ requests (snd (handleCellClick track bar w)) = requests w
    /\ backend (snd (handleCellClick track bar w)) = backend w.
Proof.
  intros Hd Hpos Hl.
  destruct (label_shows_start _ _ _ _ Hl) as (p & Hg & Hs & Hn).
  exists p. split; [exact Hg|]. split; [exact Hn|].
  assert (Hf : find (startsAtCell (Track.id track) bar)
                 (ManualProjectDetail.patterns detail) = Some p).
  { unfold getPatternAtCell in Hg. rewrite Hd in Hg.
    apply find_first_match in Hg as (pre & post & Hlist & Hc & Hpre).
    rewrite Hlist. apply find_at_first_match.
    - intros q Hq. destruct (startsAtCell (Track.id track) bar q) eqn:E; [|reflexivity].
      apply startsAtCell_spec in E as [Et Eb].
      assert (Hin : In q (ManualProjectDetail.patterns detail))
        by (rewrite Hlist; apply in_or_app; now left).
      rewrite Forall_forall in Hpos. specialize (Hpos q Hin).
      assert (coversCell (Track.id track) bar q = true)
        by (apply coversCell_spec; unfold in_range; split; [exact Et | lia]).
      rewrite (Hpre q Hq) in H. discriminate.
    - apply coversCell_spec in Hc as [Et _]. apply startsAtCell_spec. now split. }
  exact (handleCellClick_select_branch w track bar detail p Hd Hf).
Qed.

(** X2.  The selection ring of a bar cell.  With a pattern selected, the
    ring is on exactly the cells whose pattern has the selected identity.
    With nothing selected, the ring is on exactly the cells no pattern
    covers: [selectedPattern?.id] and [pattern?.id] are both
    [undefined] there. *)
Theorem ring_marks_selection_or_every_empty_cell
    (st : State) (track : Track.t) (bar : Z) :
  (BarCell.ring (renderBarCell st track bar) = "ring-2 ring-white"
   \/ BarCell.ring (renderBarCell st track bar) = "")
  /\ (forall s, selectedPattern st = Some s ->
        (BarCell.ring (renderBarCell st track bar) = "ring-2 ring-white"
         <-> exists p, getPatternAtCell st (Track.id track) bar = Some p
                       /\ Pattern.id p = Pattern.id s))
  /\ (selectedPattern st = None ->
        (BarCell.ring (renderBarCell st track bar) = "ring-2 ring-white"
         <-> getPatternAtCell st (Track.id track) bar = None)).
Proof.
  unfold renderBarCell. simpl. unfold sameOptionalId.
  destruct (getPatternAtCell st (Track.id track) bar) as [p|];
    destruct (selectedPattern st) as [s|]; simpl.
  - destruct (String.eqb (Pattern.id s) (Pattern.id p)) eqn:E.
    + apply String.eqb_eq in E. split; [now left|]. split; [|intros [=]].
      intros s' [= <-]. split; [|reflexivity]. intros _. now exists p.
    + apply String.eqb_neq in E. split; [now right|]. split; [|intros [=]].
      intros s' [= <-]. split; [discriminate|].
      intros (q & [= <-] & Hq). congruence.
  - split; [now right|]. split; [intros s [=]|]. intros _. split; discriminate.
  - split; [now right|]. split; [|intros [=]].
    intros s' [= <-]. split; [discriminate|]. intros (q & [=] & _).
  - split; [now left|]. split; [intros s [=]|]. intros _. split; reflexivity.
Qed.

(** X3.  Where the loaded patterns do not overlap, a loaded pattern of
    positive length is shown on exactly its own bars: on a bar of its
    range the cell has the instrument colour and the pattern's name as
    title, the name is written inside the cell on its first bar and on no
    other, and the pattern is shown on no bar outside its range. *)
Theorem pattern_shown_on_its_bars
    (st : State) (track : Track.t) detail (p : Pattern.t) :
  projectDetail st = Some detail ->
  non_overlapping (ManualProjectDetail.patterns detail) ->
  In p (ManualProjectDetail.patterns detail) ->
  Pattern.track_id p = Track.id track ->
  forall bar,
    (getPatternAtCell st (Track.id track) bar = Some p
     <-> Pattern.start_bar p <= bar < Pattern.start_bar p + Pattern.length_bars p)
    /\ (Pattern.start_bar p <= bar < Pattern.start_bar p + Pattern.length_bars p ->
        BarCell.background (renderBarCell st track bar)
          = INSTRUMENT_COLORS (Track.instrument_type track)
              ++ " border-gray-700 hover:opacity-80"
        /\ BarCell.title (renderBarCell st track bar) = Pattern.name p
        /\ BarCell.label (renderBarCell st track bar)
           = if bar =? Pattern.start_bar p then Some (Pattern.name p) else None).
Proof.
  intros Hd Hno Hin Ht bar.
  assert (Hiff : getPatternAtCell st (Track.id track) bar = Some p <-> in_range p bar).
  { split.
    - intros Hg. unfold getPatternAtCell in Hg. rewrite Hd in Hg.
      apply find_some in Hg as [_ Hc]. now apply coversCell_spec in Hc.
    - intros Hr. destruct (getPatternAtCell st (Track.id track) bar) as [q|] eqn:Hg.
      + f_equal. symmetry.
        exact (getPatternAtCell_unique st detail (Track.id track) bar q p
                 Hd Hno Hg Hin Ht Hr).
      + exfalso. unfold getPatternAtCell in Hg. rewrite Hd in Hg.
        pose proof (find_none _ _ Hg p Hin) as Hc.
        apply coversCell_false in Hc. apply Hc. now split. }
  split; [exact Hiff|]. intros Hr.
  apply Hiff in Hr. unfold renderBarCell. rewrite Hr. simpl.
  repeat split. now rewrite Z.eqb_sym.
Qed.


End RenderedGrid.

(** ** More on toggling *)

Section ToggleMore.

Context {B : Type} `{Api : ManualApi B}.

Lemma has_of_get_eq {V} (m m' : Js.Map V) (k : string) :
  Js.get m' k = Js.get m k -> Js.has m' k = Js.has m k.
Proof.
  intros E. destruct (Js.has m k) eqn:H.
  - apply has_get. rewrite E. now apply has_get.
  - apply get_none_has. rewrite E. now apply get_none_has.
Qed.

Lemma has_delete_same {V} (m : Js.Map V) k : Js.has (Js.delete m k) k = false.
Proof. apply get_none_has, get_delete_same. Qed.

Lemma length_delete_present {V} (m : Js.Map V) k :
  Js.wf m -> Js.has m k = true ->
  List.length m = S (List.length (Js.delete m k)).
Proof.
  unfold Js.wf, Js.keys, Js.has, Js.delete.
  induction m as [|[k0 v0] m IH]; simpl; intros Hwf H; [discriminate|].
  inversion Hwf as [|? ? Hn Hnd]; subst.
  destruct (String.eqb k0 k) eqn:E; simpl.
  - apply String.eqb_eq in E; subst k0. f_equal.
    assert (Ha : Js.has m k = false) by (now apply has_false_not_in).
    pose proof (delete_absent _ m k Ha) as Hd. unfold Js.delete in Hd. now rewrite Hd.
  - f_equal. now apply IH.
Qed.

(** X5.  Switching an occupied cell off and on again does not bring the
    note back: the grid then holds, as its last entry, the temporary note
    of the cell, with identity "temp" and velocity 100, whatever identity
    and velocity the note had; the other entries are as they were. *)
Theorem toggle_off_and_on_resets_the_note
    (w : World B) (stepIndex pitch : Z) (pattern : Pattern.t) :
  Js.has (noteGrid (ui w)) (note_key stepIndex pitch) = true ->
  selectedPattern (ui w) = Some pattern ->
  let w2 := snd (toggleNote stepIndex pitch (snd (toggleNote stepIndex pitch w))) in
  noteGrid (ui w2)
  = (Js.delete (noteGrid (ui w)) (note_key stepIndex pitch)
       ++ [(note_key stepIndex pitch,
            {| Note.id := "temp";
               Note.pattern_id := Pattern.id pattern;
               Note.step_index := stepIndex;
               Note.pitch := pitch;
               Note.velocity := 100 |})])%list
  /\ (forall k, k <> note_key stepIndex pitch ->
        Js.get (noteGrid (ui w2)) k = Js.get (noteGrid (ui w)) k).
Proof.
  intros H Hs w2. subst w2.
  rewrite (toggleNote_present w _ _ H). simpl.
  rewrite (toggleNote_absent _ _ _ pattern) by (simpl; first [apply has_delete_same | exact Hs]).
  simpl. rewrite set_absent by apply has_delete_same. split; [reflexivity|].
  intros k Hk. rewrite <- (get_delete_other _ (noteGrid (ui w)) _ k Hk).
  rewrite <- set_absent by apply has_delete_same. now apply get_set_other.
Qed.

(** X6.  While a pattern is selected, a toggle flips what the note editor
    shows for the cell and nothing else: [noteGrid.has(key)] of the cell is
    negated, that of every other cell stays, and the grid gains or loses
    exactly one entry. *)
Theorem toggle_flips_the_cell
    (w : World B) (stepIndex pitch : Z) (pattern : Pattern.t) :
  selectedPattern (ui w) = Some pattern ->
  Js.wf (noteGrid (ui w)) ->
  let w' := snd (toggleNote stepIndex pitch w) in
  hasNote (ui w') stepIndex pitch = negb (hasNote (ui w) stepIndex pitch)
  /\ (forall s' p', (s', p') <> (stepIndex, pitch) ->
        hasNote (ui w') s' p' = hasNote (ui w) s' p')
  /\ (if hasNote (ui w) stepIndex pitch
      then List.length (noteGrid (ui w)) = S (List.length (noteGrid (ui w')))
      else List.length (noteGrid (ui w')) = S (List.length (noteGrid (ui w)))).
Proof.
  intros Hs Hwf w'. subst w'. unfold hasNote.
  destruct (Js.has (noteGrid (ui w)) (note_key stepIndex pitch)) eqn:H.
  - rewrite (toggleNote_present w _ _ H). simpl. repeat split.
    + apply has_delete_same.
    + intros s' p' Hne. apply has_of_get_eq, get_delete_other. now apply note_key_neq.
    + now apply length_delete_present.
  - rewrite (toggleNote_absent w _ _ pattern H Hs). simpl. repeat split.
    + apply has_set_same.
    + intros s' p' Hne. apply has_of_get_eq, get_set_other. now apply note_key_neq.
    + rewrite set_absent by exact H. rewrite length_app. simpl. lia.
Qed.

(** X7.  The key of a cell determines the cell: two cells have the same
    key "{step}-{pitch}" exactly when they have the same step and the same
    pitch, also for negative numbers, where the key holds two or three
    minus signs. *)
Theorem note_key_determines_cell (s1 p1 s2 p2 : Z) :
  note_key s1 p1 = note_key s2 p2 <-> s1 = s2 /\ p1 = p2.
Proof.
  split; [apply note_key_inj | now intros [-> ->]].
Qed.

End ToggleMore.

(** ** The page on any backend *)

Section AnyBackend.

Context {B : Type} `{Api : ManualApi B}.

Lemma loadProjectDetail_cases (i : string) (w : World B) :
  snd (loadProjectDetail i w) =
  match getProjectDetail i (backend w) with
  | (inr data, b') =>
      mkWorld
        (mkState (selectedProjectId (ui w)) (Some data) (selectedPattern (ui w))
           (noteGrid (ui w)) false)
        b' (requests w ++ [ReqGetProjectDetail i]) (console w)
  | (inl _, b') =>
      mkWorld
        (mkState (selectedProjectId (ui w)) (projectDetail (ui w))
           (selectedPattern (ui w)) (noteGrid (ui w)) false)
        b' (requests w ++ [ReqGetProjectDetail i])
        (console w ++ ["Failed to load project detail:"])
  end.
Proof.
  unfold loadProjectDetail, bind, try_catch, call, setIsLoading, setProjectDetail,
    modify_ui, console_error. simpl.
  destruct (getProjectDetail i (backend w)) as [[msg|data] b']; reflexivity.
Qed.

Lemma loadPatternNotes_cases (i : string) (w : World B) :
  snd (loadPatternNotes i w) =
  match getPatternNotes i (backend w) with
  | (inr notes, b') =>
      mkWorld
        (mkState (selectedProjectId (ui w)) (projectDetail (ui w))
           (selectedPattern (ui w)) (notesToGrid notes) (isLoading (ui w)))
        b' (requests w ++ [ReqGetPatternNotes i]) (console w)
  | (inl _, b') =>
      mkWorld (ui w) b' (requests w ++ [ReqGetPatternNotes i])
        (console w ++ ["Failed to load notes:"])
  end.
Proof.
  destruct (getPatternNotes i (backend w)) as [[msg|notes] b'] eqn:E.
  - now rewrite (loadPatternNotes_rejected w _ _ _ E).
  - now rewrite (loadPatternNotes_resolved w _ _ _ E).
Qed.

Lemma handleCellClick_cases (track : Track.t) (bar : Z) (w : World B) :
  snd (handleCellClick track bar w) =
  match projectDetail (ui w) with
  | None => w
  | Some detail =>
      match find (startsAtCell (Track.id track) bar)
                 (ManualProjectDetail.patterns detail) with
      | Some existingPattern => snd (setSelectedPattern (Some existingPattern) w)
      | None =>
          match createPattern (Track.id track) (newPatternRequest bar) (backend w) with
          | (inr newPattern, b') =>
              snd (setSelectedPattern (Some newPattern)
                     (snd (loadProjectDetail (projectIdArgument (ui w))
                             (mkWorld (ui w) b'
                                (requests w
                                   ++ [ReqCreatePattern (Track.id track)
                                         (newPatternRequest bar)])
                                (console w)))))
          | (inl _, b') =>
              mkWorld (ui w) b'
                (requests w
                   ++ [ReqCreatePattern (Track.id track) (newPatternRequest bar)])
                (console w ++ ["Failed to create pattern:"])
          end
      end
  end.
Proof.
  unfold handleCellClick. rewrite bind_get_ui.
  destruct (projectDetail (ui w)) as [detail|]; [|reflexivity].
  destruct (find _ _); [reflexivity|].
  unfold try_catch. rewrite bind_call.
  destruct (createPattern _ _ (backend w)) as [[msg|newPattern] b']; [reflexivity|].
  rewrite bind_loadProjectDetail. reflexivity.
Qed.

Lemma handleSaveNotes_cases (w : World B) :
  snd (handleSaveNotes w) =
  match selectedPattern (ui w) with
  | None => w
  | Some pattern =>
      match replacePatternNotes (Pattern.id pattern)
              (map (noteCreateOf (Pattern.id pattern)) (Js.values (noteGrid (ui w))))
              (backend w) with
      | (inr _, b') =>
          snd (loadPatternNotes (Pattern.id pattern)
                 (mkWorld (ui w) b'
                    (requests w
                       ++ [ReqReplacePatternNotes (Pattern.id pattern)
                             (map (noteCreateOf (Pattern.id pattern))
                                (Js.values (noteGrid (ui w))))])
                    (console w)))
      | (inl _, b') =>
          mkWorld (ui w) b'
            (requests w
               ++ [ReqReplacePatternNotes (Pattern.id pattern)
                     (map (noteCreateOf (Pattern.id pattern))
                        (Js.values (noteGrid (ui w))))])
            (console w ++ ["Failed to save notes:"])
      end
  end.
Proof.
  unfold handleSaveNotes. rewrite bind_get_ui.
  destruct (selectedPattern (ui w)) as [pattern|]; [|reflexivity].
  unfold try_catch. rewrite bind_call. simpl.
  destruct (replacePatternNotes _ _ (backend w)) as [[msg|created] b']; [reflexivity|].
  match goal with
  | |- context [loadPatternNotes ?i ?w0] =>
      pose proof (loadPatternNotes_returns i w0) as Hr;
      destruct (loadPatternNotes i w0) as [o w1]
  end.
  simpl in Hr. now subst o.
Qed.

Lemma toggleNote_cases (stepIndex pitch : Z) (w : World B) :
  snd (toggleNote stepIndex pitch w) =
  if Js.has (noteGrid (ui w)) (note_key stepIndex pitch) then
    withNoteGrid w (Js.delete (noteGrid (ui w)) (note_key stepIndex pitch))
  else
    match selectedPattern (ui w) with
    | Some pattern =>
        withNoteGrid w
          (Js.set (noteGrid (ui w)) (note_key stepIndex pitch)
             (tempNote (Pattern.id pattern) stepIndex pitch))
    | None => w
    end.
Proof.
  destruct (Js.has (noteGrid (ui w)) (note_key stepIndex pitch)) eqn:H.
  - now rewrite (toggleNote_present w _ _ H).
  - destruct (selectedPattern (ui w)) as [pattern|] eqn:Hs.
    + now rewrite (toggleNote_absent w _ _ pattern H Hs).
    + now rewrite (toggleNote_unselected w _ _ H Hs).
Qed.

Lemma effectSelectedPattern_cases (w : World B) :
  snd (effectSelectedPattern w) =
  match selectedPattern (ui w) with
  | Some p => snd (loadPatternNotes (Pattern.id p) w)
  | None => w
  end.
Proof.
  unfold effectSelectedPattern. rewrite bind_get_ui.
  now destruct (selectedPattern (ui w)).
Qed.

Lemma effectSelectedProjectId_cases (w : World B) :
  snd (effectSelectedProjectId w) =
  match selectedProjectId (ui w) with
  | Some i => snd (loadProjectDetail i w)
  | None => w
  end.
Proof.
  unfold effectSelectedProjectId. rewrite bind_get_ui.
  now destruct (selectedProjectId (ui w)).
Qed.

(** Every case of every handler, opened up. *)
Ltac open_step :=
  simpl;
  rewrite ?effectSelectedProjectId_cases, ?effectSelectedPattern_cases,
    ?handleCellClick_cases, ?toggleNote_cases, ?handleSaveNotes_cases;
  repeat match goal with
         | |- context [match ?x with _ => _ end] =>
             match x with
             | selectedProjectId _ => destruct x eqn:?
             | selectedPattern _ => destruct x eqn:?
             | projectDetail _ => destruct x eqn:?
             | find _ _ => destruct x eqn:?
             | Js.has _ _ => destruct x eqn:?
             | createPattern _ _ _ => destruct x as [[?|?] ?] eqn:?
             | replacePatternNotes _ _ _ => destruct x as [[?|?] ?] eqn:?
             end
         | |- context [if ?x then _ else _] =>
             match x with
             | Js.has _ _ => destruct x eqn:?
             end
         end;
  rewrite ?loadProjectDetail_cases, ?loadPatternNotes_cases;
  repeat match goal with
         | |- context [match ?x with _ => _ end] =>
             match x with
             | getProjectDetail _ _ => destruct x as [[?|?] ?] eqn:?
             | getPatternNotes _ _ => destruct x as [[?|?] ?] eqn:?
             end
         end;
  simpl.

Lemma step_keeps_grid_keyed (w : World B) (e : Page.Event) :
  Js.wf (noteGrid (ui w)) /\ keyed (noteGrid (ui w)) ->
  Js.wf (noteGrid (ui (Page.step w e))) /\ keyed (noteGrid (ui (Page.step w e))).
Proof.
  intros [Hwf Hk].
  assert (Hn : forall notes, Js.wf (notesToGrid notes) /\ keyed (notesToGrid notes)).
  { intros notes. rewrite notesToGrid_fold. split.
    - apply fold_addNote_wf, wf_empty.
    - apply fold_addNote_keyed, keyed_empty. }
  destruct e; open_step; try (split; assumption); try apply Hn.
  - split; [now apply wf_delete | now apply keyed_delete].
  - split; [now apply wf_set|].
    match goal with
    | |- keyed (Js.set _ _ (tempNote ?i _ _)) =>
        exact (keyed_addNote _ (tempNote i stepIndex pitch) Hk)
    end.
Qed.

(** X8.  On any backend and after any sequence of selections, effects,
    clicks, toggles and saves, the working grid of the page has one entry
    per key, every note is filed under the key of its own cell, and so no
    cell of the note editor holds two notes: whatever the backend answers, the
    page never shows or saves two notes for one cell. *)
Theorem page_grid_has_one_note_per_cell (events : list Page.Event) (w : World B) :
  Js.wf (noteGrid (ui w)) ->
  keyed (noteGrid (ui w)) ->
  let g := noteGrid (ui (Page.run events w)) in
  NoDup (Js.keys g)
  /\ (forall k n, In (k, n) g -> k = note_key (Note.step_index n) (Note.pitch n))
  /\ (forall s p, (List.length (filter (sameCell s p) (Js.values g)) <= 1)%nat).
Proof.
  intros Hwf Hk g.
  assert (H : Js.wf g /\ keyed g).
  { subst g. unfold Page.run. revert w Hwf Hk.
    induction events as [|e events IH]; simpl; intros w Hwf Hk; [now split|].
    destruct (step_keeps_grid_keyed w e (conj Hwf Hk)) as [H1 H2]. now apply IH. }
  destruct H as [H1 H2]. repeat split; try assumption.
  intros s p. now apply one_note_per_cell.
Qed.

Lemma step_keeps_not_loading (w : World B) (e : Page.Event) :
  isLoading (ui w) = false -> isLoading (ui (Page.step w e)) = false.
Proof.
  intros H. destruct e; open_step; try assumption; try reflexivity.
Qed.

(** X9.  The loading flag never sticks: on any backend, after any
    sequence of page events, also ones whose requests fail, [isLoading] is
    false again. *)
Theorem page_is_never_left_loading (events : list Page.Event) (w : World B) :
  isLoading (ui w) = false ->
  isLoading (ui (Page.run events w)) = false.
Proof.
  unfold Page.run. revert w.
  induction events as [|e events IH]; simpl; intros w H; [exact H|].
  apply IH. now apply step_keeps_not_loading.
Qed.

(** ** Requests and failures *)

Lemma step_requests (w : World B) (e : Page.Event) :
  exists sent,
    requests (Page.step w e) = (requests w ++ sent)%list
    /\ (countRequests isReplaceNotes sent <= if Page.isSaveNotes e then 1 else 0)%nat
    /\ (countRequests isCreatePattern sent <= if Page.isCellClick e then 1 else 0)%nat.
Proof.
  destruct e; open_step; unfold withNoteGrid; simpl;
    first [ (exists []; rewrite app_nil_r; repeat split; unfold countRequests; simpl; lia)
          | (rewrite <- ?app_assoc; eexists; split;
             [reflexivity | split; unfold countRequests; simpl; lia]) ].
Qed.

Lemma countRequests_app kind (l1 l2 : list Request) :
  countRequests kind (l1 ++ l2) = (countRequests kind l1 + countRequests kind l2)%nat.
Proof. unfold countRequests. now rewrite filter_app, length_app. Qed.

(** X10.  Requests follow events.  On any backend the request log only
    grows, a replace-notes request is sent only by a save and a
    create-pattern request only by a click on a bar cell, at most one
    each: toggles, selections and reloads never write to the backend, and
    a session without a save has sent no notes. *)
Theorem writes_are_sent_only_by_save_and_click (events : list Page.Event) (w : World B) :
  exists sent,
    requests (Page.run events w) = (requests w ++ sent)%list
    /\ (countRequests isReplaceNotes sent
        <= List.length (filter Page.isSaveNotes events))%nat
    /\ (countRequests isCreatePattern sent
        <= List.length (filter Page.isCellClick events))%nat.
Proof.
  unfold Page.run. revert w.
  induction events as [|e events IH]; simpl; intros w.
  - exists []. rewrite app_nil_r. repeat split; unfold countRequests; simpl; lia.
  - destruct (step_requests w e) as (s1 & E1 & R1 & C1).
    destruct (IH (Page.step w e)) as (s2 & E2 & R2 & C2).
    exists (s1 ++ s2)%list. rewrite E2, E1, app_assoc. split; [reflexivity|].
    rewrite !countRequests_app.
    destruct (Page.isSaveNotes e), (Page.isCellClick e); simpl; lia.
Qed.

(** X11.  A save the backend refuses loses nothing on the page: the
    working grid, the selection and the loaded project are as before, the
    one request sent is the replace-notes request (no reload follows), and
    the failure is logged. *)
Theorem refused_save_keeps_the_edits
    (w : World B) (pattern : Pattern.t) (msg : string) (b' : B) :
  selectedPattern (ui w) = Some pattern ->
  replacePatternNotes (Pattern.id pattern)
    (map (noteCreateOf (Pattern.id pattern)) (Js.values (noteGrid (ui w))))
    (backend w) = (inl msg, b') ->
  snd (handleSaveNotes w)
  = mkWorld (ui w) b'
      (requests w
         ++ [ReqReplacePatternNotes (Pattern.id pattern)
               (map (noteCreateOf (Pattern.id pattern)) (Js.values (noteGrid (ui w))))])
      (console w ++ ["Failed to save notes:"]).
Proof.
  intros Hs Hr. now rewrite handleSaveNotes_cases, Hs, Hr.
Qed.

(** X12.  Selecting a project that cannot be loaded leaves the previous
    project on the page: [selectedProjectId] names the new project, but
    the loaded detail, every rendered row, the selected pattern and the
    grid are those of the previous one, the loading flag is down and the
    failure is logged. *)
Theorem failed_project_load_leaves_previous_project
    (w : World B) (projectId msg : string) (b' : B) :
  getProjectDetail projectId (backend w) = (inl msg, b') ->
  let w' := Page.run [Page.SelectProject projectId; Page.EffectSelectedProjectId] w in
  selectedProjectId (ui w') = Some projectId
  /\ projectDetail (ui w') = projectDetail (ui w)
  /\ (forall track, selectedPattern (ui w') = selectedPattern (ui w)
                    /\ renderRow (ui w') track = renderRow (ui w) track)
  /\ noteGrid (ui w') = noteGrid (ui w)
  /\ isLoading (ui w') = false
  /\ console w' = (console w ++ ["Failed to load project detail:"])%list.
Proof.
  intros H w'. subst w'. unfold Page.run. simpl.
  rewrite effectSelectedProjectId_cases. simpl.
  rewrite loadProjectDetail_cases. simpl. rewrite H. simpl.
  repeat split.
Qed.


End AnyBackend.

(** ** The list of the Render Queue page *)

Section RenderQueueList.

Import RenderQueue.

Lemma findIndexFrom_cases {A} (f : A -> bool) (l : list A) (i : Z) :
  0 <= i ->
  (findIndexFrom f l i = -1 /\ forall x, In x l -> f x = false)
  \/ (exists pre x post,
         l = (pre ++ x :: post)%list /\ f x = true
         /\ (forall y, In y pre -> f y = false)
         /\ findIndexFrom f l i = i + Z.of_nat (List.length pre)).
Proof.
  revert i. induction l as [|a l IH]; simpl; intros i Hi.
  - left. split; [reflexivity | intros x []].
  - destruct (f a) eqn:Fa.
    + right. exists [], a, l. simpl. repeat split; [exact Fa | intros y [] | lia].
    + destruct (IH (i + 1)) as [[E Hall]|(pre & x & post & -> & Fx & Hpre & E)]; [lia| |].
      * left. split; [exact E|]. intros x [<-|Hx]; [exact Fa | now apply Hall].
      * right. exists (a :: pre), x, post. simpl. repeat split; try assumption.
        -- intros y [<-|Hy]; [exact Fa | now apply Hpre].
        -- rewrite E. lia.
Qed.

Lemma assign_middle {A} (pre post : list A) (x v : A) :
  assign (pre ++ x :: post) (List.length pre) v = (pre ++ v :: post)%list.
Proof.
  induction pre as [|a pre IH]; simpl; [reflexivity | now rewrite IH].
Qed.

(** The two ways of [updateJobs]: the first job with the identity of the
    result is replaced where it stands, or the result goes to the front. *)
Lemma updateJobs_cases (prev : list RenderJobStatus) (result : RenderJobStatus) :
  (exists pre old post,
      prev = (pre ++ old :: post)%list
      /\ job_id old = job_id result
      /\ (forall j, In j pre -> job_id j <> job_id result)
      /\ updateJobs prev result = (pre ++ result :: post)%list)
  \/ ((forall j, In j prev -> job_id j <> job_id result)
      /\ updateJobs prev result = result :: prev).
Proof.
  unfold updateJobs, findIndex.
  destruct (findIndexFrom_cases (fun j => String.eqb (job_id j) (job_id result)) prev 0)
    as [[E Hall]|(pre & x & post & Hl & Fx & Hpre & E)]; [lia| |].
  - right. rewrite E. simpl. split; [|reflexivity].
    intros j Hj. apply String.eqb_neq. now apply Hall.
  - left. exists pre, x, post. rewrite E. apply String.eqb_eq in Fx.
    repeat split; try assumption.
    + intros j Hj. apply String.eqb_neq. now apply Hpre.
    + assert ((0 + Z.of_nat (List.length pre) >=? 0) = true) as -> by lia.
      rewrite Z.add_0_l, Nat2Z.id, Hl. apply assign_middle.
Qed.

Lemma jobOf_app_skip (pre l : list RenderJobStatus) (id : string) :
  (forall j, In j pre -> job_id j <> id) -> jobOf (pre ++ l) id = jobOf l id.
Proof.
  intros H. unfold jobOf. induction pre as [|a pre IH]; simpl; [reflexivity|].
  assert (String.eqb (job_id a) id = false) as ->
    by (apply String.eqb_neq, H; now left).
  apply IH. intros j Hj. apply H. now right.
Qed.

Lemma updateJobs_shows_result (prev : list RenderJobStatus) (result : RenderJobStatus) :
  jobOf (updateJobs prev result) (job_id result) = Some result.
Proof.
  destruct (updateJobs_cases prev result)
    as [(pre & old & post & -> & Eid & Hpre & ->)|[Hall ->]].
  - rewrite jobOf_app_skip by exact Hpre. unfold jobOf. simpl.
    now rewrite String.eqb_refl.
  - unfold jobOf. simpl. now rewrite String.eqb_refl.
Qed.

Lemma updateJobs_keeps_others
    (prev : list RenderJobStatus) (result : RenderJobStatus) (id : string) :
  id <> job_id result -> jobOf (updateJobs prev result) id = jobOf prev id.
Proof.
  intros Hne.
  destruct (updateJobs_cases prev result)
    as [(pre & old & post & -> & Eid & Hpre & ->)|[Hall ->]].
  - unfold jobOf. rewrite !find_app_split. simpl. rewrite Eid.
    assert (String.eqb (job_id result) id = false) as ->
      by (apply String.eqb_neq; congruence).
    reflexivity.
  - unfold jobOf. simpl.
    assert (String.eqb (job_id result) id = false) as ->
      by (apply String.eqb_neq; congruence).
    reflexivity.
Qed.

Lemma updateJobs_ids (prev : list RenderJobStatus) (result : RenderJobStatus) :
  map job_id (updateJobs prev result)
  = match jobOf prev (job_id result) with
    | Some _ => map job_id prev
    | None => job_id result :: map job_id prev
    end.
Proof.
  destruct (updateJobs_cases prev result)
    as [(pre & old & post & -> & Eid & Hpre & ->)|[Hall ->]].
  - rewrite (jobOf_app_skip pre (old :: post) _ Hpre). unfold jobOf. simpl.
    rewrite Eid, String.eqb_refl, !map_app. simpl. now rewrite Eid.
  - assert (jobOf prev (job_id result) = None) as ->; [|reflexivity].
    unfold jobOf. destruct (find _ prev) as [j|] eqn:F; [|reflexivity].
    apply find_some in F as [Hin E]. apply String.eqb_eq in E.
    now destruct (Hall j Hin).
Qed.

(** X14.  After a status check the list shows the retrieved status under
    the job's identity, and what it shows under every other identity is
    what it showed before.  A job already listed keeps its place in the
    list, a new job goes to the front, so the list grows by one entry
    exactly for a new identity. *)
Theorem updateJobs_lookup_and_frame
    (prev : list RenderJobStatus) (result : RenderJobStatus) :
  jobOf (updateJobs prev result) (job_id result) = Some result
  /\ (forall id, id <> job_id result ->
        jobOf (updateJobs prev result) id = jobOf prev id)
  /\ map job_id (updateJobs prev result)
     = match jobOf prev (job_id result) with
       | Some _ => map job_id prev
       | None => job_id result :: map job_id prev
       end.
Proof.
  split; [apply updateJobs_shows_result|].
  split; [intros id; apply updateJobs_keeps_others | apply updateJobs_ids].
Qed.

Lemma updateJobs_ids_distinct (prev : list RenderJobStatus) (result : RenderJobStatus) :
  NoDup (map job_id prev) -> NoDup (map job_id (updateJobs prev result)).
Proof.
  intros H.
  rewrite updateJobs_ids.
  destruct (jobOf prev (job_id result)) as [j|] eqn:F; [exact H|].
  constructor; [|exact H]. intros Hin. apply in_map_iff in Hin as [j [Ej Hj]].
  unfold jobOf in F. pose proof (find_none _ _ F j Hj) as Hf. simpl in Hf.
  rewrite Ej, String.eqb_refl in Hf. discriminate.
Qed.

(** X15.  The latest status wins.  After any series of retrieved
    statuses, starting from the empty list, every identity occurs once in
    the list, and under each identity the list shows the last status
    retrieved for it. *)
Theorem jobs_list_shows_latest_status_once (results : list RenderJobStatus) :
  NoDup (map job_id (fold_left updateJobs results []))
  /\ forall id,
       jobOf (fold_left updateJobs results []) id
       = find (fun j => String.eqb (job_id j) id) (rev results).
Proof.
  assert (G : forall acc,
             NoDup (map job_id acc) ->
             NoDup (map job_id (fold_left updateJobs results acc))
             /\ forall id,
                  jobOf (fold_left updateJobs results acc) id
                  = match find (fun j => String.eqb (job_id j) id) (rev results) with
                    | Some j => Some j
                    | None => jobOf acc id
                    end).
  { induction results as [|r results IH]; simpl; intros acc Hnd.
    - split; [exact Hnd | reflexivity].
    - destruct (IH (updateJobs acc r) (updateJobs_ids_distinct acc r Hnd)) as [N L].
      split; [exact N|]. intros id. rewrite L, find_app_split.
      destruct (find _ (rev results)); [reflexivity|]. simpl.
      destruct (String.eqb (job_id r) id) eqn:E.
      + apply String.eqb_eq in E. subst id. apply updateJobs_shows_result.
      + apply updateJobs_keeps_others. apply String.eqb_neq in E. congruence. }
  destruct (G [] (NoDup_nil _)) as [N L]. split; [exact N|].
  intros id. rewrite L. now destruct (find _ (rev results)).
Qed.

(** X16.  Checking the same status twice is checking it once: the second
    update leaves the list as the first left it. *)
Theorem updateJobs_idempotent (prev : list RenderJobStatus) (result : RenderJobStatus) :
  updateJobs (updateJobs prev result) result = updateJobs prev result.
Proof.
  destruct (updateJobs_cases prev result)
    as [(pre & old & post & -> & Eid & Hpre & ->)|[Hall ->]].
  - destruct (updateJobs_cases (pre ++ result :: post) result)
      as [(pre' & old' & post' & El & Eid' & Hpre' & ->)|[Hall' _]].
    + assert (Hlen : pre' = pre /\ post' = post).
      { clear - El Hpre Hpre' Eid'. revert pre' El Hpre'.
        induction pre as [|a pre IH]; simpl; intros pre' El Hpre'.
        - destruct pre' as [|b pre']; simpl in El.
          + inversion El. now split.
          + inversion El; subst. exfalso. apply (Hpre' b); [now left | reflexivity].
        - destruct pre' as [|b pre']; simpl in El.
          + inversion El; subst. exfalso. apply (Hpre old'); [now left | exact Eid'].
          + inversion El; subst.
            destruct (IH (fun j Hj => Hpre j (or_intror Hj)) pre' H1
                         (fun j Hj => Hpre' j (or_intror Hj))) as [-> ->].
            now split. }
      destruct Hlen as [-> ->]. reflexivity.
    + exfalso. apply (Hall' result); [|reflexivity].
      apply in_or_app. right. now left.
  - destruct (updateJobs_cases (result :: prev) result)
      as [(pre' & old' & post' & El & Eid' & Hpre' & ->)|[Hall' _]].
    + destruct pre' as [|b pre']; simpl in El.
      * now inversion El.
      * inversion El; subst. exfalso. apply (Hpre' b); [now left | reflexivity].
    + exfalso. apply (Hall' result); [now left | reflexivity].
Qed.

End RenderQueueList.

(** ** Sessions on the Render Queue page *)

Section RenderQueueSessions.

Import RenderQueue.

Context {B : Type}.
Variable trim : string -> string.
Variable getRenderJob : string -> B -> (string + RenderJobStatus) * B.

Lemma check_keeps_queue_invariants (w : RenderQueue.World B) (e : RenderQueue.Event) :
  NoDup (map job_id (jobs (RenderQueue.ui w)))
  /\ Forall (fun id => id <> "") (asked w)
  /\ isChecking (RenderQueue.ui w) = false ->
  NoDup (map job_id (jobs (RenderQueue.ui (RenderQueue.step trim getRenderJob w e))))
  /\ Forall (fun id => id <> "") (asked (RenderQueue.step trim getRenderJob w e))
  /\ isChecking (RenderQueue.ui (RenderQueue.step trim getRenderJob w e)) = false.
Proof.
  intros (Hn & Ha & Hc). destruct e; simpl; [repeat split; assumption|].
  unfold handleCheckStatus.
  destruct (String.eqb (trim (jobId (RenderQueue.ui w))) "") eqn:E; simpl.
  - repeat split; assumption.
  - apply String.eqb_neq in E.
    destruct (getRenderJob _ (RenderQueue.backend w)) as [[msg|result] b']; simpl;
      repeat split; try assumption;
      try (apply Forall_app; split; [exact Ha | now repeat constructor]).
    now apply updateJobs_ids_distinct.
Qed.

(** X17.  Whatever is typed and however often the status is checked, on
    any backend: the job identities of the list, which are the React keys
    of its rows, are pairwise different; the backend is never asked for an
    empty identity (a blank input is stopped on the page); and when a
    check is over, also a failed one, the page is not left in the
    "checking" state. *)
Theorem render_queue_keeps_distinct_jobs (events : list RenderQueue.Event) (b : B) :
  let w := fold_left (RenderQueue.step trim getRenderJob) events (RenderQueue.initial b) in
  NoDup (map job_id (jobs (RenderQueue.ui w)))
  /\ Forall (fun id => id <> "") (asked w)
  /\ isChecking (RenderQueue.ui w) = false.
Proof.
  intros w. subst w.
  assert (G : forall w0,
             NoDup (map job_id (jobs (RenderQueue.ui w0)))
             /\ Forall (fun id => id <> "") (asked w0)
             /\ isChecking (RenderQueue.ui w0) = false ->
             NoDup (map job_id
                      (jobs (RenderQueue.ui
                               (fold_left (RenderQueue.step trim getRenderJob) events w0))))
             /\ Forall (fun id => id <> "")
                  (asked (fold_left (RenderQueue.step trim getRenderJob) events w0))
             /\ isChecking
                  (RenderQueue.ui
                     (fold_left (RenderQueue.step trim getRenderJob) events w0)) = false).
  { induction events as [|e events IH]; simpl; intros w0 H0; [exact H0|].
    apply IH. now apply check_keeps_queue_invariants. }
  apply G. simpl. repeat split; constructor.
Qed.

End RenderQueueSessions.

(** ** The influences of the HitMaker page *)

Section InfluenceList.

Import HitMaker.

Variable Weight : Type.
Variable half : Weight.

Lemma removeAt_outside (l : list (InfluenceDescriptor Weight)) (i index : nat) :
  (index < i)%nat -> removeAt Weight l i index = l.
Proof.
  revert i. induction l as [|a l IH]; simpl; intros i H; [reflexivity|].
  assert (Nat.eqb i index = false) as -> by (apply Nat.eqb_neq; lia).
  rewrite IH by lia. reflexivity.
Qed.

Lemma removeAt_split (pre post : list (InfluenceDescriptor Weight)) x (i : nat) :
  removeAt Weight (pre ++ x :: post) i (i + List.length pre) = (pre ++ post)%list.
Proof.
  revert i. induction pre as [|a pre IH]; simpl; intros i.
  - rewrite Nat.add_0_r, Nat.eqb_refl. apply removeAt_outside. lia.
  - assert (Nat.eqb i (i + S (List.length pre)) = false) as ->
      by (apply Nat.eqb_neq; lia).
    f_equal. replace (i + S (List.length pre))%nat with (S i + List.length pre)%nat by lia.
    apply IH.
Qed.

Lemma split_at_index {A} (l : list A) (n : nat) :
  (n < List.length l)%nat ->
  exists pre x post, l = (pre ++ x :: post)%list /\ List.length pre = n.
Proof.
  revert n. induction l as [|a l IH]; simpl; intros n H; [lia|].
  destruct n as [|n].
  - exists [], a, l. now split.
  - destruct (IH n) as (pre & x & post & -> & Hl); [lia|].
    exists (a :: pre), x, post. simpl. split; [reflexivity | now rewrite Hl].
Qed.

Lemma updateInfluence_split (pre post : list (InfluenceDescriptor Weight)) x v :
  updateInfluence Weight (List.length pre) v (pre ++ x :: post)
  = Some (pre ++ withField Weight x v :: post)%list.
Proof.
  induction pre as [|a pre IH]; simpl; [reflexivity | now rewrite IH].
Qed.

(** X18.  "Remove" drops exactly the influence it belongs to and an edit
    changes exactly the edited field of the edited influence: the
    influences before and after it stay, in their order. *)
Theorem influence_remove_and_edit_touch_one_entry
    (pre post : list (InfluenceDescriptor Weight)) (x : InfluenceDescriptor Weight)
    (value : FieldValue Weight) :
  removeInfluence Weight (List.length pre) (pre ++ x :: post) = (pre ++ post)%list
  /\ updateInfluence Weight (List.length pre) value (pre ++ x :: post)
     = Some (pre ++ withField Weight x value :: post)%list
  /\ match value with
     | NameValue _ s =>
         name Weight (withField Weight x value) = s
         /\ weight Weight (withField Weight x value) = weight Weight x
     | WeightValue _ v =>
         weight Weight (withField Weight x value) = v
         /\ name Weight (withField Weight x value) = name Weight x
     end.
Proof.
  split; [|split].
  - unfold removeInfluence. exact (removeAt_split pre post x 0).
  - apply updateInfluence_split.
  - destruct value; simpl; split; reflexivity.
Qed.

Lemma step_length (l : list (InfluenceDescriptor Weight)) (e : Event Weight) :
  offered Weight l e = true ->
  (1 <= List.length l <= 3)%nat ->
  (1 <= List.length (step Weight half l e) <= 3)%nat.
Proof.
  intros Ho Hl. destruct e as [|idx|idx v]; simpl in *.
  - unfold addInfluence. rewrite Ho. apply Nat.ltb_lt in Ho.
    rewrite length_app. simpl. lia.
  - apply andb_true_iff in Ho as [H1 H2]. apply Nat.ltb_lt in H1, H2.
    destruct (split_at_index l idx H2) as (pre & x & post & -> & <-).
    unfold removeInfluence.
    pose proof (removeAt_split pre post x 0) as R. simpl in R. rewrite R.
    rewrite length_app in *. simpl in *. lia.
  - apply Nat.ltb_lt in Ho.
    destruct (split_at_index l idx Ho) as (pre & x & post & -> & <-).
    rewrite updateInfluence_split. rewrite length_app in *. simpl in *. lia.
Qed.

(** X19.  Through the influence blender the list of influences always
    has one, two or three entries: starting from the single empty
    influence, whatever the user adds, removes and edits with the controls
    that are on the screen. *)
Theorem influences_stay_between_one_and_three (events : list (Event Weight)) :
  possible Weight half (initialInfluences Weight half) events = true ->
  (1 <= List.length (fold_left (step Weight half) events (initialInfluences Weight half))
   <= 3)%nat.
Proof.
  assert (G : forall l,
             (1 <= List.length l <= 3)%nat ->
             possible Weight half l events = true ->
             (1 <= List.length (fold_left (step Weight half) events l) <= 3)%nat).
  { induction events as [|e events IH]; simpl; intros l Hl Hp; [exact Hl|].
    apply andb_true_iff in Hp as [Ho Hp].
    apply IH; [now apply step_length | exact Hp]. }
  intros Hp. apply G; [simpl; lia | exact Hp].
Qed.

End InfluenceList.

(** ** The HitMaker page *)

Section StudioRequests.

Variable Weight : Type.
Variable half : Weight.
Variables Blueprint Analysis InfluenceResponse : Type.
Variable song_id : Blueprint -> string.
Variable trim : string -> string.
Variable B : Type.
Variable api : HitMakerStudio.Api Weight Blueprint Analysis InfluenceResponse B.

(** What one event adds to the request log: nothing, the list request of
    the source type, or one request about the selected source, which is
    then not the empty identifier; an influence request carries the named
    influences of the page, and there is at least one. *)
Lemma studio_step_requests
    (w : HitMakerStudio.World Weight Blueprint Analysis InfluenceResponse B)
    (e : HitMakerStudio.Event Weight) :
  let st := HitMakerStudio.ui w in
  let id := HitMakerStudio.selectedSourceId st in
  let w' := HitMakerStudio.step half song_id trim api w e in
  HitMakerStudio.requests w' = HitMakerStudio.requests w \/
  HitMakerStudio.requests w' =
    (HitMakerStudio.requests w
       ++ [HitMakerStudio.listRequest (HitMakerStudio.sourceType st)])%list \/
  exists r,
    HitMakerStudio.requests w' = (HitMakerStudio.requests w ++ [r])%list /\
    id <> "" /\
    HitMakerStudio.sourceIdOf r = Some id /\
    (forall l, HitMakerStudio.influencesOf r = Some l ->
       l = HitMakerStudio.validInfluences trim (HitMakerStudio.influences st) /\ l <> []) /\
    (r = HitMakerStudio.detailRequest (HitMakerStudio.sourceType st) id \/
     r = HitMakerStudio.analyzeRequest (HitMakerStudio.sourceType st) id \/
     exists q,
       HitMakerStudio.source_blueprint_id q =
         match HitMakerStudio.sourceType st with
         | HitMakerStudio.blueprint => Some id
         | HitMakerStudio.manual => None
         end /\
       HitMakerStudio.source_manual_project_id q =
         match HitMakerStudio.sourceType st with
         | HitMakerStudio.manual => Some id
         | HitMakerStudio.blueprint => None
         end /\
       r = match HitMakerStudio.sourceType st with
           | HitMakerStudio.blueprint => HitMakerStudio.ReqInfluenceBlueprint q
           | HitMakerStudio.manual => HitMakerStudio.ReqInfluenceManual q
           end).
Proof.
  cbv zeta.
  destruct e as [t|id| | | | |ie|text|text]; simpl;
    try (left; reflexivity).
  - (* the effect on the source type *)
    right; left. unfold HitMakerStudio.effectSourceType.
    destruct (HitMakerStudio.sourceType (HitMakerStudio.ui w)); simpl.
    + unfold HitMakerStudio.loadBlueprints.
      destruct (HitMakerStudio.listSongBlueprints api 20 _) as [[m|data] b'];
        reflexivity.
    + unfold HitMakerStudio.loadManualProjects.
      destruct (HitMakerStudio.listProjects api _) as [[m|data] b'];
        reflexivity.
  - (* the effect on the selected source *)
    unfold HitMakerStudio.effectSelectedSource.
    destruct (String.eqb (HitMakerStudio.selectedSourceId (HitMakerStudio.ui w)) "")
      eqn:E; [left; reflexivity|].
    apply String.eqb_neq in E.
    right; right. unfold HitMakerStudio.loadSourceDetails.
    destruct (HitMakerStudio.sourceType (HitMakerStudio.ui w)); simpl.
    + exists (HitMakerStudio.ReqGetSongBlueprint
                (HitMakerStudio.selectedSourceId (HitMakerStudio.ui w))).
      destruct (HitMakerStudio.getSongBlueprint api _ _) as [[m|d] b'];
        simpl; (split; [reflexivity|]; split; [exact E|]; split; [reflexivity|];
         split; [intros l; discriminate | now left]).
    + exists (HitMakerStudio.ReqGetProjectDetail
                (HitMakerStudio.selectedSourceId (HitMakerStudio.ui w))).
      destruct (HitMakerStudio.getProjectDetail api _ _) as [[m|d] b'];
        simpl; (split; [reflexivity|]; split; [exact E|]; split; [reflexivity|];
         split; [intros l; discriminate | now left]).
  - (* Analyze *)
    unfold HitMakerStudio.handleAnalyze.
    destruct (String.eqb (HitMakerStudio.selectedSourceId (HitMakerStudio.ui w)) "")
      eqn:E; [left; reflexivity|].
    apply String.eqb_neq in E.
    right; right.
    destruct (HitMakerStudio.sourceType (HitMakerStudio.ui w)); simpl.
    + exists (HitMakerStudio.ReqAnalyzeBlueprint
                (HitMakerStudio.selectedSourceId (HitMakerStudio.ui w))).
      destruct (HitMakerStudio.analyzeBlueprint api _ _) as [[m|d] b'];
        simpl; (split; [reflexivity|]; split; [exact E|]; split; [reflexivity|];
         split; [intros l; discriminate | right; now left]).
    + exists (HitMakerStudio.ReqAnalyzeManual
                (HitMakerStudio.selectedSourceId (HitMakerStudio.ui w))).
      destruct (HitMakerStudio.analyzeManual api _ _) as [[m|d] b'];
        simpl; (split; [reflexivity|]; split; [exact E|]; split; [reflexivity|];
         split; [intros l; discriminate | right; now left]).
  - (* Apply influences *)
    unfold HitMakerStudio.handleApplyInfluences.
    destruct (String.eqb (HitMakerStudio.selectedSourceId (HitMakerStudio.ui w)) "")
      eqn:E; [left; reflexivity|].
    apply String.eqb_neq in E.
    destruct (HitMakerStudio.validInfluences trim
                (HitMakerStudio.influences (HitMakerStudio.ui w)))
      as [|v vs] eqn:V; [left; reflexivity|].
    right; right.
    set (q := HitMakerStudio.influenceRequest trim (HitMakerStudio.ui w)).
    destruct (HitMakerStudio.sourceType (HitMakerStudio.ui w)) eqn:T; simpl.
    + exists (HitMakerStudio.ReqInfluenceBlueprint q).
      assert (S1 : HitMakerStudio.source_blueprint_id q
                   = Some (HitMakerStudio.selectedSourceId (HitMakerStudio.ui w))).
      { unfold q, HitMakerStudio.influenceRequest. simpl. now rewrite T. }
      assert (S2 : HitMakerStudio.source_manual_project_id q = None).
      { unfold q, HitMakerStudio.influenceRequest. simpl. now rewrite T. }
      destruct (HitMakerStudio.influenceBlueprint api _ _) as [[m|d] b'];
        simpl;
        (split; [reflexivity|]; split; [exact E|]; split; [exact S1|];
         split; [intros l [= <-]; split; [exact V | rewrite V; discriminate]|];
         right; right; exists q; repeat split; assumption).
    + exists (HitMakerStudio.ReqInfluenceManual q).
      assert (S1 : HitMakerStudio.source_blueprint_id q = None).
      { unfold q, HitMakerStudio.influenceRequest. simpl. now rewrite T. }
      assert (S2 : HitMakerStudio.source_manual_project_id q
                   = Some (HitMakerStudio.selectedSourceId (HitMakerStudio.ui w))).
      { unfold q, HitMakerStudio.influenceRequest. simpl. now rewrite T. }
      destruct (HitMakerStudio.influenceManual api _ _) as [[m|d] b'];
        simpl;
        (split; [reflexivity|]; split; [exact E|]; split; [exact S2|];
         split; [intros l [= <-]; split; [exact V | rewrite V; discriminate]|];
         right; right; exists q; repeat split; assumption).
Qed.

Lemma studio_step_influences
    (w : HitMakerStudio.World Weight Blueprint Analysis InfluenceResponse B)
    (e : HitMakerStudio.Event Weight) :
  HitMakerStudio.influences (HitMakerStudio.ui (HitMakerStudio.step half song_id trim api w e)) =
  match e with
  | HitMakerStudio.Influence ie =>
      HitMaker.step Weight half (HitMakerStudio.influences (HitMakerStudio.ui w)) ie
  | _ => HitMakerStudio.influences (HitMakerStudio.ui w)
  end.
Proof.
  destruct e as [t|id| | | | |ie|text|text]; simpl; try reflexivity.
  - unfold HitMakerStudio.effectSourceType.
    destruct (HitMakerStudio.sourceType (HitMakerStudio.ui w)).
    + unfold HitMakerStudio.loadBlueprints.
      destruct (HitMakerStudio.listSongBlueprints api 20 _) as [[m|[|d data]] b'];
        simpl; try reflexivity.
      destruct (String.eqb _ ""); reflexivity.
    + unfold HitMakerStudio.loadManualProjects.
      destruct (HitMakerStudio.listProjects api _) as [[m|[|d data]] b'];
        simpl; try reflexivity.
      destruct (String.eqb _ ""); reflexivity.
  - unfold HitMakerStudio.effectSelectedSource, HitMakerStudio.loadSourceDetails.
    destruct (String.eqb _ ""); [reflexivity|].
    destruct (HitMakerStudio.sourceType (HitMakerStudio.ui w)).
    + destruct (HitMakerStudio.getSongBlueprint api _ _) as [[m|d] b']; reflexivity.
    + destruct (HitMakerStudio.getProjectDetail api _ _) as [[m|d] b']; reflexivity.
  - unfold HitMakerStudio.handleAnalyze.
    destruct (String.eqb _ ""); [reflexivity|].
    destruct (HitMakerStudio.sourceType (HitMakerStudio.ui w)).
    + destruct (HitMakerStudio.analyzeBlueprint api _ _) as [[m|d] b']; reflexivity.
    + destruct (HitMakerStudio.analyzeManual api _ _) as [[m|d] b']; reflexivity.
  - unfold HitMakerStudio.handleApplyInfluences.
    destruct (String.eqb _ ""); [reflexivity|].
    destruct (HitMakerStudio.validInfluences trim _); [reflexivity|].
    destruct (HitMakerStudio.sourceType (HitMakerStudio.ui w)).
    + destruct (HitMakerStudio.influenceBlueprint api _ _) as [[m|d] b']; reflexivity.
    + destruct (HitMakerStudio.influenceManual api _ _) as [[m|d] b']; reflexivity.
Qed.

Lemma studio_step_not_busy
    (w : HitMakerStudio.World Weight Blueprint Analysis InfluenceResponse B)
    (e : HitMakerStudio.Event Weight) :
  HitMakerStudio.isAnalyzing (HitMakerStudio.ui w) = false ->
  HitMakerStudio.isApplyingInfluence (HitMakerStudio.ui w) = false ->
  let w' := HitMakerStudio.step half song_id trim api w e in
  HitMakerStudio.isAnalyzing (HitMakerStudio.ui w') = false /\
  HitMakerStudio.isApplyingInfluence (HitMakerStudio.ui w') = false.
Proof.
  intros Ha Hb. cbv zeta.
  destruct e as [t|id| | | | |ie|text|text]; simpl; try (split; assumption).
  - unfold HitMakerStudio.effectSourceType.
    destruct (HitMakerStudio.sourceType (HitMakerStudio.ui w)).
    + unfold HitMakerStudio.loadBlueprints.
      destruct (HitMakerStudio.listSongBlueprints api 20 _) as [[m|[|d data]] b'];
        simpl; try (split; assumption).
      destruct (String.eqb _ ""); split; assumption.
    + unfold HitMakerStudio.loadManualProjects.
      destruct (HitMakerStudio.listProjects api _) as [[m|[|d data]] b'];
        simpl; try (split; assumption).
      destruct (String.eqb _ ""); split; assumption.
  - unfold HitMakerStudio.effectSelectedSource, HitMakerStudio.loadSourceDetails.
    destruct (String.eqb _ ""); [split; assumption|].
    destruct (HitMakerStudio.sourceType (HitMakerStudio.ui w)).
    + destruct (HitMakerStudio.getSongBlueprint api _ _) as [[m|d] b']; split; assumption.
    + destruct (HitMakerStudio.getProjectDetail api _ _) as [[m|d] b']; split; assumption.
  - unfold HitMakerStudio.handleAnalyze.
    destruct (String.eqb _ ""); [split; assumption|].
    destruct (HitMakerStudio.sourceType (HitMakerStudio.ui w)).
    + destruct (HitMakerStudio.analyzeBlueprint api _ _) as [[m|d] b'];
        simpl; (split; [reflexivity | assumption]).
    + destruct (HitMakerStudio.analyzeManual api _ _) as [[m|d] b'];
        simpl; (split; [reflexivity | assumption]).
  - unfold HitMakerStudio.handleApplyInfluences.
    destruct (String.eqb _ ""); [split; assumption|].
    destruct (HitMakerStudio.validInfluences trim _); [split; assumption|].
    destruct (HitMakerStudio.sourceType (HitMakerStudio.ui w)).
    + destruct (HitMakerStudio.influenceBlueprint api _ _) as [[m|d] b'];
        simpl; (split; [assumption | reflexivity]).
    + destruct (HitMakerStudio.influenceManual api _ _) as [[m|d] b'];
        simpl; (split; [assumption | reflexivity]).
Qed.

Lemma validInfluences_length (l : list (HitMaker.InfluenceDescriptor Weight)) :
  (List.length (HitMakerStudio.validInfluences trim l) <= List.length l)%nat.
Proof.
  unfold HitMakerStudio.validInfluences.
  induction l as [|a l IH]; simpl; [lia|].
  destruct (negb _); simpl; lia.
Qed.

Lemma validInfluences_named (l : list (HitMaker.InfluenceDescriptor Weight)) :
  Forall (fun inf => trim (HitMaker.name Weight inf) <> "")
         (HitMakerStudio.validInfluences trim l).
Proof.
  apply Forall_forall. intros inf Hin.
  unfold HitMakerStudio.validInfluences in Hin.
  apply filter_In in Hin as [_ Hn].
  apply negb_true_iff in Hn. now apply String.eqb_neq.
Qed.

(** X20.  Choosing the other source type keeps the source selected
    before.  With a source selected, after the user picks a source type,
    the two effects run and "Analyze Song" is pressed, the page has sent,
    whatever the backend answers: the list request of the new type, then
    the detail request and the analysis request of the new type, both for
    the identifier that was selected under the old type. *)
Theorem source_type_switch_keeps_selected_id
    (w : HitMakerStudio.World Weight Blueprint Analysis InfluenceResponse B)
    (t : HitMakerStudio.SourceType) :
  HitMakerStudio.selectedSourceId (HitMakerStudio.ui w) <> "" ->
  let id := HitMakerStudio.selectedSourceId (HitMakerStudio.ui w) in
  let w' :=
    HitMakerStudio.run half song_id trim api w
      [HitMakerStudio.ChooseSourceType t; HitMakerStudio.EffectSourceType;
       HitMakerStudio.EffectSelectedSource; HitMakerStudio.Analyze] in
  HitMakerStudio.selectedSourceId (HitMakerStudio.ui w') = id /\
  HitMakerStudio.requests w' =
    (HitMakerStudio.requests w
       ++ [HitMakerStudio.listRequest t;
           HitMakerStudio.detailRequest t id;
           HitMakerStudio.analyzeRequest t id])%list.
Proof.
  intros Hid. cbv zeta.
  apply String.eqb_neq in Hid.
  unfold HitMakerStudio.run. simpl.
  unfold HitMakerStudio.effectSourceType, HitMakerStudio.onUi. simpl.
  destruct t; simpl.
  - unfold HitMakerStudio.loadBlueprints. simpl.
    destruct (HitMakerStudio.listSongBlueprints api 20 _) as [[m|[|d data]] b1];
      simpl; rewrite ?Hid; simpl;
      unfold HitMakerStudio.effectSelectedSource; simpl; rewrite Hid;
      unfold HitMakerStudio.loadSourceDetails; simpl;
      (destruct (HitMakerStudio.getSongBlueprint api _ _) as [[m2|d2] b2]; simpl;
       unfold HitMakerStudio.handleAnalyze; simpl; rewrite Hid; simpl;
       destruct (HitMakerStudio.analyzeBlueprint api _ _) as [[m3|d3] b3]; simpl;
       rewrite <- !app_assoc; split; reflexivity).
  - unfold HitMakerStudio.loadManualProjects. simpl.
    destruct (HitMakerStudio.listProjects api _) as [[m|[|d data]] b1];
      simpl; rewrite ?Hid; simpl;
      unfold HitMakerStudio.effectSelectedSource; simpl; rewrite Hid;
      unfold HitMakerStudio.loadSourceDetails; simpl;
      (destruct (HitMakerStudio.getProjectDetail api _ _) as [[m2|d2] b2]; simpl;
       unfold HitMakerStudio.handleAnalyze; simpl; rewrite Hid; simpl;
       destruct (HitMakerStudio.analyzeManual api _ _) as [[m3|d3] b3]; simpl;
       rewrite <- !app_assoc; split; reflexivity).
Qed.

(** X21.  Every influence request the page sends carries one, two or
    three influences, and each of them has a name that is not blank: from
    the page as mounted, whatever the user does with the controls on the
    screen and whatever the backend answers. *)
Theorem influence_requests_carry_named_influences
    (b : B) (events : list (HitMakerStudio.Event Weight)) :
  HitMakerStudio.possible half song_id trim api (HitMakerStudio.initial half b) events
    = true ->
  Forall (fun r =>
            forall l, HitMakerStudio.influencesOf r = Some l ->
              (1 <= List.length l <= 3)%nat /\
              Forall (fun inf => trim (HitMaker.name Weight inf) <> "") l)
         (HitMakerStudio.requests
            (HitMakerStudio.run half song_id trim api (HitMakerStudio.initial half b) events)).
Proof.
  set (good := fun r : HitMakerStudio.Request Weight =>
                 forall l, HitMakerStudio.influencesOf r = Some l ->
                   (1 <= List.length l <= 3)%nat /\
                   Forall (fun inf => trim (HitMaker.name Weight inf) <> "") l).
  assert (G : forall w,
             (1 <= List.length (HitMakerStudio.influences (HitMakerStudio.ui w)) <= 3)%nat ->
             Forall good (HitMakerStudio.requests w) ->
             HitMakerStudio.possible half song_id trim api w events = true ->
             Forall good (HitMakerStudio.requests
                            (HitMakerStudio.run half song_id trim api w events))).
  { induction events as [|e events IH]; intros w Hl Hr Hp; [exact Hr|].
    simpl in Hp. apply andb_true_iff in Hp as [Ho Hp].
    unfold HitMakerStudio.run. simpl. apply IH; [| |exact Hp].
    - rewrite studio_step_influences.
      destruct e; try exact Hl.
      simpl in Ho. now apply step_length.
    - pose proof (studio_step_requests w e) as S. cbv zeta in S.
      destruct S as [S|[S|(r & S & _ & _ & Hinf & _)]]; rewrite S.
      + exact Hr.
      + apply Forall_app. split; [exact Hr|].
        constructor; [|constructor].
        intros l Hl'. destruct (HitMakerStudio.sourceType (HitMakerStudio.ui w));
          discriminate.
      + apply Forall_app. split; [exact Hr|].
        constructor; [|constructor].
        intros l Hl'. destruct (Hinf l Hl') as [-> Hne].
        split; [split|].
        * destruct (HitMakerStudio.validInfluences trim _); [congruence | simpl; lia].
        * pose proof (validInfluences_length
                        (HitMakerStudio.influences (HitMakerStudio.ui w))). lia.
        * apply validInfluences_named. }
  intros Hp. apply G; [simpl; lia | constructor | exact Hp].
Qed.

(** X22.  No request of the page names an empty source: from the page as
    mounted, a request is a list request or names a source identifier that
    is not the empty string, and an influence request names its source in
    the field of its endpoint only. *)
Theorem requests_name_a_selected_source
    (b : B) (events : list (HitMakerStudio.Event Weight)) :
  Forall (fun r =>
            match HitMakerStudio.sourceIdOf r with
            | Some id => id <> ""
            | None => r = HitMakerStudio.ReqListSongBlueprints 20 \/
                      r = HitMakerStudio.ReqListProjects
            end /\
            match r with
            | HitMakerStudio.ReqInfluenceBlueprint q =>
                HitMakerStudio.source_manual_project_id q = None
            | HitMakerStudio.ReqInfluenceManual q =>
                HitMakerStudio.source_blueprint_id q = None
            | _ => True
            end)
         (HitMakerStudio.requests
            (HitMakerStudio.run half song_id trim api (HitMakerStudio.initial half b) events)).
Proof.
  set (good := fun r : HitMakerStudio.Request Weight => _ /\ _).
  assert (G : forall w,
             Forall good (HitMakerStudio.requests w) ->
             Forall good (HitMakerStudio.requests
                            (HitMakerStudio.run half song_id trim api w events))).
  { induction events as [|e events IH]; intros w Hr; [exact Hr|].
    unfold HitMakerStudio.run. simpl. apply IH.
    pose proof (studio_step_requests w e) as S. cbv zeta in S.
    destruct S as [S|[S|(r & S & Hid & Hsrc & _ & Hr')]]; rewrite S.
    - exact Hr.
    - apply Forall_app. split; [exact Hr|].
      constructor; [|constructor].
      destruct (HitMakerStudio.sourceType (HitMakerStudio.ui w)); split; simpl; auto.
    - apply Forall_app. split; [exact Hr|].
      constructor; [|constructor].
      split; [rewrite Hsrc; exact Hid|].
      destruct Hr' as [->|[->|(q & S1 & S2 & ->)]];
        destruct (HitMakerStudio.sourceType (HitMakerStudio.ui w)); simpl; auto. }
  apply G. constructor.
Qed.

(** X23.  The page is never left busy: after every event, also one whose
    request failed, "Analyzing..." and "Applying Influences..." are off
    again. *)
Theorem studio_is_never_left_busy
    (b : B) (events : list (HitMakerStudio.Event Weight)) :
  let w := HitMakerStudio.run half song_id trim api (HitMakerStudio.initial half b) events in
  HitMakerStudio.isAnalyzing (HitMakerStudio.ui w) = false /\
  HitMakerStudio.isApplyingInfluence (HitMakerStudio.ui w) = false.
Proof.
  cbv zeta.
  assert (G : forall w,
             HitMakerStudio.isAnalyzing (HitMakerStudio.ui w) = false ->
             HitMakerStudio.isApplyingInfluence (HitMakerStudio.ui w) = false ->
             HitMakerStudio.isAnalyzing
               (HitMakerStudio.ui (HitMakerStudio.run half song_id trim api w events))
               = false /\
             HitMakerStudio.isApplyingInfluence
               (HitMakerStudio.ui (HitMakerStudio.run half song_id trim api w events))
               = false).
  { induction events as [|e events IH]; intros w Ha Hb; [split; assumption|].
    unfold HitMakerStudio.run. simpl.
    destruct (studio_step_not_busy w e Ha Hb) as [Ha' Hb'].
    now apply IH. }
  apply G; reflexivity.
Qed.

End StudioRequests.

(** ** The further properties at work *)

Section FurtherRuns.

(** The cell of bar 2 shows "Pattern 3"; the click selects it. *)
Lemma click_on_cell_labelled_pattern_3 :
  BarCell.label (renderBarCell (ui Scenario.selected) Example.track 2) = Some "Pattern 3"
  /\ exists p,
       getPatternAtCell (ui Scenario.selected) (Track.id Example.track) 2 = Some p
       /\ Pattern.name p = "Pattern 3"
       /\ selectedPattern (ui (snd (handleCellClick Example.track 2 Scenario.selected)))
          = Some p
       /\ requests (snd (handleCellClick Example.track 2 Scenario.selected))
          = requests Scenario.selected
       /\ backend (snd (handleCellClick Example.track 2 Scenario.selected))
          = backend Scenario.selected.
Proof.
  split; [reflexivity|].
  refine (click_on_labelled_cell_selects_shown_pattern Scenario.selected Example.track 2
            Cases.detailWithPattern3 "Pattern 3" eq_refl _ eq_refl).
  repeat constructor.
Defined.

Lemma pattern3_alone_does_not_overlap : non_overlapping [Example.pattern3].
Proof.
  intros t b. simpl. destruct (coversCell t b Example.pattern3); simpl; lia.
Qed.

(** "Pattern 3" is shown on bars 2 and 3, with its name written on bar 2
    only. *)
Lemma pattern_3_shown_on_bars_2_and_3 :
  BarCell.label (renderBarCell (ui Scenario.selected) Example.track 2) = Some "Pattern 3"
  /\ BarCell.label (renderBarCell (ui Scenario.selected) Example.track 3) = None
  /\ BarCell.title (renderBarCell (ui Scenario.selected) Example.track 3) = "Pattern 3".
Proof.
  pose proof (pattern_shown_on_its_bars (ui Scenario.selected) Example.track
                Cases.detailWithPattern3 Example.pattern3 eq_refl
                pattern3_alone_does_not_overlap (or_introl eq_refl) eq_refl) as H.
  destruct (H 2) as [_ H2]. destruct (H 3) as [_ H3].
  destruct H2 as (_ & _ & L2); [simpl; lia|].
  destruct H3 as (_ & T3 & L3); [simpl; lia|].
  split; [exact L2 | split; [exact L3 | exact T3]].
Defined.


(** The stored note of cell (0, 60) has velocity 90; off and on again, the
    cell holds the temporary note with velocity 100. *)
Lemma toggle_off_and_on_loses_velocity_90 :
  Js.get (noteGrid (ui Cases.loadedNotes)) (note_key 0 60)
    = Some (Note.mk "id-5" "id-2" 0 60 90)
  /\ noteGrid (ui (snd (toggleNote 0 60 (snd (toggleNote 0 60 Cases.loadedNotes)))))
     = [("4-64", Note.mk "id-4" "id-2" 4 64 80);
        ("0-60", Note.mk "temp" "id-2" 0 60 100)].
Proof.
  split; [reflexivity|].
  exact (proj1 (toggle_off_and_on_resets_the_note Cases.loadedNotes 0 60 Example.pattern3
                  eq_refl eq_refl)).
Defined.

(** Cell (0, 60) of the edited grid is on; the toggle switches it off and
    leaves cell (4, 64) on. *)
Lemma toggle_switches_cell_0_60_off :
  hasNote (ui Scenario.edited) 0 60 = true
  /\ hasNote (ui (snd (toggleNote 0 60 Scenario.edited))) 0 60 = false
  /\ hasNote (ui (snd (toggleNote 0 60 Scenario.edited))) 4 64 = true.
Proof.
  split; [reflexivity|].
  pose proof (toggle_flips_the_cell Scenario.edited 0 60 Example.pattern3 eq_refl
                edited_grid_wf) as (H1 & H2 & _).
  split; [exact H1|].
  rewrite (H2 4 64); [reflexivity | discriminate].
Defined.

(** The example session, with a doubled note in the store, keeps one note
    per cell. *)
Lemma example_page_has_one_note_per_cell :
  (List.length
     (filter (sameCell 0 60)
        (Js.values
           (noteGrid
              (ui (Page.run [Page.EffectSelectedPattern; Page.ToggleNote 7 62]
                     Scenario.doubled)))))
   <= 1)%nat.
Proof.
  pose proof (page_grid_has_one_note_per_cell
                [Page.EffectSelectedPattern; Page.ToggleNote 7 62] Scenario.doubled
                (wf_empty _) keyed_empty) as (_ & _ & H).
  exact (H 0 60).
Defined.

(** After the failed load of a missing project and a click, the page is
    not loading. *)
Lemma example_page_is_not_left_loading :
  isLoading
    (ui (Page.run [Page.SelectProject "nope"; Page.EffectSelectedProjectId;
                   Page.CellClick Example.track 2] Scenario.loaded)) = false.
Proof.
  exact (page_is_never_left_loading
           [Page.SelectProject "nope"; Page.EffectSelectedProjectId;
            Page.CellClick Example.track 2] Scenario.loaded eq_refl).
Defined.

(** The store refuses the grid with a note at step 16; the note stays in
    the grid of the page. *)
Lemma refused_save_keeps_step_16 :
  Js.has (noteGrid (ui Cases.outOfRange)) (note_key 16 60) = true
  /\ ui (snd (handleSaveNotes Cases.outOfRange)) = ui Cases.outOfRange
  /\ console (snd (handleSaveNotes Cases.outOfRange)) = ["Failed to save notes:"].
Proof.
  split; [reflexivity|].
  pose proof (refused_save_keeps_the_edits Cases.outOfRange Example.pattern3
                "ValidationError" (backend Cases.outOfRange) eq_refl eq_refl) as H.
  rewrite H. split; reflexivity.
Defined.

(** Selecting the missing project "nope" leaves the example project on the
    page. *)
Lemma missing_project_leaves_example_project :
  selectedProjectId (ui Cases.stale) = Some "nope"
  /\ projectDetail (ui Cases.stale) = Some Cases.emptyDetail.
Proof.
  pose proof (failed_project_load_leaves_previous_project Scenario.loaded "nope"
                "NotFoundError" (backend Scenario.loaded) eq_refl) as (H1 & H2 & _).
  split; [exact H1 | exact H2].
Defined.


(** One influence is added, named, and the first one removed: one
    influence is left. *)
Lemma one_influence_left_after_add_and_remove :
  List.length
    (fold_left (HitMaker.step QArith_base.Q Cases.half)
       [HitMaker.AddClicked QArith_base.Q;
        HitMaker.Edited QArith_base.Q 1 (HitMaker.NameValue QArith_base.Q "Prince");
        HitMaker.RemoveClicked QArith_base.Q 0]
       (HitMaker.initialInfluences QArith_base.Q Cases.half)) = 1%nat
  /\ (1 <= List.length
            (fold_left (HitMaker.step QArith_base.Q Cases.half)
               [HitMaker.AddClicked QArith_base.Q;
                HitMaker.Edited QArith_base.Q 1 (HitMaker.NameValue QArith_base.Q "Prince");
                HitMaker.RemoveClicked QArith_base.Q 0]
               (HitMaker.initialInfluences QArith_base.Q Cases.half)) <= 3)%nat.
Proof.
  split; [reflexivity|].
  exact (influences_stay_between_one_and_three QArith_base.Q Cases.half
           [HitMaker.AddClicked QArith_base.Q;
            HitMaker.Edited QArith_base.Q 1 (HitMaker.NameValue QArith_base.Q "Prince");
            HitMaker.RemoveClicked QArith_base.Q 0] eq_refl).
Defined.

(** "song-1" is selected as a blueprint; after the switch to manual
    projects the page asks for the manual project "song-1" and for its
    analysis. *)
Lemma blueprint_id_is_sent_as_manual_project :
  HitMakerStudio.selectedSourceId (HitMakerStudio.ui Cases.studioMounted) <> "" /\
  HitMakerStudio.selectedSourceId
    (HitMakerStudio.ui
       (HitMakerStudio.run Cases.half (fun songId : string => songId) Cases.trim
          Cases.studioApi Cases.studioMounted
          [HitMakerStudio.ChooseSourceType HitMakerStudio.manual;
           HitMakerStudio.EffectSourceType;
           HitMakerStudio.EffectSelectedSource;
           HitMakerStudio.Analyze]))
    = "song-1" /\
  HitMakerStudio.requests
    (HitMakerStudio.run Cases.half (fun songId : string => songId) Cases.trim
       Cases.studioApi Cases.studioMounted
       [HitMakerStudio.ChooseSourceType HitMakerStudio.manual;
        HitMakerStudio.EffectSourceType;
        HitMakerStudio.EffectSelectedSource;
        HitMakerStudio.Analyze])
    = [HitMakerStudio.ReqListSongBlueprints 20;
       HitMakerStudio.ReqGetSongBlueprint "song-1";
       HitMakerStudio.ReqListProjects;
       HitMakerStudio.ReqGetProjectDetail "song-1";
       HitMakerStudio.ReqAnalyzeManual "song-1"].
Proof.
  split; [discriminate|].
  exact (source_type_switch_keeps_selected_id QArith_base.Q Cases.half
           string string string (fun songId : string => songId) Cases.trim
           unit Cases.studioApi Cases.studioMounted HitMakerStudio.manual
           ltac:(discriminate)).
Defined.

(** Of the influences " Prince " and "  " the request carries the first
    only. *)
Lemma blank_influence_is_not_sent :
  HitMakerStudio.possible Cases.half (fun songId : string => songId) Cases.trim
    Cases.studioApi (HitMakerStudio.initial Cases.half tt) Cases.studioInfluenceEvents
    = true /\
  map (@HitMakerStudio.influencesOf QArith_base.Q)
      (HitMakerStudio.requests (Cases.studioRun Cases.studioInfluenceEvents))
    = [None; None; Some [HitMaker.mkInfluence QArith_base.Q " Prince " Cases.half]] /\
  Forall (fun r =>
            forall l, HitMakerStudio.influencesOf r = Some l ->
              (1 <= List.length l <= 3)%nat /\
              Forall (fun inf => Cases.trim (HitMaker.name QArith_base.Q inf) <> "") l)
         (HitMakerStudio.requests (Cases.studioRun Cases.studioInfluenceEvents)).
Proof.
  split; [reflexivity|]. split; [reflexivity|].
  exact (influence_requests_carry_named_influences QArith_base.Q Cases.half
           string string string (fun songId : string => songId) Cases.trim
           unit Cases.studioApi tt Cases.studioInfluenceEvents eq_refl).
Defined.

End FurtherRuns.
